(** * linux-entra-sso: the native-messaging bridge, embedded in Rocq

    A shallow embedding of [linux-entra-sso.py]: the frame codec
    ([NativeMessaging]), the broker client ([SsoMib]), the session
    loop ([run_as_native_messaging]) and the interactive mode
    ([run_interactive], after its arguments are parsed).

    Python values are modelled as follows.
    - [bytes] objects are lists of [Byte.byte];
    - [str] objects are lists of Unicode code points ([N]);
    - every other value the program handles is decoded JSON: [None],
      [bool], [int], [float], [str], [list] and [dict] (an insertion
      ordered association list);
    - a call that raises is a [result] carrying the exception class;
      stateful code lives in the monad [M] over the process state, and
      emits the events an observer of the process can see. *)

From Stdlib Require Import String Ascii.
From Stdlib Require Import List ZArith NArith Lia Bool.
From Stdlib Require Import Strings.Byte Numbers.DecimalPos Numbers.DecimalN.
From Stdlib Require Import Sorting.Sorted.
Import ListNotations.

Local Open Scope N_scope.

(** ** Python [bytes] and [str] *)

Definition bytes := list byte.

Definition codepoint := N.

Definition str := list codepoint.

(** A Python string literal whose characters are all ASCII. *)
Definition py (s : string) : str := map N_of_ascii (list_ascii_of_string s).

Fixpoint str_eqb (a b : str) : bool :=
  match a, b with
  | [], [] => true
  | x :: a', y :: b' => (x =? y) && str_eqb a' b'
  | _, _ => false
  end.

(** The byte whose value is [n mod 256]. *)
Definition byte_of_N (n : N) : byte :=
  match Byte.of_N (n mod 256) with
  | Some b => b
  | None => x00
  end.

(** ** Exceptions *)

(** The subclasses of [Exception] the program can raise. *)
Inductive exception :=
| KeyError
| IndexError
| TypeError
| AttributeError
| StructError            (* struct.error *)
| UnicodeDecodeError
| UnicodeEncodeError
| JSONDecodeError
| OSError.               (* Popen could not start the broker *)

(** What ends a computation early.  [SystemExit] derives from
    [BaseException] only, so [except Exception] lets it through.
    [Deadlock] stands for a blocking [acquire] of a [threading.Lock]
    that is already held: the thread never resumes. *)
Inductive abort :=
| Exc (e : exception)
| SystemExit (code : Z)
| Deadlock.

Inductive result (A : Type) :=
| Ok (a : A)
| Abort (r : abort).

Arguments Ok {A} a.
Arguments Abort {A} r.

Definition raise {A} (e : exception) : result A := Abort (Exc e).

Definition rbind {A B} (r : result A) (f : A -> result B) : result B :=
  match r with
  | Ok a => f a
  | Abort e => Abort e
  end.

Definition rmap {A B} (f : A -> B) (r : result A) : result B :=
  rbind r (fun a => Ok (f a)).

(** ** The [struct] module: native unsigned integers *)

Inductive byteorder := LittleEndian | BigEndian.

(** The platform the interpreter runs on: the byte order and the size
    in bytes of a C [unsigned long].  [unsigned int] is four bytes on
    every platform CPython supports. *)
Record platform := mkPlatform {
  native_order : byteorder;
  sizeof_long : nat
}.

Definition sizeof_int : nat := 4%nat.

Fixpoint le_bytes (size : nat) (n : N) : bytes :=
  match size with
  | O => []
  | S k => byte_of_N (n mod 256) :: le_bytes k (n / 256)
  end.

Fixpoint le_value (b : bytes) : N :=
  match b with
  | [] => 0
  | x :: r => Byte.to_N x + 256 * le_value r
  end.

(** [struct.pack] of one unsigned integer of [size] bytes: the value
    must fit, else [struct.error]. *)
Definition pack_uint (o : byteorder) (size : nat) (n : N) : result bytes :=
  if n <? 2 ^ (8 * N.of_nat size) then
    Ok (match o with
        | LittleEndian => le_bytes size n
        | BigEndian => rev (le_bytes size n)
        end)
  else raise StructError.

(** [struct.unpack(fmt, buf)[0]] for one unsigned integer: the buffer
    must have exactly [size] bytes, else [struct.error]. *)
Definition unpack_uint (o : byteorder) (size : nat) (b : bytes) : result N :=
  if Nat.eqb (length b) size then
    Ok (le_value (match o with
                  | LittleEndian => b
                  | BigEndian => rev b
                  end))
  else raise StructError.

(** [struct.pack("@I", n)] and [struct.unpack("@I", b)[0]]. *)
Definition pack_I (p : platform) (n : N) : result bytes :=
  pack_uint (native_order p) sizeof_int n.

Definition unpack_I (p : platform) (b : bytes) : result N :=
  unpack_uint (native_order p) sizeof_int b.

(** [struct.pack("@L", n)]: a native [unsigned long]. *)
Definition pack_L (p : platform) (n : N) : result bytes :=
  pack_uint (native_order p) (sizeof_long p) n.

(** ** UTF-8 *)

Definition is_surrogate (c : codepoint) : bool :=
  (0xD800 <=? c) && (c <=? 0xDFFF).

(** [str.encode("utf-8")], strict. *)
Definition utf8_encode_char (c : codepoint) : result bytes :=
  if c <? 0x80 then Ok [byte_of_N c]
  else if c <? 0x800 then
    Ok [byte_of_N (0xC0 + c / 64); byte_of_N (0x80 + c mod 64)]
  else if is_surrogate c then raise UnicodeEncodeError
  else if c <? 0x10000 then
    Ok [byte_of_N (0xE0 + c / 4096); byte_of_N (0x80 + c / 64 mod 64);
        byte_of_N (0x80 + c mod 64)]
  else if c <? 0x110000 then
    Ok [byte_of_N (0xF0 + c / 262144); byte_of_N (0x80 + c / 4096 mod 64);
        byte_of_N (0x80 + c / 64 mod 64); byte_of_N (0x80 + c mod 64)]
  else raise UnicodeEncodeError.

Fixpoint utf8_encode (s : str) : result bytes :=
  match s with
  | [] => Ok []
  | c :: r =>
    rbind (utf8_encode_char c) (fun b =>
    rbind (utf8_encode r) (fun br => Ok (b ++ br)))
  end.

Definition is_cont (b : byte) : bool :=
  (0x80 <=? Byte.to_N b) && (Byte.to_N b <=? 0xBF).

Definition cont_bits (b : byte) : N := Byte.to_N b mod 64.

(** [bytes.decode("utf-8")], strict: overlong forms, surrogates, code
    points above U+10FFFF and truncated sequences are rejected. *)
Fixpoint utf8_decode (b : bytes) : result str :=
  match b with
  | [] => Ok []
  | b0 :: r0 =>
    let x0 := Byte.to_N b0 in
    if x0 <? 0x80 then rmap (cons x0) (utf8_decode r0)
    else if (0xC2 <=? x0) && (x0 <=? 0xDF) then
      match r0 with
      | b1 :: r1 =>
        if is_cont b1
        then rmap (cons ((x0 - 0xC0) * 64 + cont_bits b1)) (utf8_decode r1)
        else raise UnicodeDecodeError
      | _ => raise UnicodeDecodeError
      end
    else if (0xE0 <=? x0) && (x0 <=? 0xEF) then
      match r0 with
      | b1 :: b2 :: r2 =>
        let c := (x0 - 0xE0) * 4096 + cont_bits b1 * 64 + cont_bits b2 in
        if is_cont b1 && is_cont b2 && (0x800 <=? c) && negb (is_surrogate c)
        then rmap (cons c) (utf8_decode r2)
        else raise UnicodeDecodeError
      | _ => raise UnicodeDecodeError
      end
    else if (0xF0 <=? x0) && (x0 <=? 0xF4) then
      match r0 with
      | b1 :: b2 :: b3 :: r3 =>
        let c := (x0 - 0xF0) * 262144 + cont_bits b1 * 4096
                 + cont_bits b2 * 64 + cont_bits b3 in
        if is_cont b1 && is_cont b2 && is_cont b3
           && (0x10000 <=? c) && (c <? 0x110000)
        then rmap (cons c) (utf8_decode r3)
        else raise UnicodeDecodeError
      | _ => raise UnicodeDecodeError
      end
    else raise UnicodeDecodeError
  end.

(** ** Decoded JSON: the values the program handles *)

(** A [float] is kept as the JSON literal that denotes it ([NaN],
    [Infinity], [-Infinity], or a number with a fraction or an
    exponent); its rounding to an IEEE double is not modelled, except
    for the test against zero that truthiness needs. *)
#[local] Unset Elimination Schemes.

Inductive json :=
| JNull
| JBool (b : bool)
| JInt (z : Z)
| JFloat (literal : str)
| JStr (s : str)
| JList (items : list json)
| JDict (pairs : list (str * json)).

#[local] Set Elimination Schemes.

(** [d.get(k)]; [None] here is "key absent". *)
Fixpoint dict_get (d : list (str * json)) (k : str) : option json :=
  match d with
  | [] => None
  | (k', v) :: r => if str_eqb k' k then Some v else dict_get r k
  end.

(** [d[k] = v]: an existing key keeps its position. *)
Fixpoint dict_set (d : list (str * json)) (k : str) (v : json)
  : list (str * json) :=
  match d with
  | [] => [(k, v)]
  | (k', v') :: r =>
    if str_eqb k' k then (k', v) :: r else (k', v') :: dict_set r k v
  end.

(** [dict(pairs)]. *)
Definition dict_of_pairs (pairs : list (str * json)) : list (str * json) :=
  fold_left (fun d kv => dict_set d (fst kv) (snd kv)) pairs [].

(** [obj[key]] with a [str] key. *)
Definition getitem (obj : json) (key : str) : result json :=
  match obj with
  | JDict d =>
    match dict_get d key with
    | Some v => Ok v
    | None => raise KeyError
    end
  | _ => raise TypeError
  end.

(** [obj[0]]. *)
Definition getitem0 (obj : json) : result json :=
  match obj with
  | JList (x :: _) => Ok x
  | JList [] => raise IndexError
  | JStr (c :: _) => Ok (JStr [c])
  | JStr [] => raise IndexError
  | JDict _ => raise KeyError
  | _ => raise TypeError
  end.

(** [len(obj)]. *)
Definition len (obj : json) : result N :=
  match obj with
  | JStr s => Ok (N.of_nat (length s))
  | JList l => Ok (N.of_nat (length l))
  | JDict d => Ok (N.of_nat (length d))
  | _ => raise TypeError
  end.

(** [obj.get(key)] as the program calls it, on a [dict]. *)
Definition dict_method_get (obj : json) (key : str) : result json :=
  match obj with
  | JDict d =>
    match dict_get d key with
    | Some v => Ok v
    | None => Ok JNull
    end
  | _ => raise AttributeError
  end.

(** The digits of a float literal and its decimal exponent:
    the literal denotes [mantissa * 10 ^ exponent]. *)
Definition is_digit (c : codepoint) : bool := (48 <=? c) && (c <=? 57).

Fixpoint digits_value (acc : N) (s : str) : N :=
  match s with
  | [] => acc
  | c :: r => digits_value (10 * acc + (c - 48)) r
  end.

Fixpoint span_digits (s : str) : str * str :=
  match s with
  | [] => ([], [])
  | c :: r =>
    if is_digit c
    then let (d, rest) := span_digits r in (c :: d, rest)
    else ([], s)
  end.

Definition literal_mantissa_exponent (lit : str) : N * Z :=
  let body := match lit with 45 :: r => r | _ => lit end in
  let (ip, r1) := span_digits body in
  let (fp, r2) := match r1 with
                  | 46 :: r => span_digits r
                  | _ => ([], r1)
                  end in
  let e := match r2 with
           | _ :: 45 :: r => (- Z.of_N (digits_value 0 r))%Z
           | _ :: 43 :: r => Z.of_N (digits_value 0 r)
           | _ :: r => Z.of_N (digits_value 0 r)
           | [] => 0%Z
           end in
  (digits_value 0 (ip ++ fp), (e - Z.of_nat (length fp))%Z).

(** Whether the double nearest to a literal is zero: the literal is
    zero, or it is at most half the smallest subnormal, [2^-1075]. *)
Definition float_is_zero (lit : str) : bool :=
  match lit with
  | 78 :: _ | 73 :: _ | 45 :: 73 :: _ => false   (* NaN, Infinity, -Infinity *)
  | _ =>
    let (m, e) := literal_mantissa_exponent lit in
    (m =? 0)
    || ((e <? 0)%Z && (m * 2 ^ 1075 <=? 10 ^ Z.to_N (- e)))
  end.

(** Truth value testing, as [or] and [if] apply it. *)
Definition truthy (v : json) : bool :=
  match v with
  | JNull => false
  | JBool b => b
  | JInt z => negb (z =? 0)%Z
  | JFloat lit => negb (float_is_zero lit)
  | JStr s => negb (Nat.eqb (length s) 0)
  | JList l => negb (Nat.eqb (length l) 0)
  | JDict d => negb (Nat.eqb (length d) 0)
  end.

(** [a or b]. *)
Definition py_or (a b : json) : json := if truthy a then a else b.

(** [prefix + v] where [prefix] is a [str]: [v] must be a [str] too. *)
Definition str_add (prefix : str) (v : json) : result str :=
  match v with
  | JStr s => Ok (prefix ++ s)
  | _ => raise TypeError
  end.

(** [v == s] for a [str] literal [s]. *)
Definition eq_str (v : json) (s : str) : bool :=
  match v with
  | JStr x => str_eqb x s
  | _ => false
  end.

(** [s.split(sep)] for a one-character separator: never empty. *)
Fixpoint split (sep : codepoint) (s : str) : list str :=
  match s with
  | [] => [[]]
  | c :: r =>
    if c =? sep then [] :: split sep r
    else match split sep r with
         | [] => [[c]]
         | w :: ws => (c :: w) :: ws
         end
  end.

(** [v.split(";")]: only [str] has the method. *)
Definition method_split (v : json) (sep : codepoint) : result (list json) :=
  match v with
  | JStr s => Ok (map JStr (split sep s))
  | _ => raise AttributeError
  end.

(** [l[0]] on the list [split] returned. *)
Definition list_item0 (l : list json) : result json :=
  match l with
  | x :: _ => Ok x
  | [] => raise IndexError
  end.

(** ** [json.dumps] *)

(** Code points with a name in the program text. *)
Definition QUOTE : codepoint := 34.
Definition BACKSLASH : codepoint := 92.

Fixpoint str_of_uint (u : Decimal.uint) : str :=
  match u with
  | Decimal.Nil => []
  | Decimal.D0 r => 48 :: str_of_uint r
  | Decimal.D1 r => 49 :: str_of_uint r
  | Decimal.D2 r => 50 :: str_of_uint r
  | Decimal.D3 r => 51 :: str_of_uint r
  | Decimal.D4 r => 52 :: str_of_uint r
  | Decimal.D5 r => 53 :: str_of_uint r
  | Decimal.D6 r => 54 :: str_of_uint r
  | Decimal.D7 r => 55 :: str_of_uint r
  | Decimal.D8 r => 56 :: str_of_uint r
  | Decimal.D9 r => 57 :: str_of_uint r
  end.

(** [int.__repr__]. *)
Definition int_repr (z : Z) : str :=
  match z with
  | Z0 => [48]
  | Zpos p => str_of_uint (Pos.to_uint p)
  | Zneg p => 45 :: str_of_uint (Pos.to_uint p)
  end.

Definition hexdigit (n : N) : codepoint :=
  if n <? 10 then 48 + n else 87 + n.

(** ['\\u{0:04x}'.format(n)]. *)
Definition u_escape (n : N) : str :=
  [BACKSLASH; 117; hexdigit (n / 4096 mod 16); hexdigit (n / 256 mod 16);
   hexdigit (n / 16 mod 16); hexdigit (n mod 16)].

(** The replacement [encode_basestring_ascii] makes for one character:
    everything outside [' '..'~'], the quote and the backslash are
    escaped; a character beyond the BMP becomes a surrogate pair. *)
Definition escape_char (c : codepoint) : str :=
  if c =? BACKSLASH then [BACKSLASH; BACKSLASH]
  else if c =? QUOTE then [BACKSLASH; QUOTE]
  else if c =? 8 then [BACKSLASH; 98]
  else if c =? 12 then [BACKSLASH; 102]
  else if c =? 10 then [BACKSLASH; 110]
  else if c =? 13 then [BACKSLASH; 114]
  else if c =? 9 then [BACKSLASH; 116]
  else if (32 <=? c) && (c <=? 126) then [c]
  else if c <? 0x10000 then u_escape c
  else
    let n := c - 0x10000 in
    let s1 := N.lor 0xd800 (N.land (N.shiftr n 10) 0x3ff) in
    let s2 := N.lor 0xdc00 (N.land n 0x3ff) in
    u_escape s1 ++ u_escape s2.

Definition encode_basestring_ascii (s : str) : str :=
  QUOTE :: flat_map escape_char s ++ [QUOTE].

(** [sep.join(chunks)]. *)
Fixpoint join (sep : str) (chunks : list str) : str :=
  match chunks with
  | [] => []
  | [x] => x
  | x :: r => x ++ sep ++ join sep r
  end.

(** [json.dumps(v, separators=(item_sep, key_sep))], with the default
    [ensure_ascii=True]. *)
Fixpoint dumps_with (item_sep key_sep : str) (v : json) : str :=
  match v with
  | JNull => py "null"
  | JBool true => py "true"
  | JBool false => py "false"
  | JInt z => int_repr z
  | JFloat lit => lit
  | JStr s => encode_basestring_ascii s
  | JList l =>
    91 :: join item_sep (map (dumps_with item_sep key_sep) l) ++ [93]
  | JDict d =>
    123 :: join item_sep
             (map (fun kv => encode_basestring_ascii (fst kv) ++ key_sep
                             ++ dumps_with item_sep key_sep (snd kv)) d)
        ++ [125]
  end.

(** [json.dumps(v)]: the default separators are [", "] and [": "]. *)
Definition json_dumps (v : json) : str := dumps_with (py ", ") (py ": ") v.

(** [json.dumps(v, separators=(",", ":"))]. *)
Definition json_dumps_compact (v : json) : str := dumps_with (py ",") (py ":") v.

(** ** [json.loads] *)

Definition is_ws (c : codepoint) : bool :=
  (c =? 32) || (c =? 9) || (c =? 10) || (c =? 13).

Fixpoint skip_ws (s : str) : str :=
  match s with
  | [] => []
  | c :: r => if is_ws c then skip_ws r else s
  end.

(** [Some rest] when [s] is [prefix ++ rest]. *)
Fixpoint strip_prefix (prefix s : str) : option str :=
  match prefix, s with
  | [], _ => Some s
  | p :: prefix', c :: s' => if p =? c then strip_prefix prefix' s' else None
  | _ :: _, [] => None
  end.

Definition hexval (c : codepoint) : option N :=
  if is_digit c then Some (c - 48)
  else if (97 <=? c) && (c <=? 102) then Some (c - 87)
  else if (65 <=? c) && (c <=? 70) then Some (c - 55)
  else None.

(** The four hexadecimal digits of a [\uXXXX] escape. *)
Definition hex4 (a b c d : codepoint) : option N :=
  match hexval a, hexval b, hexval c, hexval d with
  | Some x, Some y, Some z, Some w => Some (((x * 16 + y) * 16 + z) * 16 + w)
  | _, _, _, _ => None
  end.

(** The [BACKSLASH] table of the decoder. *)
Definition unescape (e : codepoint) : option codepoint :=
  if e =? QUOTE then Some QUOTE
  else if e =? BACKSLASH then Some BACKSLASH
  else if e =? 47 then Some 47
  else if e =? 98 then Some 8
  else if e =? 102 then Some 12
  else if e =? 110 then Some 10
  else if e =? 114 then Some 13
  else if e =? 116 then Some 9
  else None.

Definition is_high_surrogate (c : N) : bool := (0xd800 <=? c) && (c <=? 0xdbff).
Definition is_low_surrogate (c : N) : bool := (0xdc00 <=? c) && (c <=? 0xdfff).

(** [scanstring], strict: [s] starts after the opening quote; the
    result is the decoded string and the text after the closing quote.
    [None] is a [JSONDecodeError]. *)
Fixpoint scanstring (s : str) (acc : str) : option (str * str) :=
  match s with
  | [] => None
  | c :: r =>
    if c =? QUOTE then Some (rev acc, r)
    else if c =? BACKSLASH then
      match r with
      | [] => None
      | e :: r1 =>
        if e =? 117 then
          match r1 with
          | h1 :: h2 :: h3 :: h4 :: r2 =>
            match hex4 h1 h2 h3 h4 with
            | None => None
            | Some uni =>
              if is_high_surrogate uni then
                match r2 with
                | b :: u :: g1 :: g2 :: g3 :: g4 :: r3 =>
                  if (b =? BACKSLASH) && (u =? 117) then
                    match hex4 g1 g2 g3 g4 with
                    | None => None
                    | Some uni2 =>
                      if is_low_surrogate uni2 then
                        scanstring r3
                          ((0x10000 + N.lor (N.shiftl (uni - 0xd800) 10)
                                            (uni2 - 0xdc00)) :: acc)
                      else scanstring r2 (uni :: acc)
                    end
                  else scanstring r2 (uni :: acc)
                | _ => scanstring r2 (uni :: acc)
                end
              else scanstring r2 (uni :: acc)
            end
          | _ => None
          end
        else
          match unescape e with
          | Some ch => scanstring r1 (ch :: acc)
          | None => None
          end
      end
    else if c <? 32 then None
    else scanstring r (c :: acc)
  end.

(** [int(text)] for a run of decimal digits with an optional sign. *)
Definition int_of_text (negative : bool) (digits : str) : Z :=
  let n := Z.of_N (digits_value 0 digits) in
  if negative then (- n)%Z else n.

(** The decoder's number pattern matched at the start of [s]: an
    optional minus, an integer part that is a single zero or starts with
    a non-zero digit, an optional fraction (a dot and at least one
    digit), an optional exponent (e or E, an optional sign, at least one
    digit).  The value is an [int] when neither the fraction nor the
    exponent is present, a [float] otherwise. *)
Definition match_number (s : str) : option (json * str) :=
  let (negative, s1) :=
    match s with
    | c :: r => if c =? 45 then (true, r) else (false, s)
    | [] => (false, s)
    end in
  match s1 with
  | [] => None
  | d :: r =>
    if is_digit d then
      let (integer, r1) :=
        if d =? 48 then ([d], r)
        else let (ds, r') := span_digits r in (d :: ds, r') in
      let (frac, r2) :=
        match r1 with
        | dot :: r' =>
          if dot =? 46 then
            match span_digits r' with
            | ([], _) => ([], r1)
            | (fs, r'') => (dot :: fs, r'')
            end
          else ([], r1)
        | [] => ([], r1)
        end in
      let (exponent, r3) :=
        match r2 with
        | e :: r' =>
          if (e =? 101) || (e =? 69) then
            let (sign, r'') :=
              match r' with
              | c :: t => if (c =? 43) || (c =? 45) then ([c], t) else ([], r')
              | [] => ([], r')
              end in
            match span_digits r'' with
            | ([], _) => ([], r2)
            | (es, r''') => (e :: sign ++ es, r''')
            end
          else ([], r2)
        | [] => ([], r2)
        end in
      match frac, exponent with
      | [], [] => Some (JInt (int_of_text negative integer), r3)
      | _, _ =>
        Some (JFloat ((if negative then [45] else []) ++ integer ++ frac
                      ++ exponent), r3)
      end
    else None
  end.

(** The outcome of scanning one value with bounded recursion. *)
Inductive scanned :=
| OutOfFuel
| NoParse                          (* JSONDecodeError *)
| Parsed (v : json) (rest : str).

Definition scan_literal (s : str) : scanned :=
  match strip_prefix (py "null") s with
  | Some rest => Parsed JNull rest
  | None =>
  match strip_prefix (py "true") s with
  | Some rest => Parsed (JBool true) rest
  | None =>
  match strip_prefix (py "false") s with
  | Some rest => Parsed (JBool false) rest
  | None =>
  match match_number s with
  | Some (v, rest) => Parsed v rest
  | None =>
  match strip_prefix (py "NaN") s with
  | Some rest => Parsed (JFloat (py "NaN")) rest
  | None =>
  match strip_prefix (py "Infinity") s with
  | Some rest => Parsed (JFloat (py "Infinity")) rest
  | None =>
  match strip_prefix (py "-Infinity") s with
  | Some rest => Parsed (JFloat (py "-Infinity")) rest
  | None => NoParse
  end end end end end end end.

(** [scan_once], with [JSONArray] ([scan_items]) and [JSONObject]
    ([scan_members], entered after the opening quote of a key). *)
Fixpoint scan_once (fuel : nat) (s : str) {struct fuel} : scanned :=
  match fuel with
  | O => OutOfFuel
  | S f =>
    match s with
    | [] => NoParse
    | c :: r =>
      if c =? QUOTE then
        match scanstring r [] with
        | Some (x, rest) => Parsed (JStr x) rest
        | None => NoParse
        end
      else if c =? 123 then
        match skip_ws r with
        | c' :: r' =>
          if c' =? 125 then Parsed (JDict []) r'
          else if c' =? QUOTE then scan_members f r' []
          else NoParse
        | [] => NoParse
        end
      else if c =? 91 then
        match skip_ws r with
        | c' :: r' =>
          if c' =? 93 then Parsed (JList []) r'
          else scan_items f (c' :: r') []
        | [] => NoParse
        end
      else scan_literal s
    end
  end

with scan_items (fuel : nat) (s : str) (acc : list json) {struct fuel}
  : scanned :=
  match fuel with
  | O => OutOfFuel
  | S f =>
    match scan_once f s with
    | Parsed v rest =>
      match skip_ws rest with
      | c :: r =>
        if c =? 93 then Parsed (JList (rev (v :: acc))) r
        else if c =? 44 then scan_items f (skip_ws r) (v :: acc)
        else NoParse
      | [] => NoParse
      end
    | other => other
    end
  end

with scan_members (fuel : nat) (s : str) (acc : list (str * json))
  {struct fuel} : scanned :=
  match fuel with
  | O => OutOfFuel
  | S f =>
    match scanstring s [] with
    | None => NoParse
    | Some (key, r) =>
      match skip_ws r with
      | c :: r1 =>
        if c =? 58 then
          match scan_once f (skip_ws r1) with
          | Parsed v rest =>
            match skip_ws rest with
            | c2 :: r2 =>
              if c2 =? 125
              then Parsed (JDict (dict_of_pairs (rev ((key, v) :: acc)))) r2
              else if c2 =? 44 then
                match skip_ws r2 with
                | q :: r3 =>
                  if q =? QUOTE then scan_members f r3 ((key, v) :: acc)
                  else NoParse
                | [] => NoParse
                end
              else NoParse
            | [] => NoParse
            end
          | other => other
          end
        else NoParse
      | [] => NoParse
      end
    end
  end.

(** [json.loads(s)] for a [str]: a leading BOM is refused, whitespace
    around the value is skipped, anything after it is "Extra data".
    The recursion bound is never reached ([scan_once_fuel] below). *)
Definition json_loads (s : str) : result json :=
  match s with
  | c :: _ => if c =? 0xFEFF then raise JSONDecodeError else
    let s0 := skip_ws s in
    match scan_once (S (2 * length s0)) s0 with
    | Parsed v rest =>
      match skip_ws rest with
      | [] => Ok v
      | _ :: _ => raise JSONDecodeError
      end
    | _ => raise JSONDecodeError
    end
  | [] => raise JSONDecodeError
  end.

(** ** The process: its state, its environment, what it emits *)

(** The environment: the platform, and for the n-th [Popen] whether the
    broker starts ([None]: [Popen] raises [OSError]) and what it writes
    to its combined output, until it exits, for the input it is given. *)
Record world := mkWorld {
  host : platform;
  broker_process : nat -> option (bytes -> bytes)
}.

Record state := mkState {
  stdin : bytes;            (* what sys.stdin.buffer still holds before EOF *)
  broker : option nat;      (* SsoMib.broker: the running Popen, if any *)
  spawned : nat;            (* how many times Popen was called *)
  iomutex : bool            (* whether the Lock is held *)
}.

Definition set_stdin (b : bytes) (st : state) : state :=
  mkState b (broker st) (spawned st) (iomutex st).

Definition set_broker (h : option nat) (st : state) : state :=
  mkState (stdin st) h (spawned st) (iomutex st).

Definition set_spawned (n : nat) (st : state) : state :=
  mkState (stdin st) (broker st) n (iomutex st).

Definition set_iomutex (held : bool) (st : state) : state :=
  mkState (stdin st) (broker st) (spawned st) held.

Inductive level := DEBUG | WARNING | ERROR.

(** What a log record appends to its fixed text: nothing, [str(x)] of
    a [bytes] or of a decoded JSON value, or a traceback. *)
Inductive logarg :=
| NoArg
| StrOfBytes (b : bytes)
| StrOfJson (v : json)
| Traceback (e : exception).

Inductive event :=
| EvAcquire                                  (* iomutex.acquire() *)
| EvRelease                                  (* iomutex.release() *)
| EvWrite (data : bytes)                     (* sys.stdout.buffer.write *)
| EvFlush                                    (* sys.stdout.buffer.flush *)
| EvStderr (line : str)                      (* print(..., file=sys.stderr) *)
| EvLog (lvl : level) (text : str) (arg : logarg)
| EvPopen (n : nat) (started : bool)
| EvBrokerInput (n : nat) (data : bytes).    (* Popen.communicate(input=...) *)

(** Computations: from a state to a result, the state left behind, and
    the events emitted on the way, oldest first. *)
Definition M (A : Type) : Type := state -> result A * state * list event.

Definition ret {A} (a : A) : M A := fun st => (Ok a, st, []).

Definition bind {A B} (m : M A) (f : A -> M B) : M B := fun st =>
  match m st with
  | (Ok a, st1, ev1) =>
    match f a st1 with
    | (r, st2, ev2) => (r, st2, ev1 ++ ev2)
    end
  | (Abort e, st1, ev1) => (Abort e, st1, ev1)
  end.

Declare Scope py_scope.
Delimit Scope py_scope with py.

Notation "x <- m ;; k" := (bind m (fun x => k))
  (at level 61, m at next level, right associativity) : py_scope.
Notation "m ;; k" := (bind m (fun _ => k))
  (at level 61, right associativity) : py_scope.

Local Open Scope py_scope.

(** A pure call that may raise. *)
Definition lift {A} (r : result A) : M A := fun st => (r, st, []).

Definition emit (e : event) : M unit := fun st => (Ok tt, st, [e]).

(** [try: body / except Exception: handler]. *)
Definition try_except {A} (body : M A) (handler : exception -> M A) : M A :=
  fun st =>
  match body st with
  | (Abort (Exc e), st1, ev1) =>
    match handler e st1 with
    | (r, st2, ev2) => (r, st2, ev1 ++ ev2)
    end
  | other => other
  end.

(** [with iomutex: body].  The lock is not reentrant; it is released on
    the way out, whether [body] returned or raised. *)
Definition with_iomutex {A} (body : M A) : M A := fun st =>
  if iomutex st then (Abort Deadlock, st, [])
  else
    match body (set_iomutex true st) with
    | (Abort Deadlock, st1, ev) => (Abort Deadlock, st1, EvAcquire :: ev)
    | (r, st1, ev) => (r, set_iomutex false st1, EvAcquire :: ev ++ [EvRelease])
    end.

(** [sys.exit(code)]. *)
Definition sys_exit {A} (code : Z) : M A := fun st =>
  (Abort (SystemExit code), st, []).

(** [sys.stdin.buffer.read(n)]: blocks until [n] bytes or end of file. *)
Definition stdin_read (n : N) : M bytes := fun st =>
  (Ok (firstn (N.to_nat n) (stdin st)),
   set_stdin (skipn (N.to_nat n) (stdin st)) st, []).

Definition stdout_write (data : bytes) : M unit := emit (EvWrite data).

Definition stdout_flush : M unit := emit EvFlush.

Definition log (lvl : level) (text : str) (arg : logarg) : M unit :=
  emit (EvLog lvl text arg).

(** [logging.debug(prefix + v)]. *)
Definition log_debug_add (prefix : str) (v : json) : M unit :=
  text <- lift (str_add prefix v) ;;
  log DEBUG text NoArg.

(** ** Module constants *)

Definition LINUX_ENTRA_SSO_VERSION : str := py "0.0.0-dev".

Definition SSO_URL_DEFAULT : str := py "https://login.microsoftonline.com/".

(** ** class NativeMessaging *)

(** The dict [{"length": ..., "content": ...}] of [encode_message]. *)
Record encoded_message := mkEncoded {
  enc_length : bytes;
  enc_content : bytes
}.

Section Program.

Variable w : world.

(** Read a message from stdin and decode it. *)
Definition get_message : M json :=
  raw_length <- stdin_read 4 ;;
  match raw_length with
  | [] => sys_exit 0
  | _ :: _ =>
    message_length <- lift (unpack_I (host w) raw_length) ;;
    raw <- stdin_read message_length ;;
    message <- lift (utf8_decode raw) ;;
    lift (json_loads message)
  end.

(** Encode a message for transmission, given its content. *)
Definition encode_message (message_content : json) : result encoded_message :=
  rbind (utf8_encode (json_dumps_compact message_content))
    (fun encoded_content =>
  rbind (pack_I (host w) (N.of_nat (length encoded_content)))
    (fun encoded_length =>
  Ok (mkEncoded encoded_length encoded_content))).

(** Send an encoded message to stdout. *)
Definition send_message (encoded : encoded_message) : M unit :=
  stdout_write (enc_length encoded) ;;
  stdout_write (enc_content encoded) ;;
  stdout_flush.

(** ** class SsoMib *)

Definition GRAPH_SCOPES : json := JList [JStr (py "https://graph.microsoft.com/.default")].

(** [Popen([BROKER_NAME, BROKER_PARAM, '--parent-window=0'], ...)],
    unless a broker is already held. *)
Definition _introspect_broker : M unit := fun st =>
  match broker st with
  | Some _ => (Ok tt, st, [])
  | None =>
    let n := spawned st in
    match broker_process w n with
    | Some _ =>
      (Ok tt, set_broker (Some n) (set_spawned (S n) st), [EvPopen n true])
    | None =>
      (raise OSError, set_spawned (S n) st, [EvPopen n false])
    end
  end.

(** [SsoMib.__init__(daemon)]: [self.broker] starts as [None] (see
    [initial]); the session id and the callback slot are never read. *)
Definition SsoMib_init (daemon : bool) : M unit :=
  if daemon then _introspect_broker else ret tt.

(** [self.broker.communicate(input=data)[0]]. *)
Definition broker_communicate (data : bytes) : M bytes := fun st =>
  match broker st with
  | None => (raise AttributeError, st, [])
  | Some n =>
    match broker_process w n with
    | Some run => (Ok (run data), st, [EvBrokerInput n data])
    | None => (raise OSError, st, [EvBrokerInput n data])
    end
  end.

(** [bytes.strip()]: ASCII whitespace off both ends. *)
Definition is_bytes_space (b : byte) : bool :=
  let x := Byte.to_N b in
  ((9 <=? x) && (x <=? 13)) || (x =? 32).

Fixpoint bytes_lstrip (b : bytes) : bytes :=
  match b with
  | [] => []
  | x :: r => if is_bytes_space x then bytes_lstrip r else b
  end.

Definition bytes_strip (b : bytes) : bytes :=
  rev (bytes_lstrip (rev (bytes_lstrip b))).

Definition _communicate (msg : json) : M json :=
  let msg := json_dumps msg in
  msg <- lift (utf8_encode msg) ;;
  size <- lift (pack_L (host w) (N.of_nat (length msg))) ;;
  stdout <- broker_communicate (size ++ msg) ;;
  (fun st => (Ok tt, set_broker None st, [])) ;;
  log DEBUG (py "rcvd raw: ") (StrOfBytes stdout) ;;
  resp <- lift (utf8_decode (skipn 4 (bytes_strip stdout))) ;;
  lift (json_loads resp).

Definition get_accounts : json :=
  JDict [(py "accounts",
          JList [JDict [(py "name", JStr (py "Windows User"));
                        (py "username", JStr (py "windows_user"))]])].

Definition acquire_prt_sso_cookie (account sso_url : json) : M json :=
  log_debug_add (py "acquire for ") sso_url ;;
  _introspect_broker ;;
  let request :=
    JDict [(py "method", JStr (py "GetCookies"));
           (py "sender", JStr (py "https://login.microsoftonline.com/"));
           (py "uri", sso_url)] in
  resp <- _communicate request ;;
  log DEBUG (py "acquire cookie resp: ") (StrOfJson resp) ;;
  cookies <- lift (getitem resp (py "response")) ;;
  count <- lift (len cookies) ;;
  (if 1 <? count
   then log WARNING (py "got multiple cookies: ") (StrOfJson resp)
   else ret tt) ;;
  cookies <- lift (getitem resp (py "response")) ;;
  resp <- lift (getitem0 cookies) ;;
  name <- lift (getitem resp (py "name")) ;;
  data <- lift (getitem resp (py "data")) ;;
  parts <- lift (method_split data 59) ;;
  content <- lift (list_item0 parts) ;;
  let resp := JDict [(py "cookieName", name); (py "cookieContent", content)] in
  log DEBUG (py "send response: ") (StrOfJson resp) ;;
  ret resp.

Definition acquire_token_silently (account scopes : json) : json :=
  JDict [(py "error", JStr (py "not implemented"))].

Definition get_broker_version : json :=
  JDict [(py "linuxBrokerVersion", JInt (-1));
         (py "native", JStr LINUX_ENTRA_SSO_VERSION)].

(** ** run_as_native_messaging *)

Definition processing_error : json :=
  JDict [(py "error", JStr (py "Failure during request processing"))].

Definition respond (command message : json) : M unit :=
  log_debug_add (py "send_message ") command ;;
  encoded <- lift (encode_message
                     (JDict [(py "command", command); (py "message", message)])) ;;
  send_message encoded.

Definition notify_state_change (online : bool) : M unit :=
  with_iomutex
    (respond (JStr (py "brokerStateChanged"))
             (JStr (if online then py "online" else py "offline"))).

Definition handle_command (cmd received_message : json) : M unit :=
  log_debug_add (py "handle ") cmd ;;
  if eq_str cmd (py "acquirePrtSsoCookie") then
    account <- lift (getitem received_message (py "account")) ;;
    given <- lift (getitem received_message (py "ssoUrl")) ;;
    let sso_url := py_or given (JStr SSO_URL_DEFAULT) in
    token <- acquire_prt_sso_cookie account sso_url ;;
    respond cmd token
  else if eq_str cmd (py "acquireTokenSilently") then
    account <- lift (getitem received_message (py "account")) ;;
    given <- lift (dict_method_get received_message (py "scopes")) ;;
    let scopes := py_or given GRAPH_SCOPES in
    let token := acquire_token_silently account scopes in
    respond cmd token
  else if eq_str cmd (py "getAccounts") then
    respond cmd get_accounts
  else if eq_str cmd (py "getVersion") then
    respond cmd get_broker_version
  else ret tt.

(** The body of [while True]. *)
Definition session_step : M unit :=
  received_message <- get_message ;;
  with_iomutex
    (cmd <- lift (getitem received_message (py "command")) ;;
     log_debug_add (py "received cmd ") cmd ;;
     try_except
       (handle_command cmd received_message)
       (fun e =>
          log ERROR (py "processing error") (Traceback e) ;;
          respond cmd processing_error)).

(** How a run ended: the abort that left the loop, the last state, and
    everything emitted. *)
Definition ended : Type := abort * state * list event.

(** [while True: ...] unrolled at most [fuel] times; [None] when the
    loop is still running after that. *)
Fixpoint session_loop (fuel : nat) (st : state) : option ended :=
  match fuel with
  | O => None
  | S f =>
    match session_step st with
    | (Ok _, st1, ev1) =>
      match session_loop f st1 with
      | Some (why, st2, ev2) => Some (why, st2, ev1 ++ ev2)
      | None => None
      end
    | (Abort why, st1, ev1) => Some (why, st1, ev1)
    end
  end.

(** Everything before the loop: logging set-up, the two lines on
    stderr, [SsoMib(daemon=True)], the callback registration (the
    callback is stored and never called), the first notification. *)
Definition startup : M unit :=
  log DEBUG (py "run_as_native_messaging") NoArg ;;
  emit (EvStderr (py "Running as native messaging instance.")) ;;
  emit (EvStderr (py "For interactive mode, start with --interactive")) ;;
  SsoMib_init true ;;
  online <- (fun st => (Ok (match broker st with Some _ => true | None => false end),
                        st, [])) ;;
  notify_state_change online.

Definition run_as_native_messaging (fuel : nat) (st : state) : option ended :=
  match startup st with
  | (Ok _, st1, ev1) =>
    match session_loop fuel st1 with
    | Some (why, st2, ev2) => Some (why, st2, ev1 ++ ev2)
    | None => None
    end
  | (Abort why, st1, ev1) => Some (why, st1, ev1)
  end.

End Program.

(** The process as it starts, with [input] waiting on stdin. *)
Definition initial (input : bytes) : state := mkState input None 0 false.

(** What reached stdout. *)
Fixpoint stdout_of (evs : list event) : bytes :=
  match evs with
  | [] => []
  | EvWrite data :: r => data ++ stdout_of r
  | _ :: r => stdout_of r
  end.

(** ** Vocabulary of the properties *)

(** A Unicode scalar value: what a well-formed text is made of. *)
Definition is_scalar (c : codepoint) : bool :=
  (c <? 0x110000) && negb (is_surrogate c).

Definition str_ok (s : str) : bool := forallb is_scalar s.

Fixpoint distinct (keys : list str) : bool :=
  match keys with
  | [] => true
  | k :: r => negb (existsb (str_eqb k) r) && distinct r
  end.

(** The JSON values of the round-trip law: texts of scalar values, keys
    of a [dict] pairwise distinct, and no [float] (the model keeps a
    float as its literal, see [json]). *)
Fixpoint json_ok (v : json) : bool :=
  match v with
  | JNull | JBool _ | JInt _ => true
  | JFloat _ => false
  | JStr s => str_ok s
  | JList l => forallb json_ok l
  | JDict d =>
    forallb (fun kv => str_ok (fst kv) && json_ok (snd kv)) d
    && distinct (map fst d)
  end.

(** The commands [handle_command] has a branch for. *)
Definition recognized (c : str) : bool :=
  str_eqb c (py "acquirePrtSsoCookie")
  || str_eqb c (py "acquireTokenSilently")
  || str_eqb c (py "getAccounts")
  || str_eqb c (py "getVersion").

(** The bytes of a frame on the wire. *)
Definition frame_bytes (e : encoded_message) : bytes :=
  enc_length e ++ enc_content e.

(** ** Platforms and sample data for the examples *)

(** 64-bit Linux: little endian, [unsigned long] of eight bytes (LP64). *)
Definition linux_x86_64 : platform := mkPlatform LittleEndian 8.

(** 64-bit Windows: little endian, [unsigned long] of four bytes (LLP64). *)
Definition windows_x64 : platform := mkPlatform LittleEndian 4.

(** A broker that answers every request with a framed [resp]. *)
Definition framed_reply (resp : json) : bytes :=
  let content := map byte_of_N (json_dumps_compact resp) in
  le_bytes 4 (N.of_nat (length content)) ++ content.

Definition answering (p : platform) (resp : json) : world :=
  mkWorld p (fun _ => Some (fun _ => framed_reply resp)).

(** The frame the extension sends for [v], on a little-endian host. *)
Definition inbound (v : json) : bytes :=
  let content := map byte_of_N (json_dumps_compact v) in
  le_bytes 4 (N.of_nat (length content)) ++ content.

Definition x_anon_cookies : json :=
  JDict [(py "response",
          JList [JDict [(py "name", JStr (py "X-Anon"));
                        (py "data", JStr (py "abc123;Path=/;Secure"))]])].

(** A stream that ends inside a frame: the prefix announces five bytes
    of payload, two follow (the text [12]), then end of file. *)
Definition short_stream : bytes := [x05; x00; x00; x00; x31; x32].

(** What [get_message] hands to the decoders: the bytes after the
    four-byte prefix, as many as the prefix says or as many as there
    are before end of file. *)
Definition payload_read (n : N) (input : bytes) : bytes :=
  firstn (N.to_nat n) (skipn 4 input).

Definition after_frame (n : N) (input : bytes) : bytes :=
  skipn (N.to_nat n) (skipn 4 input).

(** [bytes.decode("utf-8")] then [json.loads]. *)
Definition decode_payload (payload : bytes) : result json :=
  rbind (utf8_decode payload) json_loads.

(** Events that touch neither stdout nor the lock. *)
Definition quiet (e : event) : bool :=
  match e with
  | EvAcquire | EvRelease | EvWrite _ | EvFlush => false
  | _ => true
  end.

(** A call that returns or raises an [Exception]: it neither exits the
    process nor blocks. *)
Definition only_raises {A} (r : result A) : Prop :=
  match r with
  | Abort (SystemExit _) | Abort Deadlock => False
  | _ => True
  end.

(** The three events of [send_message]. *)
Definition frame_events (e : encoded_message) : list event :=
  [EvWrite (enc_length e); EvWrite (enc_content e); EvFlush].

(** A computation that leaves stdin and the lock alone and emits only
    quiet events. *)
Definition silent {A} (m : M A) : Prop :=
  forall st r st1 ev, m st = (r, st1, ev) ->
    stdin st1 = stdin st /\ iomutex st1 = iomutex st
    /\ forallb quiet ev = true /\ only_raises r.

(** A computation that, besides quiet events, sends at most one frame,
    as its last action, and none at all when it raises. *)
Definition answers (p : platform) {A} (m : M A) : Prop :=
  forall st r st1 ev, m st = (r, st1, ev) ->
    stdin st1 = stdin st /\ iomutex st1 = iomutex st /\ only_raises r
    /\ (forallb quiet ev = true
        \/ (exists a, r = Ok a)
           /\ exists pre e,
                forallb quiet pre = true
                /\ pack_I p (N.of_nat (length (enc_content e))) = Ok (enc_length e)
                /\ ev = pre ++ frame_events e).

(** The envelope the loop sends when handling a command failed. *)
Definition error_envelope (c : str) : json :=
  JDict [(py "command", JStr c); (py "message", processing_error)].

(** A decoded message without a ["command"] entry: a [dict] that lacks
    the key, or a value that is not a [dict] at all. *)
Definition lacks_command (msg : json) : Prop :=
  match msg with
  | JDict d => dict_get d (py "command") = None
  | _ => True
  end.

(** The log records of one turn of the loop. *)
Definition log_received (c : str) : event :=
  EvLog DEBUG (py "received cmd " ++ c) NoArg.

Definition log_handle (c : str) : event :=
  EvLog DEBUG (py "handle " ++ c) NoArg.

Definition log_send (c : str) : event :=
  EvLog DEBUG (py "send_message " ++ c) NoArg.

Definition log_processing_error (e : exception) : event :=
  EvLog ERROR (py "processing error") (Traceback e).

(** What [session_loop] does after a turn that emitted [ev] and left
    the state [st]: it goes on from [st]. *)
Definition continues (w : world) (fuel : nat) (st : state) (ev : list event)
  : option ended :=
  match session_loop w fuel st with
  | Some (why, st2, ev2) => Some (why, st2, ev ++ ev2)
  | None => None
  end.

(** The request [acquire_prt_sso_cookie] builds for [sso_url]. *)
Definition cookie_request (sso_url : json) : json :=
  JDict [(py "method", JStr (py "GetCookies"));
         (py "sender", JStr (py "https://login.microsoftonline.com/"));
         (py "uri", sso_url)].

(** The part of [acquire_prt_sso_cookie] that follows [_communicate]:
    from the decoded reply to the cookie result. *)
Definition pick_cookie (resp : json) : M json :=
  (log DEBUG (py "acquire cookie resp: ") (StrOfJson resp) ;;
   cookies <- lift (getitem resp (py "response")) ;;
   count <- lift (len cookies) ;;
   (if 1 <? count
    then log WARNING (py "got multiple cookies: ") (StrOfJson resp)
    else ret tt) ;;
   cookies <- lift (getitem resp (py "response")) ;;
   resp <- lift (getitem0 cookies) ;;
   name <- lift (getitem resp (py "name")) ;;
   data <- lift (getitem resp (py "data")) ;;
   parts <- lift (method_split data 59) ;;
   content <- lift (list_item0 parts) ;;
   let resp := JDict [(py "cookieName", name); (py "cookieContent", content)] in
   log DEBUG (py "send response: ") (StrOfJson resp) ;;
   ret resp)%py.

(** The cookie result for a name and the content kept from [data]. *)
Definition cookie_result (name : json) (content : str) : json :=
  JDict [(py "cookieName", name); (py "cookieContent", JStr content)].

Definition log_reply (resp : json) : event :=
  EvLog DEBUG (py "acquire cookie resp: ") (StrOfJson resp).

Definition warn_multiple (resp : json) : event :=
  EvLog WARNING (py "got multiple cookies: ") (StrOfJson resp).

Definition log_result (v : json) : event :=
  EvLog DEBUG (py "send response: ") (StrOfJson v).

Definition log_acquire (u : str) : event :=
  EvLog DEBUG (py "acquire for " ++ u) NoArg.

(** The part of [s] before the first [sep], all of [s] when there is
    none. *)
Fixpoint before_first (sep : codepoint) (s : str) : str :=
  match s with
  | [] => []
  | c :: r => if c =? sep then [] else c :: before_first sep r
  end.

(** A process that already holds a started broker (the first one). *)
Definition with_broker : state := mkState [] (Some 0%nat) 1 false.

(** An [acquirePrtSsoCookie] request that has an account and no
    [ssoUrl] entry. *)
Definition request_without_sso_url : json :=
  JDict [(py "command", JStr (py "acquirePrtSsoCookie"));
         (py "account", JDict [(py "username", JStr (py "windows_user"))])].

(** The broker inputs of a trace. *)
Fixpoint broker_inputs (evs : list event) : list bytes :=
  match evs with
  | [] => []
  | EvBrokerInput _ data :: r => data :: broker_inputs r
  | _ :: r => broker_inputs r
  end.

(** The lock discipline of a trace.  [disciplined p held evs held']: read
    from a moment when the lock is [held], the trace [evs] takes the
    lock only when it is free, releases it only when it is held, and
    touches stdout only while it is held and then by a whole frame --
    the length prefix of the content, the content, the flush, with
    nothing in between; it ends with the lock [held']. *)
Inductive disciplined (p : platform) : bool -> list event -> bool -> Prop :=
| disc_done (held : bool) : disciplined p held [] held
| disc_quiet (held held' : bool) (e : event) (r : list event) :
    quiet e = true -> disciplined p held r held' ->
    disciplined p held (e :: r) held'
| disc_acquire (held' : bool) (r : list event) :
    disciplined p true r held' -> disciplined p false (EvAcquire :: r) held'
| disc_release (held' : bool) (r : list event) :
    disciplined p false r held' -> disciplined p true (EvRelease :: r) held'
| disc_frame (held' : bool) (e : encoded_message) (r : list event) :
    pack_I p (N.of_nat (length (enc_content e))) = Ok (enc_length e) ->
    disciplined p true r held' ->
    disciplined p true (frame_events e ++ r) held'.

(** ** Sample sessions *)

(** A 64-bit Linux host whose broker answers with the X-Anon cookie. *)
Definition sample_world : world := answering linux_x86_64 x_anon_cookies.

Definition version_request : json :=
  JDict [(py "command", JStr (py "getVersion"))].

(** The frame [encode_message] makes of [version_request]. *)
Definition version_frame : encoded_message :=
  mkEncoded (le_bytes 4 24) (map byte_of_N (json_dumps_compact version_request)).

(** A recognized command whose handling raises: no [account]. *)
Definition token_request_without_account : json :=
  JDict [(py "command", JStr (py "acquireTokenSilently"))].

Definition unknown_request : json :=
  JDict [(py "command", JStr (py "monitor"))].

Definition request_without_command : json :=
  JDict [(py "cmd", JStr (py "getVersion"))].

Definition no_cookies : json := JDict [(py "response", JList [])].

Definition two_cookies : json :=
  JDict [(py "response",
          JList [JDict [(py "name", JStr (py "first"));
                        (py "data", JStr (py "one;Path=/"))];
                 JDict [(py "name", JStr (py "second"));
                        (py "data", JStr (py "two"))]])].

(** The state [_communicate] leaves: the broker handle is dropped. *)
Definition after_call : state := mkState [] None 1 false.

(** A whole session: two requests, then end of file. *)
Definition sample_input : bytes :=
  inbound version_request ++ inbound unknown_request.

Definition sample_run : option ended :=
  Eval vm_compute in run_as_native_messaging sample_world 3 (initial sample_input).

(** ** Vocabulary of the decoder's round trip *)

Definition is_ascii (c : codepoint) : Prop := c < 128.

(** What may follow a value inside compact JSON text. *)
Definition delimited (rest : str) : Prop :=
  match rest with
  | [] => True
  | c :: _ => c = 44 \/ c = 93 \/ c = 125
  end.

Definition all_digits (s : str) : Prop := Forall (fun c => is_digit c = true) s.

Definition compact (v : json) : str := dumps_with [44] [58] v.

(** The first character of a dumped value: neither whitespace nor a
    closing bracket, so the decoder's look-ahead goes the right way. *)
Definition opens_value (s : str) : Prop :=
  exists c t, s = c :: t /\ is_ws c = false /\ c <> 93 /\ c <> 125.

(** One member of an object, after its opening quote. *)
Definition member_tail (kv : str * json) : str :=
  flat_map escape_char (fst kv) ++ QUOTE :: 58 :: compact (snd kv).

Definition member (kv : str * json) : str := QUOTE :: member_tail kv.

(** What the round trip of one value says, uniformly in the fuel. *)
Definition scans_back (v : json) : Prop :=
  exists f0, forall f rest, (f0 <= f)%nat -> delimited rest ->
    scan_once f (compact v ++ rest) = Parsed v rest.

(** ** run_interactive *)

(** [l[idx]] on a list, for any [int] index: negative indices count
    from the end, anything outside [-len, len) is an [IndexError]. *)
Definition list_index (l : list json) (idx : Z) : result json :=
  let n := Z.of_nat (length l) in
  let i := if (idx <? 0)%Z then (idx + n)%Z else idx in
  if ((0 <=? i) && (i <? n))%Z then
    match nth_error l (Z.to_nat i) with
    | Some x => Ok x
    | None => raise IndexError
    end
  else raise IndexError.

(** [obj[idx]] with an [int] index. *)
Definition getitem_int (obj : json) (idx : Z) : result json :=
  match obj with
  | JList l => list_index l idx
  | JStr s =>
    rmap JStr (let n := Z.of_nat (length s) in
               let i := if (idx <? 0)%Z then (idx + n)%Z else idx in
               if ((0 <=? i) && (i <? n))%Z then
                 match nth_error s (Z.to_nat i) with
                 | Some c => Ok [c]
                 | None => raise IndexError
                 end
               else raise IndexError)
  | JDict _ => raise KeyError
  | _ => raise TypeError
  end.

(** ['\n' + ' ' * (2 * level)]: the line break of [indent=2]. *)
Definition newline_indent (level : nat) : str := 10 :: repeat 32 (2 * level)%nat.

(** [json.dumps(v, indent=2)] at nesting depth [level]: the item
    separator is [","] followed by the line break, the key separator is
    [": "], empty containers stay on one line. *)
Fixpoint dumps_indent (level : nat) (v : json) : str :=
  match v with
  | JNull => py "null"
  | JBool true => py "true"
  | JBool false => py "false"
  | JInt z => int_repr z
  | JFloat lit => lit
  | JStr s => encode_basestring_ascii s
  | JList [] => py "[]"
  | JList l =>
    91 :: newline_indent (S level)
    ++ join (44 :: newline_indent (S level)) (map (dumps_indent (S level)) l)
    ++ newline_indent level ++ [93]
  | JDict [] => py "{}"
  | JDict d =>
    123 :: newline_indent (S level)
    ++ join (44 :: newline_indent (S level))
         (map (fun kv => encode_basestring_ascii (fst kv) ++ py ": "
                         ++ dumps_indent (S level) (snd kv)) d)
    ++ newline_indent level ++ [125]
  end.

(** Text written to [sys.stdout]: it reaches the buffer encoded. *)
Definition stdout_text (s : str) : M unit :=
  (b <- lift (utf8_encode s) ;; stdout_write b)%py.

(** [json.dump(v, indent=2, fp=sys.stdout)]. *)
Definition json_dump_stdout (v : json) : M unit := stdout_text (dumps_indent 0 v).

(** [print()]. *)
Definition print_newline : M unit := stdout_text [10].

(** What [parse_args] returns: [command] is one of [cli_choices],
    [account] an [int] (default 0), [ssoUrl] a [str] (default
    [SSO_URL_DEFAULT]). *)
Record arguments := mkArguments {
  arg_command : str;
  arg_account : Z;
  arg_ssoUrl : str
}.

Definition cli_choices : list str :=
  [py "getAccounts"; py "getVersion"; py "acquirePrtSsoCookie";
   py "acquireTokenSilently"; py "monitor"].

(** [f"invalid account index {idx}"]. *)
Definition invalid_account_index (idx : Z) : json :=
  JDict [(py "error", JStr (py "invalid account index " ++ int_repr idx))].

Definition _get_account (accounts : json) (idx : Z) : M json :=
  (fun st =>
     match (l <- lift (getitem accounts (py "accounts")) ;;
            lift (getitem_int l idx))%py st with
     | (Abort (Exc IndexError), st1, ev1) =>
       match (json_dump_stdout (invalid_account_index idx) ;;
              print_newline ;;
              sys_exit 1)%py st1 with
       | (r, st2, ev2) => (r, st2, ev1 ++ ev2)
       end
     | other => other
     end).

Definition run_interactive (w : world) (args : arguments) : M unit :=
  (SsoMib_init w false ;;
   let accounts := get_accounts in
   registered <- lift (getitem accounts (py "accounts")) ;;
   count <- lift (len registered) ;;
   (if count =? 0
    then emit (EvStderr (py "warning: no accounts registered."))
    else ret tt) ;;
   (if str_eqb (arg_command args) (py "getAccounts") then
      json_dump_stdout accounts
    else if str_eqb (arg_command args) (py "getVersion") then
      json_dump_stdout get_broker_version
    else if str_eqb (arg_command args) (py "acquirePrtSsoCookie") then
      account <- _get_account accounts (arg_account args) ;;
      cookie <- acquire_prt_sso_cookie w account (JStr (arg_ssoUrl args)) ;;
      json_dump_stdout cookie
    else if str_eqb (arg_command args) (py "acquireTokenSilently") then
      account <- _get_account accounts (arg_account args) ;;
      let token := acquire_token_silently account GRAPH_SCOPES in
      json_dump_stdout token
    else ret tt) ;;
   print_newline)%py.

(** ** Vocabulary of the session properties *)

(** The dict [respond] encodes: [{"command": c, "message": m}]. *)
Definition envelope (c : str) (m : json) : json :=
  JDict [(py "command", JStr c); (py "message", m)].

(** The first notification. *)
Definition greeting : json := envelope (py "brokerStateChanged") (JStr (py "online")).

(** A computation that, when it returns, has sent one frame as its last
    action: an envelope for the command [c]. *)
Definition replies_to (w : world) (c : str) {A} (m : M A) : Prop :=
  forall st r st1 ev, m st = (r, st1, ev) ->
    match r with
    | Ok _ =>
      exists message enc pre,
        encode_message w (envelope c message) = Ok enc
        /\ forallb quiet pre = true
        /\ ev = pre ++ frame_events enc
    | Abort _ => True
    end.

(** [bs] is the frames of the values [vs], one after the other. *)
Definition frames_for (w : world) (vs : list json) (bs : bytes) : Prop :=
  exists encs,
    Forall2 (fun v e => encode_message w v = Ok e) vs encs
    /\ bs = concat (map frame_bytes encs).

(** A request the loop takes: a JSON value whose command is a string. *)
Definition request_ok (v : json) : Prop :=
  json_ok v = true
  /\ exists c, getitem v (py "command") = Ok (JStr c).

(** The replies to a sequence of requests: an envelope with the command
    of the request for each request with one of the four commands, in
    the order of the requests, and nothing for the others. *)
Inductive replies_for : list json -> list json -> Prop :=
| replies_done : replies_for [] []
| replies_answer (req : json) (reqs : list json) (c : str) (message : json)
                 (replies : list json) :
    getitem req (py "command") = Ok (JStr c) -> recognized c = true ->
    replies_for reqs replies ->
    replies_for (req :: reqs) (envelope c message :: replies)
| replies_skip (req : json) (reqs : list json) (c : str)
               (replies : list json) :
    getitem req (py "command") = Ok (JStr c) -> recognized c = false ->
    replies_for reqs replies ->
    replies_for (req :: reqs) replies.

(** The events of a turn of the loop around what handling emitted. *)
Definition turn_events (c : str) (ev : list event) : list event :=
  EvAcquire :: log_received c :: ev ++ [EvRelease].

(** Three requests in a row: one that is answered, one with a command
    the loop does not know, one that fails while it is handled. *)
Definition three_requests : list json :=
  [version_request; unknown_request; token_request_without_account].

Definition three_frames : bytes := concat (map inbound three_requests).

(** ** Vocabulary of the command properties *)

(** What [acquire_token_silently] returns. *)
Definition not_implemented : json :=
  JDict [(py "error", JStr (py "not implemented"))].

Definition is_str (v : json) : bool :=
  match v with
  | JStr _ => true
  | _ => false
  end.

(** What a turn emits when the handler goes straight to [respond]. *)
Definition direct_reply (c : str) (enc : encoded_message) : list event :=
  [log_handle c; log_send c] ++ frame_events enc.

(** An [acquirePrtSsoCookie] request with the given account and URL. *)
Definition cookie_request_for (account sso_url : json) : json :=
  JDict [(py "command", JStr (py "acquirePrtSsoCookie"));
         (py "account", account);
         (py "ssoUrl", sso_url)].

Definition windows_user : json :=
  JDict [(py "name", JStr (py "Windows User"));
         (py "username", JStr (py "windows_user"))].

Definition other_user : json := JDict [(py "username", JStr (py "somebody"))].

(** ** Vocabulary of the broker's reply *)

(** [stdout.strip()[4:]]: what [_communicate] decodes of a reply. *)
Definition reply_payload (stdout : bytes) : bytes := skipn 4 (bytes_strip stdout).

Definition all_space (b : bytes) : bool := forallb is_bytes_space b.

(** The first byte is there and is not whitespace. *)
Definition starts_with_data (b : bytes) : bool :=
  match b with
  | [] => false
  | x :: _ => negb (is_bytes_space x)
  end.

(** A broker that puts four bytes that are no length before the JSON
    text and a line end after it. *)
Definition sloppy_reply : bytes :=
  [xff; xff; xff; xff] ++ map byte_of_N (json_dumps_compact x_anon_cookies)
  ++ [x0d; x0a].

Definition sloppy_world : world :=
  mkWorld linux_x86_64 (fun _ => Some (fun _ => sloppy_reply)).

(** A reply of 32 bytes of JSON: its little-endian length prefix starts
    with the byte of a space. *)
Definition denied : json :=
  JDict [(py "response", JList []); (py "error", JStr (py "denied"))].

Definition denied_world : world := answering linux_x86_64 denied.

(** ** Vocabulary of the end of a run *)

(** The ways the native-messaging process can end. *)
Definition exit_reasons : list abort :=
  [SystemExit 0; Exc OSError; Exc StructError; Exc UnicodeDecodeError;
   Exc JSONDecodeError; Exc KeyError; Exc TypeError].

(** The body of [with iomutex:] in the loop, for a received message. *)
Definition turn (w : world) (received_message : json) : M unit :=
  (cmd <- lift (getitem received_message (py "command")) ;;
   log_debug_add (py "received cmd ") cmd ;;
   try_except
     (handle_command w cmd received_message)
     (fun e =>
        log ERROR (py "processing error") (Traceback e) ;;
        respond w cmd processing_error))%py.

(** ** Vocabulary of the broker's life *)

(** The processes that were given input, in the order of the trace. *)
Fixpoint input_handles (evs : list event) : list nat :=
  match evs with
  | [] => []
  | EvBrokerInput n _ :: r => n :: input_handles r
  | _ :: r => input_handles r
  end.

(** The events of a run that ended. *)
Definition trace_of (o : option ended) : list event :=
  match o with
  | Some (_, _, evs) => evs
  | None => []
  end.

(** [self.broker], when set, is a process that [Popen] started. *)
Definition holds_live (w : world) (st : state) : Prop :=
  match broker st with
  | Some n => (n < spawned st)%nat /\ broker_process w n <> None
  | None => True
  end.

(** The least process number that can still be given input: the
    process held, or else the next one [Popen] will start. *)
Definition fresh (st : state) : nat :=
  match broker st with
  | Some n => n
  | None => spawned st
  end.

(** [l] increases strictly, from [a] or above, and stays below [b]. *)
Fixpoint climbs (a : nat) (l : list nat) (b : nat) : Prop :=
  match l with
  | [] => (a <= b)%nat
  | h :: r => (a <= h)%nat /\ climbs (S h) r b
  end.

(** A computation that gives input only to processes not used before,
    in increasing order, and leaves none behind that was used. *)
Definition orderly (w : world) {A} (m : M A) : Prop :=
  forall st r st1 ev,
    holds_live w st -> m st = (r, st1, ev) ->
    holds_live w st1 /\ climbs (fresh st) (input_handles ev) (fresh st1).

(** Two cookie requests in a row. *)
Definition two_cookie_requests : bytes :=
  inbound (cookie_request_for windows_user (JStr SSO_URL_DEFAULT))
  ++ inbound (cookie_request_for other_user (JStr (py "https://example.org/"))).

(** ** Vocabulary of the interactive mode *)

Definition no_broker_event (e : event) : bool :=
  match e with
  | EvPopen _ _ | EvBrokerInput _ _ => false
  | _ => true
  end.

(** A computation that leaves the whole state as it is and has nothing
    to do with a broker. *)
Definition untouched {A} (m : M A) : Prop :=
  forall st r st1 ev, m st = (r, st1, ev) ->
    st1 = st /\ forallb no_broker_event ev = true.

(** The text [json.dump] prints for an invalid account index. *)
Definition invalid_account_text (idx : Z) : str :=
  [123; 10; 32; 32; QUOTE] ++ py "error" ++ [QUOTE] ++ py ": "
  ++ [QUOTE] ++ py "invalid account index " ++ int_repr idx
  ++ [QUOTE; 10; 125].

(** [-len(l) <= idx < len(l)]. *)
Definition index_in_range (l : list json) (idx : Z) : bool :=
  ((- Z.of_nat (length l) <=? idx) && (idx <? Z.of_nat (length l)))%Z.

(** What the interactive mode writes and how it ends when the account
    index is out of range. *)
Definition invalid_account_exit (idx : Z) (st : state)
  : result json * state * list event :=
  (Abort (SystemExit 1), st,
   [EvWrite (map byte_of_N (invalid_account_text idx)); EvWrite [x0a]]).


(** [idx] selects the one built-in account: [0] or [-1]. *)
Definition selects_builtin (idx : Z) : bool := ((idx =? 0) || (idx =? -1))%Z.

(** What the interactive mode prints for a value: [json.dump] with
    [indent=2], then the line end of [print()]. *)
Definition printed (v : json) : list event :=
  [EvWrite (map byte_of_N (dumps_indent 0 v)); EvWrite [x0a]].


(** ** Vocabulary of the cookie request *)

(** [received_message["ssoUrl"] or SSO_URL_DEFAULT] for a value that is
    a string or falsy: the string itself unless it is empty. *)
Definition chosen_url (given : json) : str :=
  match given with
  | JStr (c :: s) => c :: s
  | _ => SSO_URL_DEFAULT
  end.

(** The four bytes [struct.pack("@I", n)] makes of [n]. *)
Definition length_prefix (p : platform) (n : N) : bytes :=
  match native_order p with
  | LittleEndian => le_bytes 4 n
  | BigEndian => rev (le_bytes 4 n)
  end.

Definition is_ascii_byte (b : byte) : Prop := Byte.to_N b < 128.

(** A request whose command is a number. *)
Definition numeric_command : json := JDict [(py "command", JInt 1)].

(** A text with a character outside ASCII: [né]. *)
Definition accented : json := JStr [110; 233].

(** * Properties *)

(** ** Strings and bytes *)

Lemma str_eqb_eq (a b : str) : str_eqb a b = true <-> a = b.
Proof.
  revert b; induction a as [|x a IH]; intros [|y b]; simpl; split;
    try congruence; try reflexivity.
  - intros H. apply andb_true_iff in H as [Hx Ha].
    apply N.eqb_eq in Hx. apply IH in Ha. congruence.
  - intros H. injection H as -> ->.
    rewrite N.eqb_refl. simpl. now apply IH.
Qed.

Lemma str_eqb_refl (a : str) : str_eqb a a = true.
Proof. now apply str_eqb_eq. Qed.

Lemma str_eqb_neq (a b : str) : str_eqb a b = false <-> a <> b.
Proof.
  split.
  - intros H E. apply str_eqb_eq in E. congruence.
  - intros H. destruct (str_eqb a b) eqn:E; [|reflexivity].
    apply str_eqb_eq in E. contradiction.
Qed.

Lemma byte_of_N_value (n : N) : Byte.to_N (byte_of_N n) = n mod 256.
Proof.
  unfold byte_of_N.
  destruct (Byte.of_N (n mod 256)) eqn:E.
  - now apply Byte.to_of_N.
  - apply Byte.of_N_None_iff in E.
    pose proof (N.mod_upper_bound n 256). lia.
Qed.

Lemma byte_of_N_small (n : N) : n < 256 -> Byte.to_N (byte_of_N n) = n.
Proof. intros H. rewrite byte_of_N_value. now apply N.mod_small. Qed.

Lemma byte_of_to_N (b : byte) : byte_of_N (Byte.to_N b) = b.
Proof.
  unfold byte_of_N.
  pose proof (Byte.to_N_bounded b).
  rewrite N.mod_small by lia.
  now rewrite Byte.of_to_N.
Qed.

(** ** struct: packing and unpacking agree *)

Lemma length_le_bytes (size : nat) (n : N) : length (le_bytes size n) = size.
Proof. revert n; induction size; intros; simpl; auto. Qed.

Lemma le_value_le_bytes (size : nat) (n : N) :
  le_value (le_bytes size n) = n mod 2 ^ (8 * N.of_nat size).
Proof.
  revert n; induction size as [|k IH]; intros n.
  - simpl. now rewrite N.mod_1_r.
  - cbn [le_bytes le_value]. rewrite byte_of_N_value, IH.
    replace (8 * N.of_nat (S k)) with (8 + 8 * N.of_nat k) by lia.
    rewrite N.pow_add_r. change (2 ^ 8) with 256.
    rewrite N.Div0.mod_mul_r, N.Div0.mod_mod. reflexivity.
Qed.

Lemma pack_uint_length o size n b :
  pack_uint o size n = Ok b -> length b = size.
Proof.
  unfold pack_uint. destruct (n <? _); [|discriminate].
  intros H; injection H as <-.
  destruct o; [|rewrite length_rev]; apply length_le_bytes.
Qed.

Lemma pack_uint_fits o size n :
  n < 2 ^ (8 * N.of_nat size) -> exists b, pack_uint o size n = Ok b.
Proof.
  intros H. unfold pack_uint.
  apply N.ltb_lt in H. rewrite H. eauto.
Qed.

Lemma unpack_pack_uint o size n b :
  pack_uint o size n = Ok b -> unpack_uint o size b = Ok n.
Proof.
  intros H. pose proof (pack_uint_length _ _ _ _ H) as L.
  unfold pack_uint in H. destruct (n <? _) eqn:F; [|discriminate].
  apply N.ltb_lt in F. injection H as <-.
  unfold unpack_uint. rewrite L, Nat.eqb_refl. f_equal.
  destruct o; [|rewrite rev_involutive];
    rewrite le_value_le_bytes; now apply N.mod_small.
Qed.

(** ** UTF-8 on ASCII text *)

Lemma utf8_encode_ascii (s : str) :
  Forall is_ascii s -> utf8_encode s = Ok (map byte_of_N s).
Proof.
  induction 1 as [|c r Hc Hr IH]; [reflexivity|].
  cbn [utf8_encode map]. unfold utf8_encode_char.
  apply N.ltb_lt in Hc. rewrite Hc. cbn [rbind]. now rewrite IH.
Qed.

Lemma utf8_decode_ascii (s : str) :
  Forall is_ascii s -> utf8_decode (map byte_of_N s) = Ok s.
Proof.
  induction 1 as [|c r Hc Hr IH]; [reflexivity|].
  cbn [utf8_decode map]. unfold is_ascii in Hc.
  rewrite byte_of_N_small by lia.
  apply N.ltb_lt in Hc. rewrite Hc, IH. reflexivity.
Qed.

(** ** Induction over decoded JSON *)

Lemma json_ind (P : json -> Prop) :
  P JNull ->
  (forall b, P (JBool b)) ->
  (forall z, P (JInt z)) ->
  (forall lit, P (JFloat lit)) ->
  (forall s, P (JStr s)) ->
  (forall l, Forall P l -> P (JList l)) ->
  (forall d, Forall (fun kv => P (snd kv)) d -> P (JDict d)) ->
  forall v, P v.
Proof.
  intros Hn Hb Hz Hf Hs Hl Hd.
  fix IH 1. intros [ | b | z | lit | s | l | d].
  - exact Hn.
  - apply Hb.
  - apply Hz.
  - apply Hf.
  - apply Hs.
  - apply Hl.
    exact ((fix go (l : list json) : Forall P l :=
              match l with
              | [] => Forall_nil P
              | x :: r => Forall_cons x (IH x) (go r)
              end) l).
  - apply Hd.
    exact ((fix go (d : list (str * json))
              : Forall (fun kv => P (snd kv)) d :=
              match d with
              | [] => Forall_nil _
              | kv :: r => Forall_cons kv (IH (snd kv)) (go r)
              end) d).
Qed.

(** ** Strings: [scanstring] undoes [encode_basestring_ascii] *)

Local Ltac Zify.zify_post_hook ::= Z.to_euclidean_division_equations.

Lemma hexval_hexdigit (d : N) : d < 16 -> hexval (hexdigit d) = Some d.
Proof.
  intros H. unfold hexdigit, hexval, is_digit.
  destruct (d <? 10) eqn:E.
  - apply N.ltb_lt in E.
    replace (48 <=? 48 + d) with true by (symmetry; apply N.leb_le; lia).
    replace (48 + d <=? 57) with true by (symmetry; apply N.leb_le; lia).
    cbn [andb]. f_equal. lia.
  - apply N.ltb_ge in E.
    replace (48 <=? 87 + d) with true by (symmetry; apply N.leb_le; lia).
    replace (87 + d <=? 57) with false by (symmetry; apply N.leb_gt; lia).
    replace (97 <=? 87 + d) with true by (symmetry; apply N.leb_le; lia).
    replace (87 + d <=? 102) with true by (symmetry; apply N.leb_le; lia).
    cbn [andb]. f_equal. lia.
Qed.

Lemma hex4_digits (n : N) :
  n < 65536 ->
  hex4 (hexdigit (n / 4096 mod 16)) (hexdigit (n / 256 mod 16))
       (hexdigit (n / 16 mod 16)) (hexdigit (n mod 16)) = Some n.
Proof.
  intros H. unfold hex4.
  rewrite !hexval_hexdigit by (apply N.mod_upper_bound; discriminate).
  f_equal. lia.
Qed.

Lemma scanstring_plain (c : codepoint) (t acc : str) :
  c <> QUOTE -> c <> BACKSLASH -> 32 <= c ->
  scanstring (c :: t) acc = scanstring t (c :: acc).
Proof.
  intros Hq Hb Hc. cbn [scanstring].
  apply N.eqb_neq in Hq, Hb. rewrite Hq, Hb.
  replace (c <? 32) with false by (symmetry; apply N.ltb_ge; lia).
  reflexivity.
Qed.

Lemma scanstring_escape (e ch : codepoint) (t acc : str) :
  e <> 117 -> unescape e = Some ch ->
  scanstring (BACKSLASH :: e :: t) acc = scanstring t (ch :: acc).
Proof.
  intros He Hu. cbn [scanstring].
  change (BACKSLASH =? QUOTE) with false.
  change (BACKSLASH =? BACKSLASH) with true. cbv iota.
  apply N.eqb_neq in He. rewrite He, Hu. reflexivity.
Qed.

Lemma scanstring_u (h1 h2 h3 h4 : codepoint) (uni : N) (t acc : str) :
  hex4 h1 h2 h3 h4 = Some uni -> is_high_surrogate uni = false ->
  scanstring (BACKSLASH :: 117 :: h1 :: h2 :: h3 :: h4 :: t) acc
  = scanstring t (uni :: acc).
Proof.
  intros Hh Hs. cbn [scanstring].
  change (BACKSLASH =? QUOTE) with false.
  change (BACKSLASH =? BACKSLASH) with true.
  change (117 =? 117) with true. cbv iota.
  rewrite Hh, Hs. reflexivity.
Qed.

Lemma scanstring_pair (h1 h2 h3 h4 g1 g2 g3 g4 : codepoint) (u1 u2 : N)
      (t acc : str) :
  hex4 h1 h2 h3 h4 = Some u1 -> is_high_surrogate u1 = true ->
  hex4 g1 g2 g3 g4 = Some u2 -> is_low_surrogate u2 = true ->
  scanstring (BACKSLASH :: 117 :: h1 :: h2 :: h3 :: h4
              :: BACKSLASH :: 117 :: g1 :: g2 :: g3 :: g4 :: t) acc
  = scanstring t
      ((0x10000 + N.lor (N.shiftl (u1 - 0xd800) 10) (u2 - 0xdc00)) :: acc).
Proof.
  intros Hh Hs Hg Hl.
  cbn [scanstring].
  change (BACKSLASH =? QUOTE) with false.
  change (BACKSLASH =? BACKSLASH) with true.
  change (117 =? 117) with true. cbv iota.
  rewrite Hh, Hs. cbn [andb]. rewrite Hg, Hl. reflexivity.
Qed.

(** Bit operations of the surrogate arithmetic, as sums. *)
Lemma lor_disjoint (a b k : N) : b < 2 ^ k -> N.lor (a * 2 ^ k) b = a * 2 ^ k + b.
Proof.
  intros H.
  assert (D : N.land (a * 2 ^ k) b = 0).
  { apply N.bits_inj. intros i. rewrite N.land_spec, N.bits_0.
    destruct (N.lt_ge_cases i k) as [L|G].
    - rewrite N.mul_pow2_bits_low by exact L. reflexivity.
    - destruct (N.eq_dec b 0) as [->|Nz].
      + rewrite N.bits_0. apply andb_false_r.
      + rewrite (N.bits_above_log2 b i).
        * apply andb_false_r.
        * apply N.log2_lt_pow2 in H; [lia | lia]. }
  rewrite <- N.lxor_lor by exact D.
  symmetry. apply N.add_nocarry_lxor. exact D.
Qed.

Lemma surrogate_high (n : N) :
  n < 0x100000 ->
  N.lor 0xd800 (N.land (N.shiftr n 10) 0x3ff) = 0xd800 + n / 1024.
Proof.
  intros H.
  change 0x3ff with (N.ones 10). rewrite N.land_ones, N.shiftr_div_pow2.
  change (2 ^ 10) with 1024.
  rewrite N.mod_small by lia.
  change 0xd800 with (54 * 2 ^ 10). apply lor_disjoint.
  change (2 ^ 10) with 1024. lia.
Qed.

Lemma surrogate_low (n : N) :
  N.lor 0xdc00 (N.land n 0x3ff) = 0xdc00 + n mod 1024.
Proof.
  change 0x3ff with (N.ones 10). rewrite N.land_ones.
  change (2 ^ 10) with 1024.
  change 0xdc00 with (55 * 2 ^ 10). apply lor_disjoint.
  change (2 ^ 10) with 1024. lia.
Qed.

Lemma surrogate_join (n : N) :
  n < 0x100000 ->
  N.lor (N.shiftl (0xd800 + n / 1024 - 0xd800) 10)
        (0xdc00 + n mod 1024 - 0xdc00) = n.
Proof.
  intros H. rewrite N.shiftl_mul_pow2.
  replace (0xd800 + n / 1024 - 0xd800) with (n / 1024) by lia.
  replace (0xdc00 + n mod 1024 - 0xdc00) with (n mod 1024) by lia.
  rewrite lor_disjoint by (change (2 ^ 10) with 1024; lia).
  change (2 ^ 10) with 1024. lia.
Qed.

Lemma scanstring_escape_char (c : codepoint) (t acc : str) :
  is_scalar c = true ->
  scanstring (escape_char c ++ t) acc = scanstring t (c :: acc).
Proof.
  intros Hc. unfold is_scalar, is_surrogate in Hc.
  apply andb_true_iff in Hc as [Hmax Hsur].
  apply N.ltb_lt in Hmax. apply negb_true_iff in Hsur.
  unfold escape_char.
  destruct (N.eqb_spec c BACKSLASH) as [->|Hb];
    [now apply scanstring_escape|].
  destruct (N.eqb_spec c QUOTE) as [->|Hq];
    [now apply scanstring_escape|].
  destruct (N.eqb_spec c 8) as [->|H8]; [now apply scanstring_escape|].
  destruct (N.eqb_spec c 12) as [->|H12]; [now apply scanstring_escape|].
  destruct (N.eqb_spec c 10) as [->|H10]; [now apply scanstring_escape|].
  destruct (N.eqb_spec c 13) as [->|H13]; [now apply scanstring_escape|].
  destruct (N.eqb_spec c 9) as [->|H9]; [now apply scanstring_escape|].
  destruct (N.leb_spec 32 c) as [Hlo|Hlo]; cbn [andb].
  - destruct (N.leb_spec c 126) as [Hhi|Hhi].
    + cbn [app]. now apply scanstring_plain.
    + destruct (N.ltb_spec c 0x10000) as [Hbmp|Hbmp].
      * unfold u_escape. cbn [app].
        apply scanstring_u; [now apply hex4_digits|].
        unfold is_high_surrogate.
        apply andb_false_iff in Hsur as [F|F];
          [apply N.leb_gt in F | apply N.leb_gt in F].
        -- apply andb_false_iff. left. apply N.leb_gt. lia.
        -- apply andb_false_iff. right. apply N.leb_gt. lia.
      * rewrite surrogate_high, surrogate_low by lia.
        unfold u_escape. cbn [app].
        rewrite (scanstring_pair _ _ _ _ _ _ _ _
                   (0xd800 + (c - 0x10000) / 1024)
                   (0xdc00 + (c - 0x10000) mod 1024)).
        -- rewrite surrogate_join by lia.
           replace (65536 + (c - 65536)) with c by lia. reflexivity.
        -- apply hex4_digits. lia.
        -- unfold is_high_surrogate. apply andb_true_iff.
           split; apply N.leb_le; lia.
        -- apply hex4_digits. lia.
        -- unfold is_low_surrogate. apply andb_true_iff.
           split; apply N.leb_le; lia.
  - destruct (N.ltb_spec c 0x10000) as [Hbmp|Hbmp]; [|lia].
    unfold u_escape. cbn [app].
    apply scanstring_u; [now apply hex4_digits|].
    unfold is_high_surrogate. apply andb_false_iff. left. apply N.leb_gt. lia.
Qed.

Lemma scanstring_encoded (s : str) (rest acc : str) :
  str_ok s = true ->
  scanstring (flat_map escape_char s ++ QUOTE :: rest) acc
  = Some (rev acc ++ s, rest).
Proof.
  revert acc. induction s as [|c s IH]; intros acc Hs.
  - cbn [flat_map app scanstring].
    change (QUOTE =? QUOTE) with true. cbv iota.
    now rewrite app_nil_r.
  - cbn [str_ok forallb] in Hs. apply andb_true_iff in Hs as [Hc Hs].
    cbn [flat_map]. rewrite <- app_assoc.
    rewrite scanstring_escape_char by exact Hc.
    rewrite IH by exact Hs. cbn [rev]. now rewrite <- app_assoc.
Qed.

(** ** Integers: the number pattern undoes [int.__repr__] *)

Lemma str_of_uint_digits (u : Decimal.uint) : all_digits (str_of_uint u).
Proof. induction u; cbn [str_of_uint]; constructor; auto. Qed.

Lemma span_digits_app (ds rest : str) :
  all_digits ds -> delimited rest -> span_digits (ds ++ rest) = (ds, rest).
Proof.
  intros Hd Hr. induction Hd as [|c ds Hc Hds IH].
  - destruct rest as [|c r]; [reflexivity|].
    cbn [app span_digits]. cbn [delimited] in Hr.
    replace (is_digit c) with false; [reflexivity|].
    destruct Hr as [->|[->| ->]]; reflexivity.
  - cbn [app span_digits]. now rewrite Hc, IH.
Qed.

Lemma digits_value_acc (u : Decimal.uint) (acc : positive) :
  digits_value (Npos acc) (str_of_uint u) = Npos (Pos.of_uint_acc u acc).
Proof.
  revert acc. induction u; intros acc; cbn [str_of_uint digits_value Pos.of_uint_acc];
    [reflexivity | rewrite <- IHu; f_equal; lia ..].
Qed.

Lemma digits_value_uint (u : Decimal.uint) :
  digits_value 0 (str_of_uint u) = Pos.of_uint u.
Proof.
  induction u; cbn [str_of_uint digits_value Pos.of_uint];
    [reflexivity | exact IHu | apply (digits_value_acc u 1) | ..].
  all: match goal with
       | |- digits_value ?a _ = Npos (Pos.of_uint_acc _ ?p) =>
         change a with (Npos p); apply digits_value_acc
       end.
Qed.

Lemma to_uint_canonical (p : positive) :
  exists d ds, str_of_uint (Pos.to_uint p) = d :: ds
               /\ is_digit d = true /\ d <> 48.
Proof.
  pose proof (DecimalPos.Unsigned.to_of (Pos.to_uint p)) as Hn.
  rewrite DecimalPos.Unsigned.of_to in Hn. cbn [N.to_uint] in Hn.
  pose proof (DecimalPos.Unsigned.to_uint_nonzero p) as Hz.
  pose proof (DecimalPos.Unsigned.to_uint_nonnil p) as Hnil.
  destruct (Pos.to_uint p) as [|u|u|u|u|u|u|u|u|u|u] eqn:E;
    try (cbn [str_of_uint]; eexists _, _; split; [reflexivity|];
         split; [reflexivity | discriminate]).
  - contradiction.
  - exfalso. unfold Decimal.unorm in Hn. cbn [Decimal.nzhead] in Hn.
    pose proof (DecimalFacts.nb_digits_nzhead u) as Hlen.
    destruct (Decimal.nzhead u) eqn:F;
      [apply Hz; exact Hn
      | rewrite <- Hn in Hlen; cbn [Decimal.nb_digits] in Hlen; lia ..].
Qed.

Lemma delimited_no_fraction (rest : str) :
  delimited rest ->
  match rest with
  | dot :: r' =>
    if dot =? 46 then
      match span_digits r' with
      | ([], _) => (@nil codepoint, rest)
      | (fs, r'') => (dot :: fs, r'')
      end
    else ([], rest)
  | [] => ([], rest)
  end = ([], rest).
Proof.
  destruct rest as [|c r]; [reflexivity|]. cbn [delimited].
  intros [->|[->| ->]]; reflexivity.
Qed.

Lemma delimited_no_exponent (rest : str) :
  delimited rest ->
  match rest with
  | e :: r' =>
    if (e =? 101) || (e =? 69) then
      let (sign, r'') :=
        match r' with
        | c :: t => if (c =? 43) || (c =? 45) then ([c], t) else ([], r')
        | [] => ([], r')
        end in
      match span_digits r'' with
      | ([], _) => (@nil codepoint, rest)
      | (es, r''') => (e :: sign ++ es, r''')
      end
    else ([], rest)
  | [] => ([], rest)
  end = ([], rest).
Proof.
  destruct rest as [|c r]; [reflexivity|]. cbn [delimited].
  intros [->|[->| ->]]; reflexivity.
Qed.

Lemma match_number_digits (d : codepoint) (ds rest : str) :
  is_digit d = true -> (d = 48 -> ds = []) -> all_digits ds ->
  delimited rest ->
  match_number (d :: ds ++ rest)
  = Some (JInt (int_of_text false (d :: ds)), rest).
Proof.
  intros Hd Hz Hds Hr. unfold match_number.
  assert (H45 : (d =? 45) = false).
  { unfold is_digit in Hd. apply andb_true_iff in Hd as [Hd _].
    apply N.leb_le in Hd. apply N.eqb_neq. lia. }
  rewrite H45, Hd.
  destruct (N.eqb_spec d 48) as [E|E].
  - rewrite (Hz E). cbn [app].
    rewrite delimited_no_fraction, delimited_no_exponent by exact Hr.
    reflexivity.
  - rewrite span_digits_app by assumption.
    rewrite delimited_no_fraction, delimited_no_exponent by exact Hr.
    reflexivity.
Qed.

Lemma match_number_negative (d : codepoint) (ds rest : str) :
  is_digit d = true -> (d = 48 -> ds = []) -> all_digits ds ->
  delimited rest ->
  match_number (45 :: d :: ds ++ rest)
  = Some (JInt (int_of_text true (d :: ds)), rest).
Proof.
  intros Hd Hz Hds Hr. unfold match_number.
  change (45 =? 45) with true. cbv iota. rewrite Hd.
  destruct (N.eqb_spec d 48) as [E|E].
  - rewrite (Hz E). cbn [app].
    rewrite delimited_no_fraction, delimited_no_exponent by exact Hr.
    reflexivity.
  - rewrite span_digits_app by assumption.
    rewrite delimited_no_fraction, delimited_no_exponent by exact Hr.
    reflexivity.
Qed.

Lemma match_number_int_repr (z : Z) (rest : str) :
  delimited rest ->
  match_number (int_repr z ++ rest) = Some (JInt z, rest).
Proof.
  intros Hr. destruct z as [|p|p]; cbn [int_repr].
  - apply (match_number_digits 48 [] rest); auto. constructor.
  - destruct (to_uint_canonical p) as (d & ds & E & Hd & Hnz).
    pose proof (str_of_uint_digits (Pos.to_uint p)) as Hall.
    pose proof (digits_value_uint (Pos.to_uint p)) as Hv.
    rewrite DecimalPos.Unsigned.of_to in Hv.
    rewrite E in Hall, Hv |- *. cbn [app].
    rewrite match_number_digits; auto.
    + unfold int_of_text. now rewrite Hv.
    + intros; contradiction.
    + now inversion Hall.
  - destruct (to_uint_canonical p) as (d & ds & E & Hd & Hnz).
    pose proof (str_of_uint_digits (Pos.to_uint p)) as Hall.
    pose proof (digits_value_uint (Pos.to_uint p)) as Hv.
    rewrite DecimalPos.Unsigned.of_to in Hv.
    rewrite E in Hall, Hv |- *. cbn [app].
    rewrite match_number_negative; auto.
    + unfold int_of_text. now rewrite Hv.
    + intros; contradiction.
    + now inversion Hall.
Qed.

(** ** Dictionaries with distinct keys *)

Lemma existsb_str_eqb (k : str) (l : list str) :
  existsb (str_eqb k) l = false <-> ~ In k l.
Proof.
  induction l as [|x l IH]; cbn [existsb In].
  - tauto.
  - rewrite orb_false_iff, IH, str_eqb_neq. intuition congruence.
Qed.

Lemma distinct_NoDup (l : list str) : distinct l = true -> NoDup l.
Proof.
  induction l as [|k l IH]; cbn [distinct]; intros H.
  - constructor.
  - apply andb_true_iff in H as [Hk Hl]. apply negb_true_iff in Hk.
    constructor; [now apply existsb_str_eqb | auto].
Qed.

Lemma dict_set_fresh (d : list (str * json)) (k : str) (v : json) :
  ~ In k (map fst d) -> dict_set d k v = d ++ [(k, v)].
Proof.
  induction d as [|[k' v'] d IH]; cbn [dict_set map fst In app]; intros H.
  - reflexivity.
  - replace (str_eqb k' k) with false
      by (symmetry; apply str_eqb_neq; intuition).
    rewrite IH by intuition. reflexivity.
Qed.

Lemma dict_get_fresh (d : list (str * json)) (k : str) :
  ~ In k (map fst d) -> dict_get d k = None.
Proof.
  induction d as [|[k' v'] d IH]; cbn [dict_get map fst In]; intros H.
  - reflexivity.
  - replace (str_eqb k' k) with false
      by (symmetry; apply str_eqb_neq; intuition).
    apply IH. intuition.
Qed.

Lemma fold_dict_set (d2 d1 : list (str * json)) :
  NoDup (map fst (d1 ++ d2)) ->
  fold_left (fun d kv => dict_set d (fst kv) (snd kv)) d2 d1 = d1 ++ d2.
Proof.
  revert d1. induction d2 as [|[k v] d2 IH]; intros d1 H; cbn [fold_left].
  - now rewrite app_nil_r.
  - cbn [fst snd]. rewrite dict_set_fresh.
    + rewrite IH; rewrite <- app_assoc; [reflexivity | exact H].
    + rewrite map_app in H. cbn [map fst] in H.
      apply NoDup_remove_2 in H. intros F. apply H.
      apply in_or_app. now left.
Qed.

Lemma dict_of_pairs_distinct (d : list (str * json)) :
  distinct (map fst d) = true -> dict_of_pairs d = d.
Proof.
  intros H. unfold dict_of_pairs.
  apply (fold_dict_set d []). now apply distinct_NoDup.
Qed.

(** ** Values: [scan_once] undoes compact [json.dumps] *)

Lemma skip_ws_opens (s : str) : opens_value s -> skip_ws s = s.
Proof.
  intros (c & t & -> & Hws & _). cbn [skip_ws]. now rewrite Hws.
Qed.

Lemma skip_ws_delimiter (c : codepoint) (t : str) :
  is_ws c = false -> skip_ws (c :: t) = c :: t.
Proof. intros H. cbn [skip_ws]. now rewrite H. Qed.

Lemma opens_value_app (s t : str) : opens_value s -> opens_value (s ++ t).
Proof.
  intros (c & r & -> & H). exists c, (r ++ t). split; [reflexivity | exact H].
Qed.

Lemma digit_opens (d : codepoint) (r : str) :
  is_digit d = true -> opens_value (d :: r).
Proof.
  intros H. unfold is_digit in H. apply andb_true_iff in H as [Hlo Hhi].
  apply N.leb_le in Hlo, Hhi.
  exists d, r. split; [reflexivity|]. unfold is_ws.
  repeat split; try lia.
  repeat (apply orb_false_iff; split); apply N.eqb_neq; lia.
Qed.

Lemma int_repr_opens (z : Z) : opens_value (int_repr z).
Proof.
  destruct z as [|p|p]; cbn [int_repr].
  - now apply digit_opens.
  - destruct (to_uint_canonical p) as (d & ds & -> & Hd & _).
    now apply digit_opens.
  - exists 45, (str_of_uint (Pos.to_uint p)).
    repeat split; discriminate.
Qed.

Lemma compact_opens (v : json) : json_ok v = true -> opens_value (compact v).
Proof.
  destruct v as [ | [|] | z | lit | s | l | d]; cbn [json_ok]; intros H;
    try discriminate;
    try (eexists _, _; split; [reflexivity|]; repeat split; discriminate).
  apply int_repr_opens.
Qed.

Lemma strip_prefix_head (p c : codepoint) (ps t : str) :
  p <> c -> strip_prefix (p :: ps) (c :: t) = None.
Proof.
  intros H. cbn [strip_prefix]. apply N.eqb_neq in H. now rewrite H.
Qed.

Lemma scan_once_literal (f : nat) (c : codepoint) (t : str) :
  c <> QUOTE -> c <> 123 -> c <> 91 ->
  scan_once (S f) (c :: t) = scan_literal (c :: t).
Proof.
  intros Hq Ho Ha. cbn [scan_once].
  apply N.eqb_neq in Hq, Ho, Ha. now rewrite Hq, Ho, Ha.
Qed.

Lemma int_repr_head (z : Z) :
  exists c t, int_repr z = c :: t /\ (is_digit c = true \/ c = 45).
Proof.
  destruct z as [|p|p]; cbn [int_repr].
  - eexists _, _. split; [reflexivity|]. now left.
  - destruct (to_uint_canonical p) as (d & ds & -> & Hd & _).
    eexists _, _. split; [reflexivity|]. now left.
  - eexists _, _. split; [reflexivity|]. now right.
Qed.

Lemma scan_once_int (f : nat) (z : Z) (rest : str) :
  delimited rest ->
  scan_once (S f) (int_repr z ++ rest) = Parsed (JInt z) rest.
Proof.
  intros Hr. pose proof (match_number_int_repr z rest Hr) as Hm.
  destruct (int_repr_head z) as (c & t & E & Hc).
  rewrite E in Hm |- *. cbn [app] in Hm |- *.
  assert (Hrange : c = 45 \/ (48 <= c /\ c <= 57)).
  { destruct Hc as [Hc| ->]; [right | now left].
    unfold is_digit in Hc. apply andb_true_iff in Hc as [Hlo Hhi].
    apply N.leb_le in Hlo, Hhi. lia. }
  rewrite scan_once_literal by (unfold QUOTE; lia).
  unfold scan_literal.
  change (py "null") with [110; 117; 108; 108].
  change (py "true") with [116; 114; 117; 101].
  change (py "false") with [102; 97; 108; 115; 101].
  rewrite !strip_prefix_head by lia.
  now rewrite Hm.
Qed.

Lemma scan_once_str (f : nat) (s rest : str) :
  str_ok s = true ->
  scan_once (S f) (encode_basestring_ascii s ++ rest) = Parsed (JStr s) rest.
Proof.
  intros Hs. unfold encode_basestring_ascii.
  cbn [app scan_once]. change (QUOTE =? QUOTE) with true. cbv iota.
  rewrite <- app_assoc. cbn [app].
  now rewrite scanstring_encoded.
Qed.

Lemma compact_list (l : list json) :
  compact (JList l) = 91 :: join [44] (map compact l) ++ [93].
Proof. reflexivity. Qed.

Lemma compact_dict (d : list (str * json)) :
  compact (JDict d) = 123 :: join [44] (map member d) ++ [125].
Proof.
  unfold compact. cbn [dumps_with]. do 3 f_equal.
  apply map_ext. intros [k v]. unfold member, member_tail, encode_basestring_ascii.
  cbn [fst snd app]. rewrite <- app_assoc. reflexivity.
Qed.

Lemma compact_list_app (l : list json) (rest : str) :
  compact (JList l) ++ rest = 91 :: join [44] (map compact l) ++ 93 :: rest.
Proof.
  rewrite compact_list. cbn [app]. now rewrite <- app_assoc.
Qed.

Lemma compact_dict_app (d : list (str * json)) (rest : str) :
  compact (JDict d) ++ rest = 123 :: join [44] (map member d) ++ 125 :: rest.
Proof.
  rewrite compact_dict. cbn [app]. now rewrite <- app_assoc.
Qed.

Lemma join_more (sep x y : str) (r : list str) :
  join sep (x :: y :: r) = x ++ sep ++ join sep (y :: r).
Proof. reflexivity. Qed.

Lemma join_opens (sep x : str) (r : list str) :
  opens_value x -> opens_value (join sep (x :: r)).
Proof.
  intros H. destruct r; [exact H|]. rewrite join_more.
  now apply opens_value_app.
Qed.

Lemma join_members (kv kv2 : str * json) (d : list (str * json)) :
  join [44] (map member (kv :: kv2 :: d))
  = QUOTE :: member_tail kv ++ 44 :: join [44] (map member (kv2 :: d)).
Proof. reflexivity. Qed.

Lemma join_members_quote (kv : str * json) (d : list (str * json)) :
  exists t, join [44] (map member (kv :: d)) = QUOTE :: t.
Proof.
  destruct d as [|kv2 d].
  - now exists (member_tail kv).
  - rewrite join_members. eauto.
Qed.

Lemma scan_items_compact (l : list json) :
  Forall scans_back l -> forallb json_ok l = true -> l <> [] ->
  exists f0, forall f rest acc, (f0 <= f)%nat ->
    scan_items f (join [44] (map compact l) ++ 93 :: rest) acc
    = Parsed (JList (rev acc ++ l)) rest.
Proof.
  induction l as [|x l IH]; [contradiction|].
  intros Hall Hok _. inversion Hall as [|? ? [fx Hx] Hall']; subst.
  cbn [forallb] in Hok. apply andb_true_iff in Hok as [Hokx Hokl].
  destruct l as [|y l'].
  - exists (S fx). intros f rest acc Hf.
    destruct f as [|f]; [lia|]. cbn [map join scan_items].
    rewrite Hx by (cbn [delimited]; auto; lia).
    rewrite skip_ws_delimiter by reflexivity.
    change (93 =? 93) with true. cbv iota. reflexivity.
  - destruct (IH Hall' Hokl) as [fl Hl]; [discriminate|].
    exists (S (Nat.max fx fl)). intros f rest acc Hf.
    destruct f as [|f]; [lia|].
    cbn [map]. rewrite join_more. rewrite <- !app_assoc.
    cbn [scan_items app].
    rewrite Hx by (cbn [delimited]; auto; lia).
    rewrite skip_ws_delimiter by reflexivity.
    change (44 =? 93) with false. change (44 =? 44) with true. cbv iota.
    rewrite skip_ws_opens.
    + change (compact y :: map compact l') with (map compact (y :: l')).
      rewrite Hl by lia. cbn [rev]. now rewrite <- app_assoc.
    + apply opens_value_app. cbn [forallb] in Hokl.
      apply andb_true_iff in Hokl as [Hoky _].
      cbn [map]. apply join_opens. now apply compact_opens.
Qed.

Lemma scan_members_compact (d : list (str * json)) :
  Forall (fun kv => scans_back (snd kv)) d ->
  forallb (fun kv => str_ok (fst kv) && json_ok (snd kv)) d = true ->
  d <> [] ->
  exists f0, forall f rest acc, (f0 <= f)%nat ->
    scan_members f (tl (join [44] (map member d)) ++ 125 :: rest) acc
    = Parsed (JDict (dict_of_pairs (rev acc ++ d))) rest.
Proof.
  induction d as [|[k v] d IH]; [contradiction|].
  intros Hall Hok _. inversion Hall as [|? ? [fv Hv] Hall']; subst.
  cbn [forallb fst snd] in Hok. apply andb_true_iff in Hok as [Hokkv Hokd].
  apply andb_true_iff in Hokkv as [Hokk Hokv]. cbn [snd] in Hv.
  destruct d as [|kv2 d'].
  - exists (S fv). intros f rest acc Hf.
    destruct f as [|f]; [lia|].
    cbn [map join]. unfold member. cbn [tl].
    unfold member_tail. cbn [fst snd]. rewrite <- app_assoc. cbn [app].
    cbn [scan_members]. rewrite scanstring_encoded by exact Hokk.
    cbn [rev app]. rewrite skip_ws_delimiter by reflexivity.
    change (58 =? 58) with true. cbv iota.
    rewrite skip_ws_opens
      by (apply opens_value_app; now apply compact_opens).
    rewrite Hv by (cbn [delimited]; auto; lia).
    rewrite skip_ws_delimiter by reflexivity.
    change (125 =? 125) with true. cbv iota. reflexivity.
  - destruct (IH Hall' Hokd) as [fd Hd]; [discriminate|].
    exists (S (Nat.max fv fd)). intros f rest acc Hf.
    destruct f as [|f]; [lia|].
    rewrite join_members. cbn [tl].
    destruct (join_members_quote kv2 d') as [t2 J].
    rewrite J in Hd |- *. cbn [tl] in Hd.
    unfold member_tail. cbn [fst snd]. rewrite <- !app_assoc. cbn [app].
    cbn [scan_members]. rewrite scanstring_encoded by exact Hokk.
    cbn [rev app]. rewrite skip_ws_delimiter by reflexivity.
    change (58 =? 58) with true. cbv iota.
    rewrite skip_ws_opens
      by (apply opens_value_app; now apply compact_opens).
    rewrite Hv by (cbn [delimited]; auto; lia).
    rewrite skip_ws_delimiter by reflexivity.
    change (44 =? 125) with false. change (44 =? 44) with true. cbv iota.
    rewrite skip_ws_delimiter by reflexivity.
    change (QUOTE =? QUOTE) with true. cbv iota.
    rewrite Hd by lia.
    cbn [rev]. now rewrite <- app_assoc.
Qed.

Lemma scan_once_compact (v : json) : json_ok v = true -> scans_back v.
Proof.
  induction v as [ | b | z | lit | s | l IHl | d IHd] using json_ind;
    cbn [json_ok]; intros Hok.
  - exists 1%nat. intros [|f] rest Hf _; [lia | reflexivity].
  - exists 1%nat. intros [|f] rest Hf _; [lia | destruct b; reflexivity].
  - exists 1%nat. intros [|f] rest Hf Hr; [lia | now apply scan_once_int].
  - discriminate.
  - exists 1%nat. intros [|f] rest Hf _; [lia | now apply scan_once_str].
  - assert (Hall : Forall scans_back l).
    { apply Forall_forall. intros x Hx.
      rewrite Forall_forall in IHl. apply IHl; [exact Hx|].
      rewrite forallb_forall in Hok. now apply Hok. }
    destruct l as [|x l'].
    + exists 1%nat. intros [|f] rest Hf _; [lia | reflexivity].
    + destruct (scan_items_compact (x :: l') Hall Hok) as [fl Hl];
        [discriminate|].
      exists (S fl). intros [|f] rest Hf _; [lia|].
      rewrite compact_list_app.
      assert (Ho : opens_value (join [44] (map compact (x :: l')) ++ 93 :: rest)).
      { apply opens_value_app. cbn [forallb] in Hok.
        apply andb_true_iff in Hok as [Hokx _].
        cbn [map]. apply join_opens. now apply compact_opens. }
      cbn [scan_once].
      change (91 =? QUOTE) with false. change (91 =? 123) with false.
      change (91 =? 91) with true. cbv iota.
      rewrite (skip_ws_opens _ Ho).
      destruct Ho as (c & t & E & _ & Hc & _). rewrite E.
      apply N.eqb_neq in Hc. rewrite Hc. rewrite <- E.
      rewrite Hl by lia. reflexivity.
  - apply andb_true_iff in Hok as [Hok Hkeys].
    assert (Hall : Forall (fun kv => scans_back (snd kv)) d).
    { apply Forall_forall. intros kv Hkv.
      rewrite Forall_forall in IHd. apply IHd; [exact Hkv|].
      rewrite forallb_forall in Hok. specialize (Hok kv Hkv).
      now apply andb_true_iff in Hok as [_ Hok]. }
    destruct d as [|kv d'].
    + exists 1%nat. intros [|f] rest Hf _; [lia | reflexivity].
    + destruct (scan_members_compact (kv :: d') Hall Hok) as [fd Hd];
        [discriminate|].
      exists (S fd). intros [|f] rest Hf _; [lia|].
      rewrite compact_dict_app.
      destruct (join_members_quote kv d') as [t J].
      rewrite J in Hd |- *. cbn [tl] in Hd.
      cbn [app scan_once].
      change (123 =? QUOTE) with false. change (123 =? 123) with true.
      cbv iota. rewrite skip_ws_delimiter by reflexivity.
      change (QUOTE =? 125) with false. change (QUOTE =? QUOTE) with true.
      cbv iota.
      rewrite Hd by lia.
      cbn [rev app]. now rewrite dict_of_pairs_distinct.
Qed.

(** ** The decoder consumes input, so its recursion bound is never hit *)

Ltac split_match_in H :=
  match type of H with
  | context [match ?e with _ => _ end] =>
    let E := fresh "E" in destruct e eqn:E
  end.

Ltac split_match :=
  match goal with
  | |- context [match ?e with _ => _ end] =>
    let E := fresh "E" in destruct e eqn:E
  end.

Lemma skip_ws_length (s : str) : (length (skip_ws s) <= length s)%nat.
Proof.
  induction s as [|c s IH]; cbn [skip_ws length]; [lia|].
  destruct (is_ws c); cbn [length]; lia.
Qed.

Lemma strip_prefix_length (p s r : str) :
  strip_prefix p s = Some r -> length s = (length p + length r)%nat.
Proof.
  revert s. induction p as [|x p IH]; intros [|c s]; cbn [strip_prefix length];
    intros H; try discriminate; try (injection H as <-; reflexivity).
  destruct (x =? c); [|discriminate]. apply IH in H. lia.
Qed.

Lemma span_digits_length (s d r : str) :
  span_digits s = (d, r) -> length s = (length d + length r)%nat.
Proof.
  revert d r. induction s as [|c s IH]; intros d r; cbn [span_digits].
  - intros H; injection H as <- <-. reflexivity.
  - destruct (is_digit c).
    + destruct (span_digits s) as [d' r'] eqn:E. intros H; injection H as <- <-.
      specialize (IH _ _ eq_refl). cbn [length]. lia.
    + intros H; injection H as <- <-. reflexivity.
Qed.

Lemma scanstring_length (s acc x r : str) :
  scanstring s acc = Some (x, r) -> (length r < length s)%nat.
Proof.
  remember (length s) as n eqn:Hn.
  assert (Hle : (length s <= n)%nat) by lia. clear Hn.
  revert s acc Hle. induction n as [|n IH]; intros s acc Hle H.
  - destruct s; [discriminate | cbn [length] in Hle; lia].
  - rename IH into Hrec.
    destruct s as [|c s]; [discriminate|]. cbn [scanstring] in H.
    cbn [length] in Hle |- *.
    repeat (first
      [ discriminate
      | match type of H with
        | Some _ = Some _ => injection H as <- <-; lia
        | scanstring ?t _ = Some _ =>
          apply Hrec in H; cbn [length] in *; lia
        end
      | split_match_in H ]).
Qed.

Ltac split_hyps :=
  match goal with
  | H : context [match ?e with _ => _ end] |- _ =>
    let E := fresh "E" in destruct e eqn:E
  end.

Ltac span_facts :=
  repeat match goal with
         | E : span_digits _ = (_, _) |- _ => apply span_digits_length in E
         end.

Lemma match_number_length (s r : str) (v : json) :
  match_number s = Some (v, r) -> (length r < length s)%nat.
Proof.
  unfold match_number. intros H.
  repeat (first
    [ discriminate
    | match goal with
      | H : Some _ = Some _ |- _ => inversion H; clear H; subst
      | H : (_, _) = (_, _) |- _ => inversion H; clear H; subst
      end
    | split_hyps ]).
  all: span_facts; cbn [length] in *; lia.
Qed.

Lemma scan_literal_length (s r : str) (v : json) :
  scan_literal s = Parsed v r -> (length r < length s)%nat.
Proof.
  unfold scan_literal. intros H.
  repeat (first
    [ discriminate
    | match goal with
      | H : Parsed _ _ = Parsed _ _ |- _ => injection H as <- <-
      end
    | split_hyps ]).
  all: try match goal with
           | E : match_number _ = Some _ |- _ => apply match_number_length in E
           end.
  all: repeat match goal with
              | E : strip_prefix _ _ = Some _ |- _ =>
                apply strip_prefix_length in E
              end.
  all: cbn [length py map list_ascii_of_string] in *; lia.
Qed.

Ltac skip_facts :=
  repeat match goal with
         | E : skip_ws ?a = _ |- _ =>
           let L := fresh "L" in
           pose proof (skip_ws_length a) as L; rewrite E in L; clear E
         end;
  repeat match goal with
         | H : context [length (skip_ws ?a)] |- _ =>
           lazymatch goal with
           | _ : (length (skip_ws a) <= length a)%nat |- _ => fail
           | _ => pose proof (skip_ws_length a)
           end
         | |- context [length (skip_ws ?a)] =>
           lazymatch goal with
           | _ : (length (skip_ws a) <= length a)%nat |- _ => fail
           | _ => pose proof (skip_ws_length a)
           end
         end.

Lemma scan_length (f : nat) :
  (forall s v r, scan_once f s = Parsed v r -> (length r < length s)%nat)
  /\ (forall s acc v r,
        scan_items f s acc = Parsed v r -> (length r < length s)%nat)
  /\ (forall s acc v r,
        scan_members f s acc = Parsed v r -> (length r < length s)%nat).
Proof.
  induction f as [|f (IH1 & IH2 & IH3)]; [repeat split; discriminate|].
  repeat split.
  - intros s v r H. cbn [scan_once] in H.
    repeat (first
      [ discriminate
      | match goal with
        | H : Parsed _ _ = Parsed _ _ |- _ => inversion H; clear H; subst
        | H : Some _ = Some _ |- _ => inversion H; clear H; subst
        | H : scan_literal _ = Parsed _ _ |- _ =>
          apply scan_literal_length in H
        | H : scan_items f _ _ = Parsed _ _ |- _ => apply IH2 in H
        | H : scan_members f _ _ = Parsed _ _ |- _ => apply IH3 in H
        | H : scanstring _ _ = Some _ |- _ => apply scanstring_length in H
        end
      | split_hyps ]).
    all: skip_facts; cbn [length] in *; lia.
  - intros s acc v r H. cbn [scan_items] in H.
    repeat (first
      [ discriminate
      | match goal with
        | H : Parsed _ _ = Parsed _ _ |- _ => inversion H; clear H; subst
        | H : scan_once f _ = Parsed _ _ |- _ => apply IH1 in H
        | H : scan_items f _ _ = Parsed _ _ |- _ => apply IH2 in H
        end
      | split_hyps ]).
    all: skip_facts; cbn [length] in *; lia.
  - intros s acc v r H. cbn [scan_members] in H.
    repeat (first
      [ discriminate
      | match goal with
        | H : Parsed _ _ = Parsed _ _ |- _ => inversion H; clear H; subst
        | H : Some _ = Some _ |- _ => inversion H; clear H; subst
        | H : scan_once f _ = Parsed _ _ |- _ => apply IH1 in H
        | H : scan_members f _ _ = Parsed _ _ |- _ => apply IH3 in H
        | H : scanstring _ _ = Some _ |- _ => apply scanstring_length in H
        end
      | split_hyps ]).
    all: skip_facts; cbn [length] in *; lia.
Qed.

Lemma scan_literal_fuel (s : str) : scan_literal s <> OutOfFuel.
Proof.
  unfold scan_literal. repeat split_match; discriminate.
Qed.

Ltac consumed_facts :=
  repeat match goal with
         | E : scan_once ?g _ = Parsed _ _ |- _ =>
           apply (proj1 (scan_length g)) in E
         | E : scanstring _ _ = Some _ |- _ => apply scanstring_length in E
         end;
  skip_facts; cbn [length] in *.

Lemma scan_fuel (f : nat) :
  (forall s, (2 * length s < f)%nat -> scan_once f s <> OutOfFuel)
  /\ (forall s acc, (2 * length s + 1 < f)%nat ->
        scan_items f s acc <> OutOfFuel)
  /\ (forall s acc, (2 * length s + 1 < f)%nat ->
        scan_members f s acc <> OutOfFuel).
Proof.
  induction f as [|f (IH1 & IH2 & IH3)]; [repeat split; intros; lia|].
  repeat split.
  - intros s Hf H. cbn [scan_once] in H.
    repeat (first [discriminate | split_hyps]).
    all: try (now apply scan_literal_fuel in H).
    all: consumed_facts.
    all: match goal with
         | H : scan_items _ _ _ = OutOfFuel |- _ => refine (IH2 _ _ _ H)
         | H : scan_members _ _ _ = OutOfFuel |- _ => refine (IH3 _ _ _ H)
         end; skip_facts; cbn [length]; lia.
  - intros s acc Hf H. cbn [scan_items] in H.
    repeat (first [discriminate | split_hyps]).
    all: consumed_facts.
    all: match goal with
         | H : scan_once _ _ = OutOfFuel |- _ => refine (IH1 _ _ H)
         | H : scan_items _ _ _ = OutOfFuel |- _ => refine (IH2 _ _ _ H)
         end; skip_facts; cbn [length]; lia.
  - intros s acc Hf H. cbn [scan_members] in H.
    repeat (first [discriminate | split_hyps]).
    all: consumed_facts.
    all: match goal with
         | H : scan_once _ _ = OutOfFuel |- _ => refine (IH1 _ _ H)
         | H : scan_members _ _ _ = OutOfFuel |- _ => refine (IH3 _ _ _ H)
         end; skip_facts; cbn [length]; lia.
Qed.

(** The bound [json_loads] passes is enough for any text. *)
Lemma scan_once_fuel (s : str) : scan_once (S (2 * length s)) s <> OutOfFuel.
Proof. apply (proj1 (scan_fuel _)). lia. Qed.

Lemma scan_mono (f : nat) :
  (forall s, scan_once f s <> OutOfFuel ->
     forall g, (f <= g)%nat -> scan_once g s = scan_once f s)
  /\ (forall s acc, scan_items f s acc <> OutOfFuel ->
        forall g, (f <= g)%nat -> scan_items g s acc = scan_items f s acc)
  /\ (forall s acc, scan_members f s acc <> OutOfFuel ->
        forall g, (f <= g)%nat -> scan_members g s acc = scan_members f s acc).
Proof.
  induction f as [|f (IH1 & IH2 & IH3)];
    [repeat split; intros; cbn in *; congruence|].
  repeat split.
  - intros s H [|g] Hg; [lia|]. cbn [scan_once] in H |- *.
    repeat (first [reflexivity | split_match]).
    + apply IH3; [exact H | lia].
    + apply IH2; [exact H | lia].
  - intros s acc H [|g] Hg; [lia|]. cbn [scan_items] in H |- *.
    destruct (scan_once f s) as [ | |v rest] eqn:E; [congruence| |];
      rewrite (IH1 s) by (congruence || lia); rewrite E; [reflexivity|].
    repeat (first [reflexivity | split_match]).
    apply IH2; [exact H | lia].
  - intros s acc H [|g] Hg; [lia|]. cbn [scan_members] in H |- *.
    destruct (scanstring s []) as [[key r]|]; [|reflexivity].
    destruct (skip_ws r) as [|c r1]; [reflexivity|].
    destruct (c =? 58); [|reflexivity].
    destruct (scan_once f (skip_ws r1)) as [ | |v rest] eqn:E; [congruence| |];
      rewrite (IH1 (skip_ws r1)) by (congruence || lia); rewrite E;
      [reflexivity|].
    repeat (first [reflexivity | split_match]).
    apply IH3; [exact H | lia].
Qed.

(** ** Dumped text is ASCII *)

Lemma hexdigit_ascii (d : N) : d < 16 -> is_ascii (hexdigit d).
Proof.
  intros H. unfold hexdigit, is_ascii. destruct (d <? 10); lia.
Qed.

Lemma u_escape_ascii (n : N) : Forall is_ascii (u_escape n).
Proof.
  unfold u_escape.
  repeat constructor;
    try (apply hexdigit_ascii; apply N.mod_upper_bound; discriminate).
Qed.

Lemma escape_char_ascii (c : codepoint) : Forall is_ascii (escape_char c).
Proof.
  unfold escape_char.
  repeat match goal with
         | |- context [if ?a =? ?b then _ else _] =>
           destruct (a =? b); [repeat constructor|]
         end.
  destruct (N.leb_spec 32 c); destruct (N.leb_spec c 126); cbn [andb].
  - repeat constructor. unfold is_ascii. lia.
  - destruct (c <? 0x10000); [apply u_escape_ascii|].
    apply Forall_app. split; apply u_escape_ascii.
  - destruct (c <? 0x10000); [apply u_escape_ascii|].
    apply Forall_app. split; apply u_escape_ascii.
  - destruct (c <? 0x10000); [apply u_escape_ascii|].
    apply Forall_app. split; apply u_escape_ascii.
Qed.

Lemma encoded_str_ascii (s : str) : Forall is_ascii (encode_basestring_ascii s).
Proof.
  unfold encode_basestring_ascii. constructor; [reflexivity|].
  apply Forall_app. split; [|repeat constructor].
  induction s as [|c s IH]; cbn [flat_map]; [constructor|].
  apply Forall_app. split; [apply escape_char_ascii | exact IH].
Qed.

Lemma int_repr_ascii (z : Z) : Forall is_ascii (int_repr z).
Proof.
  assert (D : forall u, Forall is_ascii (str_of_uint u))
    by (induction u; cbn [str_of_uint]; constructor; auto; reflexivity).
  destruct z; cbn [int_repr]; repeat constructor; apply D.
Qed.

Lemma join_ascii (sep : str) (chunks : list str) :
  Forall is_ascii sep -> Forall (Forall is_ascii) chunks ->
  Forall is_ascii (join sep chunks).
Proof.
  intros Hsep. induction 1 as [|x r Hx Hr IH]; [constructor|].
  destruct r as [|y r]; [exact Hx|]. rewrite join_more.
  apply Forall_app. split; [exact Hx|].
  apply Forall_app. split; [exact Hsep | exact IH].
Qed.

Lemma compact_ascii (v : json) : json_ok v = true -> Forall is_ascii (compact v).
Proof.
  induction v as [ | b | z | lit | s | l IHl | d IHd] using json_ind;
    cbn [json_ok]; intros Hok.
  - repeat constructor.
  - destruct b; repeat constructor.
  - apply int_repr_ascii.
  - discriminate.
  - apply encoded_str_ascii.
  - rewrite compact_list. constructor; [reflexivity|].
    apply Forall_app. split; [|repeat constructor].
    apply join_ascii; [repeat constructor|].
    apply Forall_map. rewrite Forall_forall in IHl |- *.
    intros x Hx. apply IHl; [exact Hx|].
    rewrite forallb_forall in Hok. now apply Hok.
  - apply andb_true_iff in Hok as [Hok _].
    rewrite compact_dict. constructor; [reflexivity|].
    apply Forall_app. split; [|repeat constructor].
    apply join_ascii; [repeat constructor|].
    apply Forall_map. rewrite Forall_forall in IHd |- *.
    intros [k x] Hx. unfold member, member_tail. cbn [fst snd].
    constructor; [reflexivity|].
    apply Forall_app. split.
    + pose proof (encoded_str_ascii k) as Hk.
      unfold encode_basestring_ascii in Hk.
      inversion Hk as [|? ? _ Hk']; subst.
      apply Forall_app in Hk'. tauto.
    + constructor; [reflexivity|]. constructor; [reflexivity|].
      apply (IHd _ Hx). rewrite forallb_forall in Hok.
      specialize (Hok _ Hx). cbn [snd] in Hok.
      now apply andb_true_iff in Hok.
Qed.

(** ** [json.loads] undoes compact [json.dumps] *)

Lemma json_loads_compact (v : json) :
  json_ok v = true -> json_loads (json_dumps_compact v) = Ok v.
Proof.
  intros Hok. change (json_dumps_compact v) with (compact v).
  destruct (compact_opens v Hok) as (c & t & E & Hws & _).
  pose proof (compact_ascii v Hok) as Hasc.
  destruct (scan_once_compact v Hok) as [f0 Hscan].
  specialize (Hscan (Nat.max f0 (S (2 * length (compact v)))) []).
  rewrite app_nil_r in Hscan.
  specialize (Hscan (Nat.le_max_l _ _) I).
  pose proof (scan_once_fuel (compact v)) as Hfuel.
  rewrite (proj1 (scan_mono _) _ Hfuel _ (Nat.le_max_r _ _)) in Hscan.
  unfold json_loads. rewrite E in Hasc, Hscan |- *.
  inversion Hasc as [|? ? Hc _]; subst. unfold is_ascii in Hc.
  replace (c =? 0xFEFF) with false by (symmetry; apply N.eqb_neq; lia).
  rewrite skip_ws_delimiter by exact Hws.
  rewrite Hscan. reflexivity.
Qed.

(** ** Running computations *)

Lemma bind_Ok {A B} (m : M A) (f : A -> M B) st a st1 ev1 :
  m st = (Ok a, st1, ev1) ->
  bind m f st = (let '(r, st2, ev2) := f a st1 in (r, st2, ev1 ++ ev2)).
Proof. intros H. unfold bind. rewrite H. now destruct (f a st1) as [[? ?] ?]. Qed.

Lemma bind_Abort {A B} (m : M A) (f : A -> M B) st r st1 ev1 :
  m st = (Abort r, st1, ev1) -> bind m f st = (Abort r, st1, ev1).
Proof. intros H. unfold bind. now rewrite H. Qed.

Lemma bind_ext {A B} (m : M A) (f g : A -> M B) st :
  (forall a st1, f a st1 = g a st1) -> bind m f st = bind m g st.
Proof.
  intros H. unfold bind. destruct (m st) as [[[a|e] st1] ev1]; [|reflexivity].
  now rewrite H.
Qed.

Lemma firstn_prefix {A} (a b : list A) : firstn (length a) (a ++ b) = a.
Proof. induction a; cbn; congruence. Qed.

Lemma skipn_prefix {A} (a b : list A) : skipn (length a) (a ++ b) = b.
Proof. induction a; cbn; congruence. Qed.

Lemma stdin_read_prefix (n : N) (a b : bytes) (st : state) :
  stdin st = a ++ b -> N.to_nat n = length a ->
  stdin_read n st = (Ok a, set_stdin b st, []).
Proof.
  intros Hs Hn. unfold stdin_read.
  now rewrite Hs, Hn, firstn_prefix, skipn_prefix.
Qed.

Lemma set_stdin_twice (a b : bytes) (st : state) :
  set_stdin a (set_stdin b st) = set_stdin a st.
Proof. reflexivity. Qed.

(** ** The frame codec *)

Lemma encode_message_inv (w : world) (v : json) (e : encoded_message) :
  json_ok v = true -> encode_message w v = Ok e ->
  enc_content e = map byte_of_N (json_dumps_compact v)
  /\ pack_I (host w) (N.of_nat (length (enc_content e))) = Ok (enc_length e).
Proof.
  intros Hok H. unfold encode_message in H.
  rewrite utf8_encode_ascii in H by now apply compact_ascii.
  cbn [rbind] in H.
  destruct (pack_I (host w) _) as [len|] eqn:P; [|discriminate].
  cbn [rbind] in H. injection H as <-. cbn [enc_content enc_length].
  split; [reflexivity | exact P].
Qed.

(** Encoding succeeds exactly when the payload length fits the prefix. *)
Lemma encode_message_fits (w : world) (v : json) :
  json_ok v = true ->
  N.of_nat (length (json_dumps_compact v)) < 2 ^ 32 ->
  exists e, encode_message w v = Ok e.
Proof.
  intros Hok Hlen. unfold encode_message.
  rewrite utf8_encode_ascii by now apply compact_ascii.
  cbn [rbind]. rewrite length_map.
  destruct (pack_uint_fits (native_order (host w)) sizeof_int _ Hlen) as [b Hb].
  eexists. unfold pack_I.
  change (@length N) with (@length codepoint).
  rewrite Hb. cbn [rbind]. reflexivity.
Qed.


(** ** Truncated and malformed input *)

Lemma json_loads_cases (s : str) :
  (exists v, json_loads s = Ok v) \/ json_loads s = raise JSONDecodeError.
Proof.
  unfold json_loads. repeat split_match; eauto.
Qed.

Lemma utf8_decode_cases (b : bytes) :
  (exists s, utf8_decode b = Ok s) \/ utf8_decode b = raise UnicodeDecodeError.
Proof.
  remember (length b) as n eqn:Hn.
  assert (Hle : (length b <= n)%nat) by lia. clear Hn.
  revert b Hle. induction n as [|n IH]; intros b Hle.
  - destruct b; [left; now exists [] | cbn [length] in Hle; lia].
  - destruct b as [|b0 r0]; [left; now exists []|].
    cbn [length] in Hle. cbn [utf8_decode].
    repeat (first
      [ now right
      | match goal with
        | |- context [rmap _ (utf8_decode ?t)] =>
          destruct (IH t) as [[s ->]| ->];
          [cbn [length] in *; lia | left; eexists; reflexivity | now right]
        end
      | split_match ]).
Qed.

Lemma decode_payload_cases (payload : bytes) :
  (exists v, decode_payload payload = Ok v)
  \/ decode_payload payload = raise UnicodeDecodeError
  \/ decode_payload payload = raise JSONDecodeError.
Proof.
  unfold decode_payload.
  destruct (utf8_decode_cases payload) as [[s ->]| ->]; cbn [rbind raise].
  - destruct (json_loads_cases s) as [[v ->]| ->]; eauto.
  - auto.
Qed.


(** What [get_message] does, by the number of bytes left on stdin. *)
Lemma get_message_eof (w : world) (st : state) :
  stdin st = [] -> get_message w st = (Abort (SystemExit 0), st, []).
Proof.
  destruct st as [input br sp mu]. cbn [stdin]. intros ->. reflexivity.
Qed.

Lemma get_message_short_prefix (w : world) (st : state) :
  (0 < length (stdin st) < 4)%nat ->
  get_message w st = (raise StructError, set_stdin [] st, []).
Proof.
  destruct st as [input br sp mu]. cbn [stdin]. intros [Hlo Hhi].
  destruct input as [|a [|b [|c [|d r]]]]; cbn [length] in *; try lia;
    reflexivity.
Qed.

Lemma get_message_framed (w : world) (st : state) :
  (4 <= length (stdin st))%nat ->
  exists n,
    unpack_I (host w) (firstn 4 (stdin st)) = Ok n
    /\ get_message w st
       = (decode_payload (payload_read n (stdin st)),
          set_stdin (after_frame n (stdin st)) st, []).
Proof.
  destruct st as [input br sp mu]. cbn [stdin]. intros Hlen.
  destruct input as [|a [|b [|c [|d r]]]]; cbn [length] in *; try lia.
  unfold unpack_I, unpack_uint. cbn [firstn length Nat.eqb sizeof_int].
  eexists. split; [reflexivity|].
  unfold get_message, bind, stdin_read, lift, unpack_I, unpack_uint.
  change (N.to_nat 4) with 4%nat.
  cbn [firstn skipn length Nat.eqb sizeof_int stdin set_stdin].
  unfold decode_payload, payload_read, after_frame.
  cbn [skipn].
  destruct (utf8_decode _) as [s|e]; cbn [rbind]; [|reflexivity].
  destruct (json_loads s); reflexivity.
Qed.


(** ** What pure calls can raise *)

Lemma only_raises_rbind {A B} (r : result A) (f : A -> result B) :
  only_raises r -> (forall a, only_raises (f a)) -> only_raises (rbind r f).
Proof. destruct r as [a|e]; cbn [rbind]; auto. Qed.

Lemma only_raises_raise {A} (e : exception) : only_raises (@raise A e).
Proof. exact I. Qed.

Lemma only_raises_Ok {A} (a : A) : only_raises (Ok a).
Proof. exact I. Qed.

Lemma only_raises_getitem obj key : only_raises (getitem obj key).
Proof. destruct obj; cbn; auto. destruct (dict_get pairs key); exact I. Qed.

Lemma only_raises_dict_method_get obj key : only_raises (dict_method_get obj key).
Proof. destruct obj; cbn; auto. destruct (dict_get pairs key); exact I. Qed.

Lemma only_raises_getitem0 obj : only_raises (getitem0 obj).
Proof. destruct obj as [ | | | |[|]|[|]| ]; exact I. Qed.

Lemma only_raises_len obj : only_raises (len obj).
Proof. destruct obj; exact I. Qed.

Lemma only_raises_str_add prefix v : only_raises (str_add prefix v).
Proof. destruct v; exact I. Qed.

Lemma only_raises_method_split v sep : only_raises (method_split v sep).
Proof. destruct v; exact I. Qed.

Lemma only_raises_list_item0 l : only_raises (list_item0 l).
Proof. destruct l; exact I. Qed.

Lemma only_raises_pack_uint o size n : only_raises (pack_uint o size n).
Proof. unfold pack_uint. destruct (n <? _); exact I. Qed.

Lemma only_raises_utf8_encode s : only_raises (utf8_encode s).
Proof.
  induction s as [|c s IH]; cbn [utf8_encode]; [exact I|].
  apply only_raises_rbind.
  - unfold utf8_encode_char. repeat split_match; exact I.
  - intros b. apply only_raises_rbind; [exact IH | intros; exact I].
Qed.

Lemma only_raises_decode_payload b : only_raises (decode_payload b).
Proof.
  destruct (decode_payload_cases b) as [[v ->]|[-> | ->]]; exact I.
Qed.

Lemma only_raises_encode_message w v : only_raises (encode_message w v).
Proof.
  unfold encode_message.
  apply only_raises_rbind; [apply only_raises_utf8_encode|]. intros c.
  apply only_raises_rbind; [apply only_raises_pack_uint | intros; exact I].
Qed.

(** ** Silent computations *)

Lemma silent_ret {A} (a : A) : silent (ret a).
Proof. intros st r st1 ev H. injection H as <- <- <-. repeat split. Qed.

Lemma silent_lift {A} (r : result A) : only_raises r -> silent (lift r).
Proof.
  intros Hr st r' st1 ev H. injection H as <- <- <-. repeat split. exact Hr.
Qed.

Lemma silent_emit (e : event) : quiet e = true -> silent (emit e).
Proof.
  intros He st r st1 ev H. injection H as <- <- <-.
  cbn [forallb]. rewrite He. repeat split.
Qed.

Lemma silent_bind {A B} (m : M A) (f : A -> M B) :
  silent m -> (forall a, silent (f a)) -> silent (bind m f).
Proof.
  intros Hm Hf st r st2 ev H. unfold bind in H.
  destruct (m st) as [[[a|e] st1] ev1] eqn:Em.
  - destruct (f a st1) as [[r2 st2'] ev2] eqn:Ef. injection H as <- <- <-.
    destruct (Hm _ _ _ _ Em) as (S1 & I1 & Q1 & _).
    destruct (Hf a _ _ _ _ Ef) as (S2 & I2 & Q2 & R2).
    rewrite forallb_app, Q1, Q2. repeat split; congruence.
  - injection H as <- <- <-. exact (Hm _ _ _ _ Em).
Qed.

Lemma silent_log lvl text arg : silent (log lvl text arg).
Proof. now apply silent_emit. Qed.

Lemma silent_log_debug_add prefix v : silent (log_debug_add prefix v).
Proof.
  apply silent_bind; [apply silent_lift, only_raises_str_add|].
  intros; apply silent_log.
Qed.

Lemma silent_introspect w : silent (_introspect_broker w).
Proof.
  intros st r st1 ev H. unfold _introspect_broker in H.
  destruct (broker st); [|destruct (broker_process w (spawned st))];
    injection H as <- <- <-; repeat split.
Qed.

Lemma silent_broker_communicate w data : silent (broker_communicate w data).
Proof.
  intros st r st1 ev H. unfold broker_communicate in H.
  destruct (broker st) as [n|]; [destruct (broker_process w n)|];
    injection H as <- <- <-; repeat split.
Qed.

Lemma silent_communicate w msg : silent (_communicate w msg).
Proof.
  unfold _communicate.
  apply silent_bind; [apply silent_lift, only_raises_utf8_encode|]. intros b.
  apply silent_bind; [apply silent_lift, only_raises_pack_uint|]. intros size.
  apply silent_bind; [apply silent_broker_communicate|]. intros out.
  apply silent_bind.
  { intros st r st1 ev H. injection H as <- <- <-. repeat split. }
  intros _.
  apply silent_bind; [apply silent_log|]. intros _.
  apply (silent_bind (lift (utf8_decode _)) (fun resp => lift (json_loads resp))).
  - apply silent_lift.
    destruct (utf8_decode_cases (skipn 4 (bytes_strip out))) as [[s ->]| ->];
      exact I.
  - intros s. apply silent_lift.
    destruct (json_loads_cases s) as [[v ->]| ->]; exact I.
Qed.

Lemma silent_acquire_prt_sso_cookie w account sso_url :
  silent (acquire_prt_sso_cookie w account sso_url).
Proof.
  unfold acquire_prt_sso_cookie.
  repeat (first
    [ apply silent_ret
    | apply silent_log
    | apply silent_log_debug_add
    | apply silent_introspect
    | apply silent_communicate
    | apply silent_lift;
      first [ apply only_raises_getitem | apply only_raises_len
            | apply only_raises_getitem0 | apply only_raises_method_split
            | apply only_raises_list_item0 ]
    | apply silent_bind; [|intros ?]
    | match goal with |- silent (if ?b then _ else _) => destruct b end ]).
Qed.

(** ** Computations that answer with one frame *)

Lemma answers_silent p {A} (m : M A) : silent m -> answers p m.
Proof.
  intros Hm st r st1 ev H. destruct (Hm _ _ _ _ H) as (S1 & I1 & Q1 & R1).
  repeat split; auto.
Qed.

Lemma answers_bind p {A B} (m : M A) (f : A -> M B) :
  silent m -> (forall a, answers p (f a)) -> answers p (bind m f).
Proof.
  intros Hm Hf st r st2 ev H. unfold bind in H.
  destruct (m st) as [[[a|e] st1] ev1] eqn:Em.
  - destruct (f a st1) as [[r2 st2'] ev2] eqn:Ef. injection H as <- <- <-.
    destruct (Hm _ _ _ _ Em) as (S1 & I1 & Q1 & _).
    destruct (Hf a _ _ _ _ Ef) as (S2 & I2 & R2 & W2).
    repeat split; try congruence.
    destruct W2 as [Q2|[Hok (pre & e & Qp & Hp & ->)]].
    + left. now rewrite forallb_app, Q1, Q2.
    + right. split; [exact Hok|]. exists (ev1 ++ pre), e.
      rewrite forallb_app, Q1, Qp, app_assoc. auto.
  - injection H as <- <- <-.
    destruct (Hm _ _ _ _ Em) as (S1 & I1 & Q1 & R1). repeat split; auto.
Qed.

Lemma send_message_run (e : encoded_message) (st : state) :
  send_message e st = (Ok tt, st, frame_events e).
Proof. reflexivity. Qed.

Lemma answers_respond w command message :
  answers (host w) (respond w command message).
Proof.
  unfold respond.
  apply answers_bind; [apply silent_log_debug_add|]. intros _.
  intros st r st1 ev H. unfold bind, lift in H.
  destruct (encode_message w _) as [e|x] eqn:E.
  - rewrite send_message_run in H. injection H as <- <- <-.
    repeat split. right. split; [eauto|]. exists [], e.
    repeat split.
    unfold encode_message in E.
    destruct (utf8_encode _) as [c|]; [|discriminate]. cbn [rbind] in E.
    destruct (pack_I (host w) _) as [l|] eqn:P; [|discriminate].
    cbn [rbind] in E. injection E as <-. exact P.
  - injection H as <- <- <-. repeat split.
    + pose proof (only_raises_encode_message w
                    (JDict [(py "command", command); (py "message", message)])) as R.
      now rewrite E in R.
    + now left.
Qed.

Lemma answers_handle_command w cmd msg :
  answers (host w) (handle_command w cmd msg).
Proof.
  unfold handle_command.
  apply answers_bind; [apply silent_log_debug_add|]. intros _.
  repeat match goal with
         | |- answers _ (if ?b then _ else _) => destruct b
         end.
  - apply answers_bind; [apply silent_lift, only_raises_getitem|]. intros a.
    apply answers_bind; [apply silent_lift, only_raises_getitem|]. intros u.
    apply answers_bind; [apply silent_acquire_prt_sso_cookie|]. intros t.
    apply answers_respond.
  - apply answers_bind; [apply silent_lift, only_raises_getitem|]. intros a.
    apply answers_bind; [apply silent_lift, only_raises_dict_method_get|].
    intros s. apply answers_respond.
  - apply answers_respond.
  - apply answers_respond.
  - apply answers_silent, silent_ret.
Qed.

(** When [handle_command] raises, nothing has reached stdout, what is
    raised is an [Exception], and stdin and the lock are untouched. *)
Lemma handle_command_raises w cmd msg st r st1 ev :
  handle_command w cmd msg st = (Abort r, st1, ev) ->
  (exists e, r = Exc e) /\ forallb quiet ev = true
  /\ stdin st1 = stdin st /\ iomutex st1 = iomutex st.
Proof.
  intros H. destruct (answers_handle_command w cmd msg _ _ _ _ H)
    as (S1 & I1 & R1 & W1).
  repeat split; auto.
  - destruct r as [e| |]; [eauto | contradiction ..].
  - destruct W1 as [Q|[[a Ha] _]]; [exact Q | discriminate].
Qed.

Lemma quiet_stdout (ev : list event) : forallb quiet ev = true -> stdout_of ev = [].
Proof.
  induction ev as [|e ev IH]; [reflexivity|]. cbn [forallb].
  intros H. apply andb_true_iff in H as [He Hev].
  destruct e; try discriminate; cbn [stdout_of]; auto.
Qed.

(** ** The session loop, one turn at a time *)

Lemma get_message_silent w st r st1 ev :
  get_message w st = (r, st1, ev) -> ev = [] /\ iomutex st1 = iomutex st
  /\ broker st1 = broker st /\ spawned st1 = spawned st.
Proof.
  unfold get_message, bind, stdin_read, lift, sys_exit. intros H.
  repeat (first
    [ match goal with
      | H : (_, _, _) = (_, _, _) |- _ => injection H as <- <- <-
      end
    | split_hyps ]);
    repeat split.
Qed.

Lemma recognized_cases (c : str) :
  recognized c = true ->
  c = py "acquirePrtSsoCookie" \/ c = py "acquireTokenSilently"
  \/ c = py "getAccounts" \/ c = py "getVersion".
Proof.
  unfold recognized. rewrite !orb_true_iff, !str_eqb_eq. tauto.
Qed.

Lemma error_envelope_encodes w (c : str) :
  recognized c = true -> exists enc, encode_message w (error_envelope c) = Ok enc.
Proof.
  intros H. apply encode_message_fits;
    destruct (recognized_cases c H) as [->|[->|[->| ->]]];
    (reflexivity || (vm_compute; reflexivity)).
Qed.

Lemma relock (st : state) :
  iomutex st = false -> set_iomutex false (set_iomutex true st) = st.
Proof. destruct st; cbn. now intros ->. Qed.

Lemma session_loop_step_Ok w fuel st st1 ev1 :
  session_step w st = (Ok tt, st1, ev1) ->
  session_loop w (S fuel) st = continues w fuel st1 ev1.
Proof. intros H. cbn [session_loop]. now rewrite H. Qed.

Lemma session_loop_step_Abort w fuel st why st1 ev1 :
  session_step w st = (Abort why, st1, ev1) ->
  session_loop w (S fuel) st = Some (why, st1, ev1).
Proof. intros H. cbn [session_loop]. now rewrite H. Qed.

Lemma getitem_lacks_command (msg : json) :
  lacks_command msg ->
  getitem msg (py "command") = raise KeyError
  \/ getitem msg (py "command") = raise TypeError.
Proof.
  destruct msg; cbn [lacks_command getitem]; auto.
  intros ->. now left.
Qed.

(** C10 -- A message without a ["command"] field.  For every well-framed
    inbound JSON message that lacks the field, the look-up
    [received_message["command"]] raises ([KeyError] for a dict,
    [TypeError] otherwise) before the [try] is entered: the turn of the
    loop ends with that exception uncaught, only the lock was taken and
    released, nothing was written, and the session loop stops there. *)
Theorem missing_command_ends_loop (w : world) (st st0 : state) (msg : json) :
  get_message w st = (Ok msg, st0, []) ->
  iomutex st = false ->
  lacks_command msg ->
  exists e,
    (e = KeyError \/ e = TypeError)
    /\ session_step w st = (Abort (Exc e), st0, [EvAcquire; EvRelease])
    /\ stdout_of [EvAcquire; EvRelease] = []
    /\ forall fuel,
         session_loop w (S fuel) st = Some (Exc e, st0, [EvAcquire; EvRelease]).
Proof.
  intros Hget Hfree Hlack.
  destruct (get_message_silent _ _ _ _ _ Hget) as (_ & Hmu & _).
  rewrite Hfree in Hmu.
  assert (exists e, (e = KeyError \/ e = TypeError)
                    /\ getitem msg (py "command") = raise e) as (e & He & Hg).
  { destruct (getitem_lacks_command msg Hlack); eauto. }
  exists e. split; [exact He|].
  assert (Hstep : session_step w st = (Abort (Exc e), st0, [EvAcquire; EvRelease])).
  { unfold session_step. rewrite (bind_Ok _ _ _ _ _ _ Hget).
    unfold with_iomutex. rewrite Hmu.
    unfold bind at 1. unfold lift at 1. rewrite Hg. unfold raise.
    cbn [app]. now rewrite relock. }
  split; [exact Hstep|]. split; [reflexivity|].
  intros fuel. now apply session_loop_step_Abort.
Qed.

(** A command that is not a [str] ends the loop as well:
    ["received cmd " + cmd] raises [TypeError] before the [try]. *)
Lemma non_string_command_ends_loop (w : world) (st st0 : state)
      (msg cmd : json) :
  get_message w st = (Ok msg, st0, []) ->
  iomutex st = false ->
  getitem msg (py "command") = Ok cmd ->
  (forall c, cmd <> JStr c) ->
  session_step w st = (raise TypeError, st0, [EvAcquire; EvRelease]).
Proof.
  intros Hget Hfree Hcmd Hns.
  destruct (get_message_silent _ _ _ _ _ Hget) as (_ & Hmu & _).
  rewrite Hfree in Hmu.
  unfold session_step. rewrite (bind_Ok _ _ _ _ _ _ Hget).
  unfold with_iomutex. rewrite Hmu.
  unfold bind at 1. unfold lift at 1. rewrite Hcmd.
  unfold bind at 1. unfold log_debug_add at 1.
  unfold bind at 1. unfold lift at 1.
  destruct cmd; try (cbn; now rewrite relock).
  exfalso. now apply (Hns s).
Qed.

Lemma unrecognized_branches (c : str) :
  recognized c = false ->
  eq_str (JStr c) (py "acquirePrtSsoCookie") = false
  /\ eq_str (JStr c) (py "acquireTokenSilently") = false
  /\ eq_str (JStr c) (py "getAccounts") = false
  /\ eq_str (JStr c) (py "getVersion") = false.
Proof.
  unfold recognized, eq_str. rewrite !orb_false_iff. tauto.
Qed.

(** C6 -- Unknown commands are dropped.  For every inbound request whose
    command is a string outside the four [handle_command] knows, the
    turn of the loop returns normally having emitted the lock events
    and two debug records only: no frame is written, no error envelope
    is sent, and the loop goes on with the next frame. *)
Theorem unknown_command_dropped (w : world) (st st0 : state) (msg : json)
        (c : str) :
  get_message w st = (Ok msg, st0, []) ->
  iomutex st = false ->
  getitem msg (py "command") = Ok (JStr c) ->
  recognized c = false ->
  session_step w st
  = (Ok tt, st0, [EvAcquire; log_received c; log_handle c; EvRelease])
  /\ stdout_of [EvAcquire; log_received c; log_handle c; EvRelease] = []
  /\ forall fuel,
       session_loop w (S fuel) st
       = continues w fuel st0
           [EvAcquire; log_received c; log_handle c; EvRelease].
Proof.
  intros Hget Hfree Hcmd Hunk.
  destruct (get_message_silent _ _ _ _ _ Hget) as (_ & Hmu & _).
  rewrite Hfree in Hmu.
  destruct (unrecognized_branches c Hunk) as (B1 & B2 & B3 & B4).
  assert (Hstep : session_step w st
                  = (Ok tt, st0,
                     [EvAcquire; log_received c; log_handle c; EvRelease])).
  { unfold session_step. rewrite (bind_Ok _ _ _ _ _ _ Hget).
    unfold with_iomutex. rewrite Hmu.
    unfold bind at 1. unfold lift at 1. rewrite Hcmd.
    unfold try_except, handle_command. rewrite B1, B2, B3, B4.
    cbn. now rewrite relock. }
  split; [exact Hstep|]. split; [reflexivity|].
  intros fuel. now apply session_loop_step_Ok.
Qed.


(** ** The broker client: from the reply to the cookie *)

Lemma split_nonempty (sep : codepoint) (s : str) : split sep s <> [].
Proof.
  induction s as [|c s IH]; cbn [split]; [discriminate|].
  destruct (c =? sep); [discriminate|]. destruct (split sep s); discriminate.
Qed.

Lemma split_head (sep : codepoint) (s : str) :
  exists others, split sep s = before_first sep s :: others.
Proof.
  induction s as [|c s [others IH]]; cbn [split before_first]; [eauto|].
  destruct (c =? sep); [eauto|]. rewrite IH. eauto.
Qed.

(** [before_first] is the portion before the first separator. *)
Lemma before_first_spec (sep : codepoint) (s : str) :
  ~ In sep (before_first sep s)
  /\ (s = before_first sep s
      \/ exists tail, s = before_first sep s ++ sep :: tail).
Proof.
  induction s as [|c s [Hn Hs]]; cbn [before_first]; [auto|].
  destruct (N.eqb_spec c sep) as [->|Hc].
  - split; [auto|]. right. now exists s.
  - split.
    + cbn [In]. intuition.
    + destruct Hs as [Hs|[tail Hs]].
      * left. congruence.
      * right. exists tail. cbn [app]. congruence.
Qed.

Lemma acquire_unfold w account sso_url :
  acquire_prt_sso_cookie w account sso_url
  = (log_debug_add (py "acquire for ") sso_url ;;
     _introspect_broker w ;;
     resp <- _communicate w (cookie_request sso_url) ;;
     pick_cookie resp)%py.
Proof. reflexivity. Qed.

Lemma acquire_after_reply w account (u : str) st st0 ev0 resp st1 ev1 :
  _introspect_broker w st = (Ok tt, st0, ev0) ->
  _communicate w (cookie_request (JStr u)) st0 = (Ok resp, st1, ev1) ->
  acquire_prt_sso_cookie w account (JStr u) st
  = (let '(r, st2, ev2) := pick_cookie resp st1 in
     (r, st2, log_acquire u :: ev0 ++ ev1 ++ ev2)).
Proof.
  intros Hi Hc. rewrite acquire_unfold.
  unfold bind at 1. unfold log_debug_add at 1.
  unfold bind at 1. unfold lift at 1. cbn [str_add].
  unfold log at 1. unfold emit at 1.
  unfold bind at 1. rewrite Hi.
  unfold bind at 1. rewrite Hc.
  destruct (pick_cookie resp st1) as [[r st2] ev2]. reflexivity.
Qed.

Lemma pick_cookie_first (resp first name : json) (others : list json)
      (data : str) (st : state) :
  getitem resp (py "response") = Ok (JList (first :: others)) ->
  getitem first (py "name") = Ok name ->
  getitem first (py "data") = Ok (JStr data) ->
  pick_cookie resp st
  = (Ok (cookie_result name (before_first 59 data)), st,
     log_reply resp
     :: (match others with [] => [] | _ :: _ => [warn_multiple resp] end)
     ++ [log_result (cookie_result name (before_first 59 data))]).
Proof.
  intros Hr Hn Hd. unfold pick_cookie.
  unfold bind, lift, log, emit, ret. rewrite Hr. cbn [len getitem0].
  assert (Hcount : (1 <? N.of_nat (length (first :: others)))
                   = match others with [] => false | _ :: _ => true end).
  { destruct others; [reflexivity|]. apply N.ltb_lt. cbn [length]. lia. }
  rewrite Hcount, Hn, Hd. cbn [method_split].
  destruct (split_head 59 data) as [rest ->]. cbn [map list_item0].
  destruct others; reflexivity.
Qed.

Lemma pick_cookie_none (resp : json) (st : state) :
  getitem resp (py "response") = Ok (JList []) ->
  pick_cookie resp st = (raise IndexError, st, [log_reply resp]).
Proof.
  intros Hr. unfold pick_cookie, bind, lift, log, emit, ret.
  rewrite Hr. reflexivity.
Qed.

(** C4 -- Cookie extraction.  When the broker was started and its reply
    decodes to [resp], and the first entry of [resp["response"]] has a
    [name] and a string [data], [acquire_prt_sso_cookie] returns
    [{cookieName: name, cookieContent: content}] where [content] is the
    portion of [data] before its first [;] (all of [data] when it has
    none).  For the reply [[{name:"X-Anon", data:"abc123;Path=/;Secure"}]]
    this is [{cookieName:"X-Anon", cookieContent:"abc123"}]
    ([cookie_extraction_x_anon]). *)
Theorem cookie_extraction (w : world) (account : json) (u : str)
        (st st0 st1 : state) (ev0 ev1 : list event)
        (resp first name : json) (others : list json) (data : str) :
  _introspect_broker w st = (Ok tt, st0, ev0) ->
  _communicate w (cookie_request (JStr u)) st0 = (Ok resp, st1, ev1) ->
  getitem resp (py "response") = Ok (JList (first :: others)) ->
  getitem first (py "name") = Ok name ->
  getitem first (py "data") = Ok (JStr data) ->
  fst (fst (acquire_prt_sso_cookie w account (JStr u) st))
  = Ok (JDict [(py "cookieName", name);
               (py "cookieContent", JStr (before_first 59 data))])
  /\ ~ In 59 (before_first 59 data)
  /\ (data = before_first 59 data
      \/ exists tail, data = before_first 59 data ++ 59 :: tail).
Proof.
  intros Hi Hc Hr Hn Hd.
  rewrite (acquire_after_reply _ _ _ _ _ _ _ _ _ Hi Hc).
  rewrite (pick_cookie_first _ _ _ _ _ _ Hr Hn Hd).
  split; [reflexivity | apply before_first_spec].
Qed.

(** C5 -- Cookie count.  When the broker was started and its reply
    decodes to [resp]: if [resp["response"]] is the empty list, the call
    fails, raising [IndexError] (the spec's BrokerCommunicationError),
    and no cookie is returned; if it holds two entries or more, the call
    succeeds with the result derived from the first entry alone,
    whatever the others are, and a warning "got multiple cookies" is
    logged. *)
Theorem cookie_count (w : world) (account : json) (u : str)
        (st st0 st1 : state) (ev0 ev1 : list event) (resp : json) :
  _introspect_broker w st = (Ok tt, st0, ev0) ->
  _communicate w (cookie_request (JStr u)) st0 = (Ok resp, st1, ev1) ->
  (getitem resp (py "response") = Ok (JList []) ->
     acquire_prt_sso_cookie w account (JStr u) st
     = (raise IndexError, st1, log_acquire u :: ev0 ++ ev1 ++ [log_reply resp]))
  /\ (forall first second others name data,
        getitem resp (py "response") = Ok (JList (first :: second :: others)) ->
        getitem first (py "name") = Ok name ->
        getitem first (py "data") = Ok (JStr data) ->
        acquire_prt_sso_cookie w account (JStr u) st
        = (Ok (cookie_result name (before_first 59 data)), st1,
           log_acquire u :: ev0 ++ ev1
           ++ [log_reply resp; warn_multiple resp;
               log_result (cookie_result name (before_first 59 data))])).
Proof.
  intros Hi Hc. split.
  - intros Hr. rewrite (acquire_after_reply _ _ _ _ _ _ _ _ _ Hi Hc).
    now rewrite (pick_cookie_none _ _ Hr).
  - intros first second others name data Hr Hn Hd.
    rewrite (acquire_after_reply _ _ _ _ _ _ _ _ _ Hi Hc).
    now rewrite (pick_cookie_first _ _ _ _ _ _ Hr Hn Hd).
Qed.

(** ** Framing of the broker request *)

(** What [_communicate] writes to the broker: a prefix of
    [sizeof(unsigned long)] bytes holding the payload length, then the
    UTF-8 JSON payload. *)
Lemma communicate_input (w : world) (msg : json) (st : state) (n : nat)
      (run : bytes -> bytes) (payload size : bytes) :
  broker st = Some n -> broker_process w n = Some run ->
  utf8_encode (json_dumps msg) = Ok payload ->
  pack_L (host w) (N.of_nat (length payload)) = Ok size ->
  broker_inputs (snd (_communicate w msg st)) = [size ++ payload]
  /\ length size = sizeof_long (host w)
  /\ unpack_uint (native_order (host w)) (sizeof_long (host w)) size
     = Ok (N.of_nat (length payload)).
Proof.
  intros Hb Hrun Hpay Hsize. split; [|split].
  - unfold _communicate, bind, lift, broker_communicate, log, emit.
    rewrite Hpay, Hsize, Hb, Hrun. cbn [broker set_broker].
    destruct (utf8_decode _) as [t|]; [destruct (json_loads t)|]; reflexivity.
  - exact (pack_uint_length _ _ _ _ Hsize).
  - exact (unpack_pack_uint _ _ _ _ Hsize).
Qed.


(** Where [unsigned long] has four bytes (64-bit Windows) the prefix is
    the four bytes of the native-messaging framing. *)
Lemma broker_prefix_on_llp64 (w : world) (msg : json) (st : state) (n : nat)
      (run : bytes -> bytes) (payload size : bytes) :
  sizeof_long (host w) = 4%nat ->
  broker st = Some n -> broker_process w n = Some run ->
  utf8_encode (json_dumps msg) = Ok payload ->
  pack_L (host w) (N.of_nat (length payload)) = Ok size ->
  broker_inputs (snd (_communicate w msg st)) = [size ++ payload]
  /\ pack_I (host w) (N.of_nat (length payload)) = Ok size.
Proof.
  intros H4 Hb Hrun Hpay Hsize.
  destruct (communicate_input w msg st n run payload size Hb Hrun Hpay Hsize)
    as (Hin & _).
  split; [exact Hin|]. unfold pack_L in Hsize. unfold pack_I.
  now rewrite H4 in Hsize.
Qed.

(** ** The [ssoUrl] fallback *)

(** An [ssoUrl] that is present and falsy ([null], the empty string)
    is replaced by the default URL. *)
Lemma falsy_sso_url_uses_default (w : world) (msg account given : json)
      (st : state) :
  getitem msg (py "account") = Ok account ->
  getitem msg (py "ssoUrl") = Ok given ->
  truthy given = false ->
  handle_command w (JStr (py "acquirePrtSsoCookie")) msg st
  = (log_debug_add (py "handle ") (JStr (py "acquirePrtSsoCookie")) ;;
     token <- acquire_prt_sso_cookie w account (JStr SSO_URL_DEFAULT) ;;
     respond w (JStr (py "acquirePrtSsoCookie")) token)%py st.
Proof.
  intros Ha Hg Ht. unfold handle_command.
  change (eq_str (JStr (py "acquirePrtSsoCookie")) (py "acquirePrtSsoCookie"))
    with true. cbv iota.
  apply bind_ext. intros _ st1.
  unfold bind at 1. unfold lift at 1. rewrite Ha.
  unfold bind at 1. unfold lift at 1. rewrite Hg.
  unfold py_or. rewrite Ht. cbn [app].
  unfold bind. destruct (acquire_prt_sso_cookie _ _ _ _) as [[[t|e] st2] ev2];
    [|reflexivity].
  destruct (respond _ _ _ _) as [[r st3] ev3]. reflexivity.
Qed.

(** C8 -- The [ssoUrl] fallback, evaluated where it fails.  For every
    [acquirePrtSsoCookie] request that has an account and no [ssoUrl]
    entry, [received_message["ssoUrl"]] raises [KeyError] before the
    fallback is reached: [handle_command] fails having logged one debug
    record, the broker is neither started nor written to, and no
    [GetCookies] request with the default URL is sent. *)
Theorem missing_sso_url_rejected (w : world) (msg account : json) (st : state) :
  getitem msg (py "account") = Ok account ->
  getitem msg (py "ssoUrl") = raise KeyError ->
  handle_command w (JStr (py "acquirePrtSsoCookie")) msg st
  = (raise KeyError, st, [log_handle (py "acquirePrtSsoCookie")])
  /\ broker_inputs [log_handle (py "acquirePrtSsoCookie")] = [].
Proof.
  intros Ha Hg. split; [|reflexivity]. unfold handle_command.
  change (eq_str (JStr (py "acquirePrtSsoCookie")) (py "acquirePrtSsoCookie"))
    with true. cbv iota.
  unfold bind, lift. cbn [log_debug_add]. rewrite Ha, Hg. reflexivity.
Qed.

(** ** The lock around stdout *)

Lemma disciplined_app p a b c ev1 ev2 :
  disciplined p a ev1 b -> disciplined p b ev2 c ->
  disciplined p a (ev1 ++ ev2) c.
Proof.
  induction 1 as [ | ? ? ? ? Hq _ IH | ? ? _ IH | ? ? _ IH | ? ? ? Hp _ IH];
    intros H2; cbn [app].
  - exact H2.
  - apply disc_quiet; auto.
  - apply disc_acquire; auto.
  - apply disc_release; auto.
  - rewrite <- app_assoc. apply disc_frame; auto.
Qed.

Lemma disciplined_quiet p held ev :
  forallb quiet ev = true -> disciplined p held ev held.
Proof.
  induction ev as [|e ev IH]; cbn [forallb]; intros H.
  - constructor.
  - apply andb_true_iff in H as [He Hev]. apply disc_quiet; auto.
Qed.

(** What an answering computation emits, under the lock. *)
Lemma answers_disciplined p {A} (m : M A) st r st1 ev :
  answers p m -> m st = (r, st1, ev) -> disciplined p true ev true.
Proof.
  intros Hm H. destruct (Hm _ _ _ _ H) as (_ & _ & _ & W).
  destruct W as [Q|[_ (pre & e & Qp & Hp & ->)]].
  - now apply disciplined_quiet.
  - apply (disciplined_app p true true true);
      [now apply disciplined_quiet|].
    rewrite <- (app_nil_r (frame_events e)). apply disc_frame; [exact Hp|].
    constructor.
Qed.

Lemma answers_try_except p {A} (body : M A) (handler : exception -> M A) :
  answers p body -> (forall e, answers p (handler e)) ->
  answers p (try_except body handler).
Proof.
  intros Hb Hh st r st2 ev H. unfold try_except in H.
  destruct (body st) as [[rb st1] ev1] eqn:Eb.
  destruct (Hb _ _ _ _ Eb) as (S1 & I1 & R1 & W1).
  destruct rb as [a|[e|z|]]; try (injection H as <- <- <-; repeat split; auto).
  destruct (handler e st1) as [[rh st2'] ev2] eqn:Eh. injection H as <- <- <-.
  destruct (Hh e _ _ _ _ Eh) as (S2 & I2 & R2 & W2).
  assert (Q1 : forallb quiet ev1 = true).
  { destruct W1 as [Q|[[a Ha] _]]; [exact Q | discriminate]. }
  repeat split; try congruence.
  destruct W2 as [Q2|[Hok (pre & enc & Qp & Hp & ->)]].
  - left. now rewrite forallb_app, Q1, Q2.
  - right. split; [exact Hok|]. exists (ev1 ++ pre), enc.
    rewrite forallb_app, Q1, Qp, app_assoc. auto.
Qed.

(** [with iomutex:] around an answering computation, entered with the
    lock free. *)
Lemma with_iomutex_disciplined p {A} (body : M A) st r st1 ev :
  answers p body -> iomutex st = false ->
  with_iomutex body st = (r, st1, ev) ->
  disciplined p false ev false /\ iomutex st1 = false
  /\ stdin st1 = stdin st /\ only_raises r.
Proof.
  intros Hb Hfree H. unfold with_iomutex in H. rewrite Hfree in H.
  destruct (body (set_iomutex true st)) as [[rb sb] evb] eqn:Eb.
  pose proof (answers_disciplined p body _ _ _ _ Hb Eb) as D.
  destruct (Hb _ _ _ _ Eb) as (S1 & _ & R1 & _).
  assert (Hr : (r, st1, ev)
               = (rb, set_iomutex false sb, EvAcquire :: evb ++ [EvRelease])).
  { destruct rb as [a|[e|z|]]; try (now rewrite <- H); contradiction. }
  injection Hr as -> -> ->.
  repeat split; auto.
  apply disc_acquire.
  apply (disciplined_app p true true false); [exact D|].
  apply disc_release. constructor.
Qed.

Lemma answers_turn w msg :
  answers (host w)
    (cmd <- lift (getitem msg (py "command")) ;;
     log_debug_add (py "received cmd ") cmd ;;
     try_except
       (handle_command w cmd msg)
       (fun e =>
          log ERROR (py "processing error") (Traceback e) ;;
          respond w cmd processing_error))%py.
Proof.
  apply answers_bind; [apply silent_lift, only_raises_getitem|]. intros cmd.
  apply answers_bind; [apply silent_log_debug_add|]. intros _.
  apply answers_try_except; [apply answers_handle_command|]. intros e.
  apply answers_bind; [apply silent_log|]. intros _. apply answers_respond.
Qed.

Lemma get_message_stdin w st msg st0 ev :
  get_message w st = (Ok msg, st0, ev) ->
  (length (stdin st0) < length (stdin st))%nat.
Proof.
  intros H.
  destruct (Nat.lt_ge_cases (length (stdin st)) 4) as [Hlt|Hge].
  - destruct (stdin st) as [|a r] eqn:E.
    + rewrite (get_message_eof w st E) in H. discriminate.
    + rewrite get_message_short_prefix in H
        by (rewrite E; cbn [length] in *; lia).
      discriminate.
  - destruct (get_message_framed w st Hge) as (n & _ & Hm).
    rewrite Hm in H. injection H as _ <- _.
    cbn [stdin set_stdin]. unfold after_frame.
    rewrite !length_skipn. lia.
Qed.

Lemma get_message_no_deadlock w st st0 ev :
  get_message w st <> (Abort Deadlock, st0, ev).
Proof.
  intros H.
  destruct (Nat.lt_ge_cases (length (stdin st)) 4) as [Hlt|Hge].
  - destruct (stdin st) as [|a r] eqn:E.
    + rewrite (get_message_eof w st E) in H. discriminate.
    + rewrite get_message_short_prefix in H
        by (rewrite E; cbn [length] in *; lia).
      discriminate.
  - destruct (get_message_framed w st Hge) as (n & _ & Hm).
    rewrite Hm in H. injection H as H _ _.
    pose proof (only_raises_decode_payload (payload_read n (stdin st))) as R.
    now rewrite H in R.
Qed.

(** One turn of the loop, entered with the lock free. *)
Lemma session_step_disciplined w st r st1 ev :
  iomutex st = false -> session_step w st = (r, st1, ev) ->
  disciplined (host w) false ev false /\ iomutex st1 = false
  /\ r <> Abort Deadlock
  /\ (r = Ok tt -> (length (stdin st1) < length (stdin st))%nat).
Proof.
  intros Hfree H. unfold session_step, bind in H.
  destruct (get_message w st) as [[[msg|e] st0] ev0] eqn:Eg.
  - destruct (get_message_silent _ _ _ _ _ Eg) as (-> & Hmu & _).
    rewrite Hfree in Hmu.
    pose proof (get_message_stdin _ _ _ _ _ Eg) as Hlen.
    match type of H with
    | context [with_iomutex ?b st0] =>
      destruct (with_iomutex b st0) as [[rb sb] evb] eqn:Ew;
      destruct (with_iomutex_disciplined (host w) b _ _ _ _
                  (answers_turn w msg) Hmu Ew) as (D & I1 & S1 & R1)
    end.
    injection H as <- <- <-. cbn [app].
    repeat split; auto.
    + intros ->. exact R1.
    + intros _. rewrite S1. exact Hlen.
  - destruct (get_message_silent _ _ _ _ _ Eg) as (-> & Hmu & _).
    injection H as <- <- <-. repeat split; try congruence.
    + constructor.
    + intros Heq. injection Heq as ->.
      now apply get_message_no_deadlock in Eg.
Qed.

Lemma session_loop_disciplined w fuel st why st2 evs :
  iomutex st = false ->
  session_loop w fuel st = Some (why, st2, evs) ->
  disciplined (host w) false evs false /\ why <> Deadlock.
Proof.
  revert st why st2 evs. induction fuel as [|fuel IH];
    intros st why st2 evs Hfree H; [discriminate|].
  cbn [session_loop] in H.
  destruct (session_step w st) as [[[[]|e] st1] ev1] eqn:Es;
    destruct (session_step_disciplined _ _ _ _ _ Hfree Es) as (D & I1 & R1 & _).
  - destruct (session_loop w fuel st1) as [[[why' st2'] ev2]|] eqn:El;
      [|discriminate].
    injection H as <- <- <-.
    destruct (IH _ _ _ _ I1 El) as (D2 & W2).
    split; [|exact W2].
    now apply (disciplined_app _ false false false).
  - injection H as <- <- <-. split; [exact D | congruence].
Qed.

(** The loop ends on every finite input: each turn that returns has
    consumed at least the four bytes of a prefix. *)
Lemma session_loop_terminates w fuel st :
  iomutex st = false -> (length (stdin st) < fuel)%nat ->
  session_loop w fuel st <> None.
Proof.
  revert st. induction fuel as [|fuel IH]; intros st Hfree Hlen; [lia|].
  cbn [session_loop].
  destruct (session_step w st) as [[[[]|e] st1] ev1] eqn:Es; [|discriminate].
  destruct (session_step_disciplined _ _ _ _ _ Hfree Es) as (_ & I1 & _ & L).
  specialize (L eq_refl).
  specialize (IH st1 I1 ltac:(lia)).
  destruct (session_loop w fuel st1) as [[[why st2] ev2]|]; congruence.
Qed.

Lemma answers_greeting w (online : bool) :
  answers (host w)
    (respond w (JStr (py "brokerStateChanged"))
       (JStr (if online then py "online" else py "offline"))).
Proof. apply answers_respond. Qed.

Lemma startup_disciplined w input r st1 ev :
  startup w (initial input) = (r, st1, ev) ->
  disciplined (host w) false ev false /\ iomutex st1 = false
  /\ stdin st1 = input /\ r <> Abort Deadlock.
Proof.
  unfold startup, SsoMib_init. intros H.
  unfold bind, log, emit in H.
  destruct (_introspect_broker w (initial input)) as [[[[]|e] s0] e0] eqn:Ei;
    destruct (silent_introspect w _ _ _ _ Ei) as (S0 & I0 & Q0 & R0).
  - unfold notify_state_change in H.
    match type of H with
    | context [with_iomutex ?b s0] =>
      destruct (with_iomutex b s0) as [[rb sb] evb] eqn:Ew;
      destruct (with_iomutex_disciplined (host w) b _ _ _ _
                  (answers_greeting w _) I0 Ew) as (D & I1 & S1 & R1)
    end.
    injection H as <- <- <-. cbn [app].
    repeat split.
    + do 3 (apply disc_quiet; [reflexivity|]).
      apply (disciplined_app _ false false false);
        [now apply disciplined_quiet | exact D].
    + exact I1.
    + now rewrite S1, S0.
    + intros ->. exact R1.
  - injection H as <- <- <-. cbn [app].
    repeat split; auto.
    + do 3 (apply disc_quiet; [reflexivity|]).
      now apply disciplined_quiet.
    + intros Heq. injection Heq as ->. exact R0.
Qed.

(** C9 -- Outbound write exclusion.  In every run of the process, the
    events it emits obey the lock discipline: stdout is written only
    between an acquire and the matching release of [iomutex], every
    write is part of a whole frame (length prefix, content, flush, with
    nothing in between), for the first notification, for command
    responses and for the error envelope alike; the lock is never taken
    while held, and the run never blocks on it. *)
Theorem writes_hold_lock (w : world) (fuel : nat) (input : bytes)
        (why : abort) (st : state) (evs : list event) :
  run_as_native_messaging w fuel (initial input) = Some (why, st, evs) ->
  disciplined (host w) false evs false /\ why <> Deadlock.
Proof.
  unfold run_as_native_messaging. intros H.
  destruct (startup w (initial input)) as [[[[]|e] st1] ev1] eqn:Es;
    destruct (startup_disciplined _ _ _ _ _ Es) as (D & I1 & _ & R1).
  - destruct (session_loop w fuel st1) as [[[why' st2] ev2]|] eqn:El;
      [|discriminate].
    injection H as <- <- <-.
    destruct (session_loop_disciplined _ _ _ _ _ _ I1 El) as (D2 & W2).
    split; [|exact W2].
    now apply (disciplined_app _ false false false).
  - injection H as <- <- <-. split; [exact D | congruence].
Qed.

(** Every run ends: with fuel beyond the length of the input, the
    process has exited or died. *)
Lemma run_terminates (w : world) (input : bytes) (fuel : nat) :
  (length input < fuel)%nat ->
  run_as_native_messaging w fuel (initial input) <> None.
Proof.
  intros Hlen. unfold run_as_native_messaging.
  destruct (startup w (initial input)) as [[[[]|e] st1] ev1] eqn:Es;
    [|discriminate].
  destruct (startup_disciplined _ _ _ _ _ Es) as (_ & I1 & S1 & _).
  pose proof (session_loop_terminates w fuel st1 I1) as T.
  rewrite S1 in T. specialize (T Hlen).
  destruct (session_loop w fuel st1) as [[[why st2] ev2]|]; congruence.
Qed.

(** ** The theorems at work on sample sessions *)



Lemma cookie_extraction_x_anon :
  fst (fst (acquire_prt_sso_cookie sample_world JNull (JStr SSO_URL_DEFAULT)
              (initial [])))
  = Ok (JDict [(py "cookieName", JStr (py "X-Anon"));
               (py "cookieContent", JStr (py "abc123"))]).
Proof.
  refine (proj1 (cookie_extraction sample_world JNull SSO_URL_DEFAULT
                   (initial []) with_broker after_call
                   [EvPopen 0 true]
                   (snd (_communicate sample_world
                           (cookie_request (JStr SSO_URL_DEFAULT)) with_broker))
                   x_anon_cookies
                   (JDict [(py "name", JStr (py "X-Anon"));
                           (py "data", JStr (py "abc123;Path=/;Secure"))])
                   (JStr (py "X-Anon")) [] (py "abc123;Path=/;Secure")
                   _ _ _ _ _)).
  - reflexivity.
  - vm_compute; reflexivity.
  - reflexivity.
  - reflexivity.
  - reflexivity.
Defined.

Lemma cookie_count_sample :
  fst (fst (acquire_prt_sso_cookie (answering linux_x86_64 no_cookies) JNull
              (JStr SSO_URL_DEFAULT) (initial [])))
  = raise IndexError
  /\ fst (fst (acquire_prt_sso_cookie (answering linux_x86_64 two_cookies) JNull
                 (JStr SSO_URL_DEFAULT) (initial [])))
     = Ok (cookie_result (JStr (py "first")) (py "one"))
  /\ In (warn_multiple two_cookies)
        (snd (acquire_prt_sso_cookie (answering linux_x86_64 two_cookies) JNull
                (JStr SSO_URL_DEFAULT) (initial []))).
Proof.
  destruct (cookie_count (answering linux_x86_64 no_cookies) JNull
              SSO_URL_DEFAULT (initial []) with_broker after_call
              [EvPopen 0 true]
              (snd (_communicate (answering linux_x86_64 no_cookies)
                      (cookie_request (JStr SSO_URL_DEFAULT)) with_broker))
              no_cookies) as [Hzero _];
    [reflexivity | vm_compute; reflexivity |].
  destruct (cookie_count (answering linux_x86_64 two_cookies) JNull
              SSO_URL_DEFAULT (initial []) with_broker after_call
              [EvPopen 0 true]
              (snd (_communicate (answering linux_x86_64 two_cookies)
                      (cookie_request (JStr SSO_URL_DEFAULT)) with_broker))
              two_cookies) as [_ Hmany];
    [reflexivity | vm_compute; reflexivity |].
  rewrite (Hzero eq_refl).
  rewrite (Hmany _ _ _ (JStr (py "first")) (py "one;Path=/")
             eq_refl eq_refl eq_refl).
  cbn [fst snd]. repeat split.
  apply in_cons, in_or_app. right. apply in_or_app. right.
  cbn [In]. auto.
Defined.

Lemma unknown_command_dropped_sample :
  session_step sample_world (initial (inbound unknown_request))
  = (Ok tt, initial [],
     [EvAcquire; log_received (py "monitor"); log_handle (py "monitor");
      EvRelease]).
Proof.
  refine (proj1 (unknown_command_dropped sample_world
                   (initial (inbound unknown_request)) (initial [])
                   unknown_request (py "monitor") _ _ _ _)).
  - vm_compute; reflexivity.
  - reflexivity.
  - reflexivity.
  - reflexivity.
Defined.

Lemma missing_sso_url_rejected_sample :
  handle_command sample_world (JStr (py "acquirePrtSsoCookie"))
    request_without_sso_url (initial [])
  = (raise KeyError, initial [], [log_handle (py "acquirePrtSsoCookie")]).
Proof.
  refine (proj1 (missing_sso_url_rejected sample_world request_without_sso_url
                   (JDict [(py "username", JStr (py "windows_user"))])
                   (initial []) _ _)).
  - reflexivity.
  - reflexivity.
Defined.

Lemma writes_hold_lock_sample :
  match sample_run with
  | Some (why, _, evs) =>
    disciplined linux_x86_64 false evs false /\ why <> Deadlock
  | None => False
  end.
Proof.
  refine (writes_hold_lock sample_world 3 sample_input _ _ _ _).
  vm_compute; reflexivity.
Defined.

Lemma missing_command_sample :
  exists e,
    (e = KeyError \/ e = TypeError)
    /\ session_loop sample_world 1 (initial (inbound request_without_command))
       = Some (Exc e, initial [], [EvAcquire; EvRelease]).
Proof.
  destruct (missing_command_ends_loop sample_world
              (initial (inbound request_without_command)) (initial [])
              request_without_command)
    as (e & He & _ & _ & Hloop).
  - vm_compute; reflexivity.
  - reflexivity.
  - reflexivity.
  - exists e. split; [exact He | apply Hloop].
Defined.

(** The same request, seen from the loop: the turn answers with the
    processing-error envelope and the broker is never written to. *)
Lemma missing_sso_url_session :
  exists enc,
    encode_message sample_world (error_envelope (py "acquirePrtSsoCookie"))
    = Ok enc
    /\ stdout_of (snd (session_step sample_world
                         (initial (inbound request_without_sso_url))))
       = frame_bytes enc
    /\ broker_inputs (snd (session_step sample_world
                             (initial (inbound request_without_sso_url))))
       = [].
Proof.
  destruct (error_envelope_encodes sample_world (py "acquirePrtSsoCookie")
              eq_refl) as [enc Henc].
  exists enc. split; [exact Henc|].
  vm_compute in Henc. injection Henc as <-.
  split; vm_compute; reflexivity.
Qed.

(** * Further properties of the bridge *)

(** ** One frame out for each recognized request *)

Lemma stdout_of_app (a b : list event) :
  stdout_of (a ++ b) = stdout_of a ++ stdout_of b.
Proof.
  induction a as [|x a IH]; [reflexivity|].
  destruct x; cbn [app stdout_of]; rewrite ?IH, ?app_assoc; reflexivity.
Qed.

Lemma broker_inputs_app (a b : list event) :
  broker_inputs (a ++ b) = broker_inputs a ++ broker_inputs b.
Proof.
  induction a as [|x a IH]; [reflexivity|].
  destruct x; cbn [app broker_inputs]; rewrite ?IH; reflexivity.
Qed.

Lemma stdout_of_frame (pre : list event) (enc : encoded_message) :
  forallb quiet pre = true ->
  stdout_of (pre ++ frame_events enc) = frame_bytes enc.
Proof.
  intros Hq. rewrite stdout_of_app, (quiet_stdout _ Hq).
  cbn. now rewrite app_nil_r.
Qed.

Lemma respond_run w (c : str) (m : json) (st : state) :
  respond w (JStr c) m st
  = match encode_message w (envelope c m) with
    | Ok enc => (Ok tt, st, log_send c :: frame_events enc)
    | Abort r => (Abort r, st, [log_send c])
    end.
Proof.
  unfold respond, bind, log_debug_add, bind, lift, log, emit. cbn [str_add].
  change (JDict [(py "command", JStr c); (py "message", m)])
    with (envelope c m).
  destruct (encode_message w (envelope c m)); reflexivity.
Qed.

Lemma replies_respond w (c : str) (m : json) : replies_to w c (respond w (JStr c) m).
Proof.
  intros st r st1 ev H. rewrite respond_run in H.
  destruct (encode_message w (envelope c m)) as [enc|x] eqn:E;
    injection H as <- <- <-; [|exact I].
  exists m, enc, [log_send c]. repeat split. exact E.
Qed.

Lemma replies_bind w (c : str) {A B} (m : M A) (f : A -> M B) :
  silent m -> (forall a, replies_to w c (f a)) -> replies_to w c (bind m f).
Proof.
  intros Hm Hf st r st2 ev H. unfold bind in H.
  destruct (m st) as [[[a|e] st1] ev1] eqn:Em.
  - destruct (f a st1) as [[r2 st2'] ev2] eqn:Ef. injection H as <- <- <-.
    destruct (Hm _ _ _ _ Em) as (_ & _ & Q1 & _).
    pose proof (Hf a _ _ _ _ Ef) as W. destruct r2 as [b|]; [|exact I].
    destruct W as (message & enc & pre & He & Qp & ->).
    exists message, enc, (ev1 ++ pre).
    rewrite forallb_app, Q1, Qp, app_assoc. auto.
  - injection H as <- <- <-. exact I.
Qed.

Lemma replies_handle_command w (c : str) (msg : json) :
  recognized c = true -> replies_to w c (handle_command w (JStr c) msg).
Proof.
  intros Hrec. unfold handle_command.
  apply replies_bind; [apply silent_log_debug_add|]. intros _.
  repeat match goal with
         | |- replies_to _ _ (if ?b then _ else _) => destruct b eqn:?
         end.
  - apply replies_bind; [apply silent_lift, only_raises_getitem|]. intros a.
    apply replies_bind; [apply silent_lift, only_raises_getitem|]. intros u.
    apply replies_bind; [apply silent_acquire_prt_sso_cookie|]. intros t.
    apply replies_respond.
  - apply replies_bind; [apply silent_lift, only_raises_getitem|]. intros a.
    apply replies_bind; [apply silent_lift, only_raises_dict_method_get|].
    intros s. apply replies_respond.
  - apply replies_respond.
  - apply replies_respond.
  - exfalso. unfold recognized, eq_str in *.
    repeat match goal with
           | H : str_eqb _ _ = false |- _ => rewrite H in Hrec
           end.
    discriminate.
Qed.

(** What [with iomutex:] makes of the body of a turn, once the command
    is known to be the string [c]. *)
Lemma turn_returns w (st0 st1 : state) (msg : json) (c : str) (ev1 : list event) :
  iomutex st0 = false ->
  getitem msg (py "command") = Ok (JStr c) ->
  handle_command w (JStr c) msg (set_iomutex true st0) = (Ok tt, st1, ev1) ->
  with_iomutex
    (cmd <- lift (getitem msg (py "command")) ;;
     log_debug_add (py "received cmd ") cmd ;;
     try_except
       (handle_command w cmd msg)
       (fun e =>
          log ERROR (py "processing error") (Traceback e) ;;
          respond w cmd processing_error))%py st0
  = (Ok tt, set_iomutex false st1, turn_events c ev1).
Proof.
  intros Hmu Hcmd Hh. unfold with_iomutex. rewrite Hmu.
  unfold bind at 1. unfold lift at 1. rewrite Hcmd.
  unfold bind at 1. unfold log_debug_add at 1.
  unfold bind at 1. unfold lift at 1. cbn [str_add].
  unfold log at 1. unfold emit at 1.
  unfold try_except. rewrite Hh. reflexivity.
Qed.

Lemma turn_recovers w (st0 st1 : state) (msg : json) (c : str)
      (e : exception) (enc : encoded_message) (ev1 : list event) :
  iomutex st0 = false ->
  getitem msg (py "command") = Ok (JStr c) ->
  handle_command w (JStr c) msg (set_iomutex true st0)
  = (Abort (Exc e), st1, ev1) ->
  encode_message w (envelope c processing_error) = Ok enc ->
  with_iomutex
    (cmd <- lift (getitem msg (py "command")) ;;
     log_debug_add (py "received cmd ") cmd ;;
     try_except
       (handle_command w cmd msg)
       (fun e =>
          log ERROR (py "processing error") (Traceback e) ;;
          respond w cmd processing_error))%py st0
  = (Ok tt, set_iomutex false st1,
     turn_events c (ev1 ++ [log_processing_error e; log_send c]
                    ++ frame_events enc)).
Proof.
  intros Hmu Hcmd Hh Henc. unfold with_iomutex. rewrite Hmu.
  unfold bind at 1. unfold lift at 1. rewrite Hcmd.
  unfold bind at 1. unfold log_debug_add at 1.
  unfold bind at 1. unfold lift at 1. cbn [str_add].
  unfold log at 1. unfold emit at 1.
  unfold try_except. rewrite Hh.
  unfold bind at 1. unfold log at 1. unfold emit at 1.
  rewrite respond_run, Henc. reflexivity.
Qed.

(** The body of a turn for a recognized command: it returns, and what
    it wrote is one envelope for that command. *)
Lemma turn_one_frame w (st0 : state) (msg : json) (c : str) :
  iomutex st0 = false ->
  getitem msg (py "command") = Ok (JStr c) ->
  recognized c = true ->
  exists message enc st1 ev,
    encode_message w (envelope c message) = Ok enc
    /\ with_iomutex
         (cmd <- lift (getitem msg (py "command")) ;;
          log_debug_add (py "received cmd ") cmd ;;
          try_except
            (handle_command w cmd msg)
            (fun e =>
               log ERROR (py "processing error") (Traceback e) ;;
               respond w cmd processing_error))%py st0
       = (Ok tt, st1, ev)
    /\ stdout_of ev = frame_bytes enc
    /\ stdin st1 = stdin st0 /\ iomutex st1 = false
    /\ broker_inputs ev
       = broker_inputs (snd (handle_command w (JStr c) msg (set_iomutex true st0))).
Proof.
  intros Hmu Hcmd Hrec.
  destruct (handle_command w (JStr c) msg (set_iomutex true st0))
    as [[[[]|r] st1] ev1] eqn:Eh.
  - pose proof (replies_handle_command w c msg Hrec _ _ _ _ Eh)
      as (message & enc & pre & He & Qp & ->).
    destruct (answers_handle_command w (JStr c) msg _ _ _ _ Eh)
      as (S1 & _).
    exists message, enc, (set_iomutex false st1),
           (turn_events c (pre ++ frame_events enc)).
    split; [exact He|]. split; [now apply turn_returns|].
    repeat split.
    + unfold turn_events. cbn [stdout_of log_received].
      rewrite stdout_of_app, stdout_of_frame by exact Qp.
      cbn. now rewrite app_nil_r.
    + exact S1.
    + unfold turn_events. cbn [broker_inputs log_received snd].
      rewrite broker_inputs_app. cbn. now rewrite app_nil_r.
  - destruct (handle_command_raises _ _ _ _ _ _ _ Eh)
      as ([e ->] & Hquiet & Hin & _).
    destruct (error_envelope_encodes w c Hrec) as [enc Henc].
    exists processing_error, enc, (set_iomutex false st1),
           (turn_events c (ev1 ++ [log_processing_error e; log_send c]
                           ++ frame_events enc)).
    split; [exact Henc|]. split; [now apply turn_recovers|].
    repeat split.
    + unfold turn_events. cbn [stdout_of log_received].
      rewrite !stdout_of_app, (quiet_stdout _ Hquiet).
      cbn [stdout_of log_processing_error log_send frame_events app].
      now rewrite !app_nil_r.
    + exact Hin.
    + unfold turn_events. cbn [broker_inputs log_received snd].
      rewrite !broker_inputs_app.
      cbn [broker_inputs log_processing_error log_send frame_events app].
      now rewrite !app_nil_r.
Qed.

Lemma get_message_frame w (v : json) (e : encoded_message) (rest : bytes)
      (st : state) :
  json_ok v = true ->
  encode_message w v = Ok e ->
  stdin st = frame_bytes e ++ rest ->
  get_message w st = (Ok v, set_stdin rest st, []).
Proof.
  intros Hok Henc Hin.
  destruct (encode_message_inv w v e Hok Henc) as [Hc Hp].
  pose proof (pack_uint_length _ _ _ _ Hp) as Hlen.
  pose proof (unpack_pack_uint _ _ _ _ Hp) as Hun.
  unfold frame_bytes in Hin. rewrite <- app_assoc in Hin.
  unfold get_message.
  rewrite (bind_Ok _ _ st (enc_length e) (set_stdin (enc_content e ++ rest) st) [])
    by (apply stdin_read_prefix; [exact Hin | now rewrite Hlen]).
  destruct (enc_length e) as [|b0 bs] eqn:El; [discriminate|].
  unfold bind, lift, unpack_I. rewrite Hun.
  rewrite (stdin_read_prefix _ (enc_content e) rest)
    by (reflexivity || now rewrite Nat2N.id).
  rewrite Hc, utf8_decode_ascii by now apply compact_ascii.
  rewrite json_loads_compact by exact Hok.
  reflexivity.
Qed.

(** X1 -- One answer for each recognized request.  When [get_message]
    has returned a message whose [command] is one of the four commands
    of [handle_command], the turn of the loop returns normally, with
    the lock free again and stdin where [get_message] left it, and what
    it wrote to stdout is exactly one frame: an envelope
    [{"command": c, "message": ...}] that carries the command of the
    request, whether the handler produced a result or raised. *)
Theorem recognized_command_one_frame w (st st0 : state) (msg : json) (c : str) :
  get_message w st = (Ok msg, st0, []) ->
  iomutex st0 = false ->
  getitem msg (py "command") = Ok (JStr c) ->
  recognized c = true ->
  exists message enc st1 ev,
    encode_message w (envelope c message) = Ok enc
    /\ session_step w st = (Ok tt, st1, ev)
    /\ stdout_of ev = frame_bytes enc
    /\ stdin st1 = stdin st0
    /\ iomutex st1 = false.
Proof.
  intros Hget Hmu Hcmd Hrec.
  destruct (turn_one_frame w st0 msg c Hmu Hcmd Hrec)
    as (message & enc & st1 & ev & He & Hrun & Hout & Hin & Hfree & _).
  exists message, enc, st1, ev.
  split; [exact He|]. split; [|now repeat split].
  unfold session_step.
  rewrite (bind_Ok _ _ st msg st0 []) by exact Hget.
  rewrite Hrun. reflexivity.
Qed.

Lemma recognized_command_one_frame_sample :
  exists message enc st1 ev,
    encode_message sample_world
      (envelope (py "acquireTokenSilently") message) = Ok enc
    /\ session_step sample_world
         (initial (inbound token_request_without_account)) = (Ok tt, st1, ev)
    /\ stdout_of ev = frame_bytes enc
    /\ stdin st1 = stdin (initial [])
    /\ iomutex st1 = false.
Proof.
  apply (recognized_command_one_frame sample_world
           (initial (inbound token_request_without_account)) (initial [])
           token_request_without_account (py "acquireTokenSilently"));
    vm_compute; reflexivity.
Defined.

(** ** A whole session *)

Lemma handle_unrecognized w (c : str) (msg : json) (st : state) :
  recognized c = false ->
  handle_command w (JStr c) msg st = (Ok tt, st, [log_handle c]).
Proof.
  intros Hunk. destruct (unrecognized_branches c Hunk) as (B1 & B2 & B3 & B4).
  unfold handle_command. rewrite B1, B2, B3, B4. reflexivity.
Qed.

Lemma frames_for_cons w (v : json) (vs : list json) (bs : bytes) :
  frames_for w (v :: vs) bs ->
  exists e rest,
    encode_message w v = Ok e /\ bs = frame_bytes e ++ rest
    /\ frames_for w vs rest.
Proof.
  intros (encs & HF & ->). inversion HF as [|v' e vs' encs' He HF']; subst.
  exists e, (concat (map frame_bytes encs')). cbn [map concat].
  repeat split; [exact He|]. now exists encs'.
Qed.

Lemma frames_for_prepend w (v : json) (e : encoded_message) (vs : list json)
      (bs : bytes) :
  encode_message w v = Ok e -> frames_for w vs bs ->
  frames_for w (v :: vs) (frame_bytes e ++ bs).
Proof.
  intros He (encs & HF & ->). exists (e :: encs). split; [|reflexivity].
  now constructor.
Qed.

(** The loop over a stream of requests. *)
Lemma session_loop_replies w (reqs : list json) :
  forall (st : state) (fuel : nat),
    iomutex st = false ->
    Forall request_ok reqs ->
    frames_for w reqs (stdin st) ->
    (length reqs < fuel)%nat ->
    exists st' evs replies,
      session_loop w fuel st = Some (SystemExit 0, st', evs)
      /\ replies_for reqs replies
      /\ frames_for w replies (stdout_of evs)
      /\ stdin st' = [].
Proof.
  induction reqs as [|req reqs IH]; intros st fuel Hmu Hreq Hin Hfuel.
  - destruct Hin as (encs & HF & Hin). inversion HF; subst. cbn in Hin.
    destruct fuel as [|fuel]; [cbn in Hfuel; lia|].
    exists st, [], []. split.
    + apply session_loop_step_Abort. unfold session_step.
      apply bind_Abort. now apply get_message_eof.
    + repeat split; [constructor | now exists [] | exact Hin].
  - destruct fuel as [|fuel]; [cbn in Hfuel; lia|]. cbn [length] in Hfuel.
    inversion Hreq as [|? ? [Hok (c & Hcmd)] Hreqs]; subst.
    destruct (frames_for_cons _ _ _ _ Hin) as (e & rest & He & Hst & Hrest).
    pose proof (get_message_frame w req e rest st Hok He Hst) as Hget.
    destruct (recognized c) eqn:Hrec.
    + destruct (turn_one_frame w (set_stdin rest st) req c Hmu Hcmd Hrec)
        as (message & enc & st1 & ev & Henc & Hrun & Hout & Hin1 & Hfree & _).
      assert (Hstep : session_step w st = (Ok tt, st1, ev)).
      { unfold session_step.
        rewrite (bind_Ok _ _ st req (set_stdin rest st) []) by exact Hget.
        rewrite Hrun. reflexivity. }
      cbn [stdin set_stdin] in Hin1.
      destruct (IH st1 fuel Hfree Hreqs)
        as (st' & evs & replies & Hloop & Hrep & Hfr & Hend);
        [now rewrite Hin1 | lia |].
      exists st', (ev ++ evs), (envelope c message :: replies). split.
      * rewrite (session_loop_step_Ok w fuel st st1 ev Hstep).
        unfold continues. now rewrite Hloop.
      * repeat split; [| |exact Hend].
        -- now apply (replies_answer req reqs c message replies).
        -- rewrite stdout_of_app, Hout. now apply frames_for_prepend.
    + pose proof (turn_returns w (set_stdin rest st) _ req c [log_handle c]
                    Hmu Hcmd (handle_unrecognized w c req _ Hrec)) as Hrun.
      assert (Hstep : session_step w st
                      = (Ok tt, set_stdin rest st,
                         turn_events c [log_handle c])).
      { unfold session_step.
        rewrite (bind_Ok _ _ st req (set_stdin rest st) []) by exact Hget.
        rewrite Hrun. now rewrite (relock (set_stdin rest st) Hmu). }
      destruct (IH (set_stdin rest st) fuel Hmu Hreqs)
        as (st' & evs & replies & Hloop & Hrep & Hfr & Hend);
        [exact Hrest | lia |].
      exists st', (turn_events c [log_handle c] ++ evs), replies. split.
      * rewrite (session_loop_step_Ok w fuel st _ _ Hstep).
        unfold continues. now rewrite Hloop.
      * repeat split; [| |exact Hend].
        -- now apply (replies_skip req reqs c replies).
        -- rewrite stdout_of_app. exact Hfr.
Qed.

Lemma greeting_encodes w : exists enc, encode_message w greeting = Ok enc.
Proof.
  apply encode_message_fits; [reflexivity|]. vm_compute. reflexivity.
Qed.

(** [startup] from the first state of the process. *)
Lemma startup_run w (input : bytes) :
  exists enc,
    encode_message w greeting = Ok enc
    /\ startup w (initial input)
       = match broker_process w 0%nat with
         | Some _ =>
           (Ok tt, mkState input (Some 0%nat) 1 false,
            [EvLog DEBUG (py "run_as_native_messaging") NoArg;
             EvStderr (py "Running as native messaging instance.");
             EvStderr (py "For interactive mode, start with --interactive");
             EvPopen 0 true; EvAcquire; log_send (py "brokerStateChanged")]
            ++ frame_events enc ++ [EvRelease])
         | None =>
           (raise OSError, mkState input None 1 false,
            [EvLog DEBUG (py "run_as_native_messaging") NoArg;
             EvStderr (py "Running as native messaging instance.");
             EvStderr (py "For interactive mode, start with --interactive");
             EvPopen 0 false])
         end.
Proof.
  destruct (greeting_encodes w) as [enc Henc]. exists enc.
  split; [exact Henc|].
  unfold startup, bind, log, emit, SsoMib_init, _introspect_broker, initial.
  cbn [broker spawned].
  destruct (broker_process w 0%nat) as [run|]; [|reflexivity].
  cbn [broker set_broker set_spawned].
  unfold notify_state_change, with_iomutex. cbn [iomutex].
  rewrite respond_run. fold greeting. rewrite Henc. reflexivity.
Qed.



(** X3 -- The first notification.  Whatever the input, [startup] ends in
    one of two ways.  If the broker starts, it returns with the broker
    held, stdin untouched, and exactly one frame on stdout: the
    [brokerStateChanged] notification with the message [online].  If
    the broker cannot be started, [Popen] raises [OSError] out of
    [SsoMib(daemon=True)]: nothing has been written to stdout, and the
    whole run ends there without entering the loop.  The message
    [offline] is never sent. *)
Theorem startup_online_or_dead w (input : bytes) :
  (exists enc st1 ev,
      broker_process w 0%nat <> None
      /\ encode_message w greeting = Ok enc
      /\ startup w (initial input) = (Ok tt, st1, ev)
      /\ stdout_of ev = frame_bytes enc
      /\ broker st1 = Some 0%nat /\ stdin st1 = input /\ iomutex st1 = false)
  \/ (exists st1 ev,
         broker_process w 0%nat = None
         /\ startup w (initial input) = (raise OSError, st1, ev)
         /\ stdout_of ev = [] /\ stdin st1 = input
         /\ forall fuel,
             run_as_native_messaging w fuel (initial input)
             = Some (Exc OSError, st1, ev)).
Proof.
  destruct (startup_run w input) as (enc & Henc & Hstart).
  destruct (broker_process w 0%nat) as [run|] eqn:Eb.
  - left. do 3 eexists. split; [discriminate|].
    split; [exact Henc|]. split; [exact Hstart|].
    repeat split. rewrite !stdout_of_app.
    change (stdout_of (frame_events enc)) with (stdout_of ([] ++ frame_events enc)).
    rewrite stdout_of_frame by reflexivity.
    cbn [stdout_of log_send app]. now rewrite app_nil_r.
  - right. do 2 eexists. split; [reflexivity|]. split; [exact Hstart|].
    repeat split. intros fuel. unfold run_as_native_messaging.
    now rewrite Hstart.
Qed.

(** ** The commands one by one *)

Lemma bind_lift_Ok {A B} (r : result A) (f : A -> M B) (st : state) (a : A) :
  r = Ok a -> bind (lift r) f st = f a st.
Proof.
  intros ->. unfold bind, lift. now destruct (f a st) as [[? ?] ?].
Qed.

Lemma bind_lift_Abort {A B} (r : result A) (f : A -> M B) (st : state)
      (e : abort) :
  r = Abort e -> bind (lift r) f st = (Abort e, st, []).
Proof. intros ->. reflexivity. Qed.

Lemma getitem_dict_method_get (msg v : json) (k k' : str) :
  getitem msg k = Ok v -> exists g, dict_method_get msg k' = Ok g.
Proof.
  destruct msg; try discriminate. intros _. cbn [dict_method_get].
  destruct (dict_get _ k'); eauto.
Qed.

(** X4 -- Answers that need no broker.  Whatever the request holds
    besides its command and whatever the state of the process,
    [getAccounts] is answered with the one built-in account and
    [getVersion] with [{"linuxBrokerVersion": -1, "native": version}]:
    the handler returns, the state is unchanged (no broker is started or
    used), and the only bytes written are the frame of that envelope. *)
Theorem fixed_answers w (msg : json) (st : state) :
  (exists enc,
      encode_message w (envelope (py "getAccounts") get_accounts) = Ok enc
      /\ handle_command w (JStr (py "getAccounts")) msg st
         = (Ok tt, st, direct_reply (py "getAccounts") enc))
  /\ (exists enc,
         encode_message w (envelope (py "getVersion") get_broker_version) = Ok enc
         /\ handle_command w (JStr (py "getVersion")) msg st
            = (Ok tt, st, direct_reply (py "getVersion") enc)).
Proof.
  split.
  - destruct (encode_message_fits w (envelope (py "getAccounts") get_accounts))
      as [enc Henc]; [reflexivity | vm_compute; reflexivity |].
    exists enc. split; [exact Henc|]. unfold handle_command.
    change (eq_str (JStr (py "getAccounts")) (py "acquirePrtSsoCookie")) with false.
    change (eq_str (JStr (py "getAccounts")) (py "acquireTokenSilently")) with false.
    change (eq_str (JStr (py "getAccounts")) (py "getAccounts")) with true.
    cbv iota. unfold bind at 1. unfold log_debug_add, bind, lift, log, emit.
    cbn [str_add]. rewrite respond_run, Henc. reflexivity.
  - destruct (encode_message_fits w (envelope (py "getVersion") get_broker_version))
      as [enc Henc]; [reflexivity | vm_compute; reflexivity |].
    exists enc. split; [exact Henc|]. unfold handle_command.
    change (eq_str (JStr (py "getVersion")) (py "acquirePrtSsoCookie")) with false.
    change (eq_str (JStr (py "getVersion")) (py "acquireTokenSilently")) with false.
    change (eq_str (JStr (py "getVersion")) (py "getAccounts")) with false.
    change (eq_str (JStr (py "getVersion")) (py "getVersion")) with true.
    cbv iota. unfold bind at 1. unfold log_debug_add, bind, lift, log, emit.
    cbn [str_add]. rewrite respond_run, Henc. reflexivity.
Qed.

(** X5 -- [acquireTokenSilently] is a stub.  The handler only looks
    whether the request has an [account] entry.  If it has, the answer
    is [{"error": "not implemented"}], whatever the account and the
    [scopes] are, and the broker is not involved; if reading [account]
    raises, that exception leaves [handle_command] after the one debug
    record, with nothing written. *)
Theorem token_request_not_implemented w (msg : json) (st : state) :
  exists enc,
    encode_message w (envelope (py "acquireTokenSilently") not_implemented)
    = Ok enc
    /\ handle_command w (JStr (py "acquireTokenSilently")) msg st
       = match getitem msg (py "account") with
         | Ok _ => (Ok tt, st, direct_reply (py "acquireTokenSilently") enc)
         | Abort r => (Abort r, st, [log_handle (py "acquireTokenSilently")])
         end.
Proof.
  destruct (encode_message_fits w
              (envelope (py "acquireTokenSilently") not_implemented))
    as [enc Henc]; [reflexivity | vm_compute; reflexivity |].
  exists enc. split; [exact Henc|]. unfold handle_command.
  change (eq_str (JStr (py "acquireTokenSilently")) (py "acquirePrtSsoCookie"))
    with false.
  change (eq_str (JStr (py "acquireTokenSilently")) (py "acquireTokenSilently"))
    with true.
  cbv iota. unfold bind at 1. unfold log_debug_add at 1.
  unfold bind at 1. unfold lift at 1. cbn [str_add].
  unfold log at 1. unfold emit at 1.
  unfold bind at 1. unfold lift at 1.
  destruct (getitem msg (py "account")) as [account|r] eqn:Ha; [|reflexivity].
  destruct (getitem_dict_method_get _ _ _ (py "scopes") Ha) as [g Hg].
  unfold bind at 1. unfold lift at 1. rewrite Hg.
  unfold acquire_token_silently. fold not_implemented.
  rewrite respond_run, Henc. reflexivity.
Qed.

(** X6 -- An [ssoUrl] that is not text.  When an [acquirePrtSsoCookie]
    request has an account and a truthy [ssoUrl] that is not a string
    (a number, a non-empty list or dict, [true]), the value passes the
    [or] unchanged and ["acquire for " + sso_url] raises [TypeError]
    as the first statement of [acquire_prt_sso_cookie]: the handler
    fails with the state unchanged, so before any broker is started or
    given input. *)
Theorem non_string_sso_url_rejected w (msg account given : json) (st : state) :
  getitem msg (py "account") = Ok account ->
  getitem msg (py "ssoUrl") = Ok given ->
  truthy given = true ->
  is_str given = false ->
  handle_command w (JStr (py "acquirePrtSsoCookie")) msg st
  = (raise TypeError, st, [log_handle (py "acquirePrtSsoCookie")]).
Proof.
  intros Ha Hg Ht Hs. unfold handle_command.
  change (eq_str (JStr (py "acquirePrtSsoCookie")) (py "acquirePrtSsoCookie"))
    with true.
  cbv iota. unfold bind at 1. unfold log_debug_add at 1.
  unfold bind at 1. unfold lift at 1. cbn [str_add].
  unfold log at 1. unfold emit at 1.
  unfold bind at 1. unfold lift at 1. rewrite Ha.
  unfold bind at 1. unfold lift at 1. rewrite Hg.
  unfold py_or. rewrite Ht.
  unfold bind at 1. unfold acquire_prt_sso_cookie.
  unfold bind at 1. unfold log_debug_add, bind, lift.
  destruct given; try discriminate; reflexivity.
Qed.

Lemma non_string_sso_url_sample :
  handle_command sample_world (JStr (py "acquirePrtSsoCookie"))
    (cookie_request_for windows_user (JInt 1)) (initial [])
  = (raise TypeError, initial [], [log_handle (py "acquirePrtSsoCookie")]).
Proof.
  apply (non_string_sso_url_rejected sample_world
           (cookie_request_for windows_user (JInt 1)) windows_user (JInt 1));
    reflexivity.
Defined.

(** X7 -- The account is not used.  Two requests that both have an
    [account] entry and agree on [ssoUrl] are handled identically,
    whatever the command: same result, same state, same events, so the
    same bytes to the broker and to stdout.  The account selects
    nothing. *)
Theorem account_is_ignored w (cmd msg1 msg2 a1 a2 : json) (st : state) :
  getitem msg1 (py "account") = Ok a1 ->
  getitem msg2 (py "account") = Ok a2 ->
  getitem msg1 (py "ssoUrl") = getitem msg2 (py "ssoUrl") ->
  handle_command w cmd msg1 st = handle_command w cmd msg2 st.
Proof.
  intros H1 H2 Hu. unfold handle_command. apply bind_ext. intros _ st1.
  destruct (eq_str cmd (py "acquirePrtSsoCookie")).
  - rewrite (bind_lift_Ok _ _ _ _ H1), (bind_lift_Ok _ _ _ _ H2), Hu.
    destruct (getitem msg2 (py "ssoUrl")) as [given|r] eqn:Eg.
    + rewrite !(bind_lift_Ok _ _ _ given) by reflexivity. reflexivity.
    + rewrite !(bind_lift_Abort _ _ _ r) by reflexivity. reflexivity.
  - destruct (eq_str cmd (py "acquireTokenSilently")); [|reflexivity].
    rewrite (bind_lift_Ok _ _ _ _ H1), (bind_lift_Ok _ _ _ _ H2).
    destruct (getitem_dict_method_get _ _ _ (py "scopes") H1) as [g1 Hg1].
    destruct (getitem_dict_method_get _ _ _ (py "scopes") H2) as [g2 Hg2].
    rewrite (bind_lift_Ok _ _ _ _ Hg1), (bind_lift_Ok _ _ _ _ Hg2).
    reflexivity.
Qed.

Lemma account_is_ignored_sample :
  handle_command sample_world (JStr (py "acquirePrtSsoCookie"))
    (cookie_request_for windows_user (JStr (py "https://example.org/")))
    (initial [])
  = handle_command sample_world (JStr (py "acquirePrtSsoCookie"))
      (cookie_request_for other_user (JStr (py "https://example.org/")))
      (initial []).
Proof.
  apply (account_is_ignored sample_world (JStr (py "acquirePrtSsoCookie"))
           (cookie_request_for windows_user (JStr (py "https://example.org/")))
           (cookie_request_for other_user (JStr (py "https://example.org/")))
           windows_user other_user);
    reflexivity.
Defined.

(** ** The broker's reply *)

(** [_communicate] once the request reaches a running broker. *)
Lemma communicate_run w (msg : json) (st : state) (n : nat)
      (run : bytes -> bytes) (payload size : bytes) :
  broker st = Some n -> broker_process w n = Some run ->
  utf8_encode (json_dumps msg) = Ok payload ->
  pack_L (host w) (N.of_nat (length payload)) = Ok size ->
  _communicate w msg st
  = (decode_payload (reply_payload (run (size ++ payload))),
     set_broker None st,
     [EvBrokerInput n (size ++ payload);
      EvLog DEBUG (py "rcvd raw: ") (StrOfBytes (run (size ++ payload)))]).
Proof.
  intros Hb Hrun Hpay Hsize.
  unfold _communicate, bind, lift, broker_communicate, log, emit.
  rewrite Hpay, Hsize, Hb, Hrun. cbn [broker set_broker].
  unfold decode_payload, reply_payload, rbind.
  destruct (utf8_decode _) as [t|]; [destruct (json_loads t)|]; reflexivity.
Qed.

Lemma bytes_lstrip_spaces (lead b : bytes) :
  all_space lead = true -> bytes_lstrip (lead ++ b) = bytes_lstrip b.
Proof.
  induction lead as [|x lead IH]; [reflexivity|]. cbn [all_space forallb app].
  intros H. apply andb_true_iff in H as [Hx Hl].
  cbn [bytes_lstrip]. rewrite Hx. now apply IH.
Qed.

Lemma bytes_lstrip_data (b : bytes) :
  starts_with_data b = true -> bytes_lstrip b = b.
Proof.
  destruct b as [|x b]; [discriminate|]. cbn [starts_with_data bytes_lstrip].
  intros H. apply negb_true_iff in H. now rewrite H.
Qed.

Lemma starts_with_data_app (a b : bytes) :
  starts_with_data a = true -> starts_with_data (a ++ b) = true.
Proof. destruct a; [discriminate | exact (fun H => H)]. Qed.

Lemma all_space_rev (b : bytes) : all_space b = true -> all_space (rev b) = true.
Proof.
  unfold all_space. rewrite !forallb_forall. intros H x Hx.
  apply H. now apply in_rev.
Qed.

(** [strip] takes the whitespace off both ends of a text that starts
    and ends with data. *)
Lemma bytes_strip_core (lead core trail : bytes) :
  all_space lead = true -> all_space trail = true ->
  starts_with_data core = true -> starts_with_data (rev core) = true ->
  bytes_strip (lead ++ core ++ trail) = core.
Proof.
  intros Hl Ht Hc Hr. unfold bytes_strip.
  rewrite (bytes_lstrip_spaces _ _ Hl).
  rewrite (bytes_lstrip_data (core ++ trail))
    by now apply starts_with_data_app.
  rewrite rev_app_distr, (bytes_lstrip_spaces _ _ (all_space_rev _ Ht)).
  rewrite (bytes_lstrip_data _ Hr). apply rev_involutive.
Qed.

Lemma digit_is_data (c : codepoint) :
  is_digit c = true -> is_bytes_space (byte_of_N c) = false.
Proof.
  unfold is_digit. intros H. apply andb_true_iff in H as [Hlo Hhi].
  apply N.leb_le in Hlo, Hhi. unfold is_bytes_space.
  rewrite byte_of_N_small by lia.
  apply orb_false_iff. split.
  - apply andb_false_iff. right. apply N.leb_gt. lia.
  - apply N.eqb_neq. lia.
Qed.

(** Compact JSON text ends with a character that is not whitespace. *)
Lemma compact_ends (v : json) :
  json_ok v = true ->
  exists s c, compact v = s ++ [c] /\ is_bytes_space (byte_of_N c) = false.
Proof.
  destruct v as [ | [|] | z | lit | s | l | d]; cbn [json_ok]; intros H;
    try discriminate.
  - now exists (py "nul"), 108.
  - now exists (py "tru"), 101.
  - now exists (py "fals"), 101.
  - assert (D : forall p, exists s c,
                 str_of_uint (Pos.to_uint p) = s ++ [c]
                 /\ is_bytes_space (byte_of_N c) = false).
    { intros p. destruct (to_uint_canonical p) as (d0 & ds & E & _).
      pose proof (str_of_uint_digits (Pos.to_uint p)) as Hd.
      destruct (exists_last (l := str_of_uint (Pos.to_uint p)))
        as (s & c & Es); [rewrite E; discriminate|].
      exists s, c. split; [exact Es|].
      unfold all_digits in Hd. rewrite Es in Hd.
      apply Forall_app in Hd as [_ Hc]. inversion Hc; subst.
      now apply digit_is_data. }
    destruct z as [|p|p]; cbn [compact dumps_with int_repr].
    + now exists [], 48.
    + apply D.
    + destruct (D p) as (s & c & -> & Hc). now exists (45 :: s), c.
  - exists (QUOTE :: flat_map escape_char s), QUOTE. split; reflexivity.
  - rewrite compact_list. now exists (91 :: join [44] (map compact l)), 93.
  - rewrite compact_dict. now exists (123 :: join [44] (map member d)), 125.
Qed.

Lemma compact_bytes_end (v : json) :
  json_ok v = true ->
  starts_with_data (rev (map byte_of_N (json_dumps_compact v))) = true.
Proof.
  intros H. destruct (compact_ends v H) as (s & c & E & Hc).
  change (json_dumps_compact v) with (compact v).
  rewrite E, map_app, rev_app_distr. cbn [map rev app starts_with_data].
  now rewrite Hc.
Qed.

(** What is decoded of a reply that is compact JSON behind four bytes,
    with or without whitespace around. *)
Lemma reply_payload_framed (lead prefix trail : bytes) (v : json) :
  all_space lead = true -> all_space trail = true ->
  length prefix = 4%nat -> starts_with_data prefix = true ->
  json_ok v = true ->
  decode_payload
    (reply_payload
       (lead ++ (prefix ++ map byte_of_N (json_dumps_compact v)) ++ trail))
  = Ok v.
Proof.
  intros Hlead Htrail Hlen Hdata Hok. unfold reply_payload.
  rewrite bytes_strip_core;
    [ | exact Hlead | exact Htrail | now apply starts_with_data_app | ].
  - rewrite skipn_app, <- Hlen, skipn_all, Nat.sub_diag. cbn [app skipn].
    unfold decode_payload.
    rewrite utf8_decode_ascii by now apply compact_ascii.
    cbn [rbind]. now apply json_loads_compact.
  - rewrite rev_app_distr. apply starts_with_data_app.
    now apply compact_bytes_end.
Qed.



(** X9 -- A length prefix that starts with whitespace.  [strip] runs
    before the four bytes are cut off, so a reply whose first byte is
    an ASCII whitespace byte loses that byte first and the cut takes
    the next four: the reply is decoded exactly as the reply without
    its first byte would be.  A correctly framed reply whose length
    byte is such a byte (a payload of 9 to 13 or of 32 bytes on a
    little-endian host) is therefore decoded from the wrong offset. *)
Theorem whitespace_prefix_shifts_reply w (msg : json) (st : state) (n : nat)
        (run : bytes -> bytes) (payload size : bytes) (b0 : byte)
        (rest : bytes) :
  broker st = Some n -> broker_process w n = Some run ->
  utf8_encode (json_dumps msg) = Ok payload ->
  pack_L (host w) (N.of_nat (length payload)) = Ok size ->
  run (size ++ payload) = b0 :: rest ->
  is_bytes_space b0 = true ->
  fst (fst (_communicate w msg st)) = decode_payload (reply_payload rest).
Proof.
  intros Hb Hrun Hpay Hsize Hreply Hspace.
  rewrite (communicate_run w msg st n run payload size Hb Hrun Hpay Hsize).
  cbn [fst]. rewrite Hreply. unfold reply_payload, bytes_strip.
  cbn [bytes_lstrip]. now rewrite Hspace.
Qed.

Lemma whitespace_prefix_sample :
  fst (fst (_communicate denied_world (cookie_request (JStr SSO_URL_DEFAULT))
              with_broker))
  = decode_payload
      (reply_payload ([x00; x00; x00] ++ map byte_of_N (json_dumps_compact denied))).
Proof.
  apply (whitespace_prefix_shifts_reply denied_world
           (cookie_request (JStr SSO_URL_DEFAULT)) with_broker 0%nat
           (fun _ => framed_reply denied)
           (map byte_of_N (json_dumps (cookie_request (JStr SSO_URL_DEFAULT))))
           [x75; x00; x00; x00; x00; x00; x00; x00] x20);
    vm_compute; reflexivity.
Defined.

(** The framed reply [denied] is not decoded: the cut starts one byte
    into the JSON text. *)
Lemma framed_reply_of_32_bytes_is_lost :
  framed_reply denied
  = [x20; x00; x00; x00] ++ map byte_of_N (json_dumps_compact denied)
  /\ fst (fst (_communicate denied_world
                 (cookie_request (JStr SSO_URL_DEFAULT)) with_broker))
     = raise JSONDecodeError.
Proof. split; vm_compute; reflexivity. Qed.

(** ** How a run ends *)

Lemma session_step_turn w (st : state) :
  session_step w st
  = (received_message <- get_message w ;;
     with_iomutex (turn w received_message))%py st.
Proof. reflexivity. Qed.

(** Once the command has been read and is a string, the turn returns:
    whatever the handler raises is caught, and the handler of the
    [except] clause cannot fail. *)
Lemma string_command_turn_returns w (st0 : state) (msg : json) (c : str) :
  iomutex st0 = false ->
  getitem msg (py "command") = Ok (JStr c) ->
  exists st1 ev, with_iomutex (turn w msg) st0 = (Ok tt, st1, ev).
Proof.
  intros Hmu Hcmd. destruct (recognized c) eqn:Hrec.
  - destruct (turn_one_frame w st0 msg c Hmu Hcmd Hrec)
      as (message & enc & st1 & ev & _ & Hrun & _).
    now exists st1, ev.
  - exists (set_iomutex false (set_iomutex true st0)),
           (turn_events c [log_handle c]).
    apply turn_returns; [exact Hmu | exact Hcmd |].
    now apply handle_unrecognized.
Qed.

Lemma turn_aborts w (st0 st1 : state) (msg : json) (why : abort)
      (ev : list event) :
  iomutex st0 = false ->
  with_iomutex (turn w msg) st0 = (Abort why, st1, ev) ->
  (why = Exc KeyError \/ why = Exc TypeError) /\ stdout_of ev = [].
Proof.
  intros Hmu H.
  destruct (getitem msg (py "command")) as [cmd|r] eqn:Hcmd.
  - destruct (is_str cmd) eqn:Hs.
    + destruct cmd; try discriminate.
      destruct (string_command_turn_returns w st0 msg _ Hmu Hcmd)
        as (st2 & ev2 & Hret).
      rewrite Hret in H. discriminate.
    + unfold with_iomutex, turn in H. rewrite Hmu in H.
      unfold bind at 1 in H. unfold lift at 1 in H. rewrite Hcmd in H.
      unfold bind at 1 in H. unfold log_debug_add at 1 in H.
      unfold bind at 1 in H. unfold lift at 1 in H.
      destruct cmd; try discriminate; cbn [str_add] in H;
        injection H as <- <- <-; split; auto.
  - unfold with_iomutex, turn in H. rewrite Hmu in H.
    unfold bind at 1 in H. unfold lift at 1 in H. rewrite Hcmd in H.
    assert (Hr : r = Exc KeyError \/ r = Exc TypeError).
    { unfold getitem in Hcmd. destruct msg; try (injection Hcmd as <-; auto).
      destruct (dict_get _ _); [discriminate | injection Hcmd as <-; auto]. }
    destruct Hr as [-> | ->]; injection H as <- <- <-; split; auto.
Qed.

Lemma get_message_aborts w (st st1 : state) (why : abort) (ev : list event) :
  get_message w st = (Abort why, st1, ev) ->
  ev = []
  /\ ((why = SystemExit 0 /\ stdin st = [] /\ stdin st1 = [])
      \/ why = Exc StructError \/ why = Exc UnicodeDecodeError
      \/ why = Exc JSONDecodeError).
Proof.
  intros H. destruct (get_message_silent _ _ _ _ _ H) as (-> & _).
  split; [reflexivity|].
  destruct (stdin st) as [|b0 input] eqn:Ein.
  - rewrite (get_message_eof w st Ein) in H. injection H as <- <-. auto.
  - destruct (Nat.lt_ge_cases (length (stdin st)) 4) as [Hlt|Hge].
    + rewrite get_message_short_prefix in H
        by (rewrite Ein in *; cbn [length] in *; lia).
      injection H as <- <-. auto.
    + destruct (get_message_framed w st Hge) as (n & _ & Hget).
      rewrite Hget in H.
      destruct (decode_payload_cases (payload_read n (stdin st)))
        as [[v Hv]|[Hv|Hv]]; rewrite Hv in H;
        [discriminate | injection H as <- <- | injection H as <- <-]; auto.
Qed.

Lemma session_step_aborts w (st st1 : state) (why : abort) (ev : list event) :
  iomutex st = false ->
  session_step w st = (Abort why, st1, ev) ->
  In why exit_reasons /\ (why = SystemExit 0 -> stdin st1 = [])
  /\ stdout_of ev = [].
Proof.
  intros Hmu H. rewrite session_step_turn in H. unfold bind in H.
  destruct (get_message w st) as [[[msg|r] st0] ev0] eqn:Eg.
  - destruct (get_message_silent _ _ _ _ _ Eg) as (-> & Hmu0 & _).
    rewrite Hmu in Hmu0.
    destruct (with_iomutex (turn w msg) st0) as [[r2 st2] ev2] eqn:Et.
    injection H as -> <- <-.
    destruct (turn_aborts w _ _ _ _ _ Hmu0 Et) as ([-> | ->] & Hout);
      (split; [cbn; tauto | split; [discriminate | exact Hout]]).
  - injection H as <- <- <-.
    destruct (get_message_aborts w _ _ _ _ Eg)
      as (-> & [(-> & _ & Hend) | [-> | [-> | ->]]]);
      (split; [cbn; tauto | split; [try discriminate; auto | reflexivity]]).
Qed.

Lemma session_loop_ends w (fuel : nat) :
  forall (st st' : state) (why : abort) (evs : list event),
    iomutex st = false ->
    session_loop w fuel st = Some (why, st', evs) ->
    In why exit_reasons /\ (why = SystemExit 0 -> stdin st' = []).
Proof.
  induction fuel as [|fuel IH]; intros st st' why evs Hmu H; [discriminate|].
  cbn [session_loop] in H.
  destruct (session_step w st) as [[[[]|e] st1] ev1] eqn:Es.
  - destruct (session_step_disciplined _ _ _ _ _ Hmu Es) as (_ & Hmu1 & _).
    destruct (session_loop w fuel st1) as [[[why2 st2] ev2]|] eqn:El;
      [|discriminate].
    injection H as <- <- <-. exact (IH _ _ _ _ Hmu1 El).
  - injection H as <- <- <-.
    destruct (session_step_aborts w _ _ _ _ Hmu Es) as (Hin & Hend & _).
    now split.
Qed.



(** ** Each broker process is used once *)

Lemma input_handles_app (a b : list event) :
  input_handles (a ++ b) = input_handles a ++ input_handles b.
Proof.
  induction a as [|x a IH]; [reflexivity|].
  destruct x; cbn [app input_handles]; rewrite ?IH; reflexivity.
Qed.

Lemma climbs_weaken (l : list nat) :
  forall a a' b, (a' <= a)%nat -> climbs a l b -> climbs a' l b.
Proof.
  destruct l as [|h l]; cbn [climbs]; intros a a' b Hle H; [lia|].
  split; [lia | tauto].
Qed.

Lemma climbs_app (l1 : list nat) :
  forall a b c l2, climbs a l1 b -> climbs b l2 c -> climbs a (l1 ++ l2) c.
Proof.
  induction l1 as [|h l1 IH]; cbn [climbs app]; intros a b c l2 H1 H2.
  - now apply (climbs_weaken l2 b).
  - destruct H1 as [Hh H1]. split; [exact Hh|]. now apply (IH _ b).
Qed.

Lemma climbs_bounds (l : list nat) :
  forall a b, climbs a l b -> Forall (fun h => (a <= h < b)%nat) l.
Proof.
  induction l as [|h l IH]; cbn [climbs]; intros a b H; [constructor|].
  destruct H as [Hh H]. pose proof (IH _ _ H) as Hl.
  assert (Hb : (S h <= b)%nat).
  { clear - H. revert h H. induction l as [|x l IHl]; cbn [climbs]; intros h H;
      [exact H|]. destruct H as [Hx H]. specialize (IHl _ H). lia. }
  constructor; [lia|].
  eapply Forall_impl; [|exact Hl]. cbn. intros; lia.
Qed.

Lemma climbs_sorted (l : list nat) :
  forall a b, climbs a l b -> StronglySorted lt l.
Proof.
  induction l as [|h l IH]; cbn [climbs]; intros a b H; constructor.
  - destruct H as [_ H]. exact (IH _ _ H).
  - destruct H as [_ H]. pose proof (climbs_bounds _ _ _ H) as Hl.
    eapply Forall_impl; [|exact Hl]. cbn. intros; lia.
Qed.

(** A computation that neither touches the broker nor feeds one. *)
Lemma orderly_still w {A} (m : M A) :
  (forall st r st1 ev, m st = (r, st1, ev) ->
     broker st1 = broker st /\ spawned st1 = spawned st
     /\ input_handles ev = []) ->
  orderly w m.
Proof.
  intros Hm st r st1 ev Hlive H. destruct (Hm _ _ _ _ H) as (Hb & Hs & ->).
  unfold holds_live, fresh in *. rewrite Hb, Hs. cbn [climbs]. split; [exact Hlive | lia].
Qed.

Lemma orderly_ret w {A} (a : A) : orderly w (ret a).
Proof. apply orderly_still. intros st r st1 ev H. now injection H as <- <- <-. Qed.

Lemma orderly_lift w {A} (r : result A) : orderly w (lift r).
Proof. apply orderly_still. intros st r' st1 ev H. now injection H as <- <- <-. Qed.

Lemma orderly_emit w (e : event) : input_handles [e] = [] -> orderly w (emit e).
Proof.
  intros He. apply orderly_still. intros st r st1 ev H.
  now injection H as <- <- <-.
Qed.

Lemma orderly_log w lvl text arg : orderly w (log lvl text arg).
Proof. now apply orderly_emit. Qed.

Lemma orderly_sys_exit w {A} (code : Z) : orderly w (@sys_exit A code).
Proof. apply orderly_still. intros st r st1 ev H. now injection H as <- <- <-. Qed.

Lemma orderly_stdin_read w (n : N) : orderly w (stdin_read n).
Proof. apply orderly_still. intros st r st1 ev H. now injection H as <- <- <-. Qed.

Lemma orderly_bind w {A B} (m : M A) (f : A -> M B) :
  orderly w m -> (forall a, orderly w (f a)) -> orderly w (bind m f).
Proof.
  intros Hm Hf st r st2 ev Hlive H. unfold bind in H.
  destruct (m st) as [[[a|e] st1] ev1] eqn:Em.
  - destruct (f a st1) as [[r2 st2'] ev2] eqn:Ef. injection H as <- <- <-.
    destruct (Hm _ _ _ _ Hlive Em) as (L1 & C1).
    destruct (Hf a _ _ _ _ L1 Ef) as (L2 & C2).
    split; [exact L2|]. rewrite input_handles_app.
    now apply (climbs_app _ _ (fresh st1)).
  - injection H as <- <- <-. exact (Hm _ _ _ _ Hlive Em).
Qed.

Lemma orderly_try_except w {A} (body : M A) (handler : exception -> M A) :
  orderly w body -> (forall e, orderly w (handler e)) ->
  orderly w (try_except body handler).
Proof.
  intros Hb Hh st r st2 ev Hlive H. unfold try_except in H.
  destruct (body st) as [[[a|[e| |]] st1] ev1] eqn:Eb;
    try (injection H as <- <- <-; exact (Hb _ _ _ _ Hlive Eb)).
  destruct (handler e st1) as [[r2 st2'] ev2] eqn:Eh. injection H as <- <- <-.
  destruct (Hb _ _ _ _ Hlive Eb) as (L1 & C1).
  destruct (Hh e _ _ _ _ L1 Eh) as (L2 & C2).
  split; [exact L2|]. rewrite input_handles_app.
  now apply (climbs_app _ _ (fresh st1)).
Qed.

Lemma orderly_with_iomutex w {A} (body : M A) :
  orderly w body -> orderly w (with_iomutex body).
Proof.
  intros Hb st r st2 ev Hlive H. unfold with_iomutex in H.
  destruct (iomutex st).
  - injection H as <- <- <-. split; [exact Hlive|]. cbn [input_handles climbs]. lia.
  - destruct (body (set_iomutex true st)) as [[r1 st1] ev1] eqn:Eb.
    destruct (Hb (set_iomutex true st) _ _ _ Hlive Eb) as (L1 & C1).
    change (fresh (set_iomutex true st)) with (fresh st) in C1.
    assert (Hev : input_handles (EvAcquire :: ev1 ++ [EvRelease])
                  = input_handles ev1)
      by (cbn [input_handles]; rewrite input_handles_app; cbn; apply app_nil_r).
    destruct r1 as [a|[e|code|]]; injection H as <- <- <-;
      first [ rewrite Hev | cbn [input_handles] ]; split; assumption.
Qed.

Lemma orderly_log_debug_add w prefix v : orderly w (log_debug_add prefix v).
Proof.
  unfold log_debug_add. apply orderly_bind; [apply orderly_lift|].
  intros text. apply orderly_log.
Qed.

Lemma orderly_introspect w : orderly w (_introspect_broker w).
Proof.
  intros st r st1 ev Hlive H. unfold _introspect_broker in H.
  unfold holds_live, fresh in *.
  destruct (broker st) as [n|] eqn:Eb.
  - injection H as <- <- <-. rewrite Eb. cbn [input_handles climbs].
    split; [exact Hlive | lia].
  - destruct (broker_process w (spawned st)) as [run|] eqn:Ep;
      injection H as <- <- <-; cbn [broker spawned set_broker set_spawned
                                     input_handles climbs].
    + split; [|lia]. split; [lia | congruence].
    + rewrite Eb. split; [exact I | lia].
Qed.

(** What [_communicate] does with the reply: the handle is dropped
    first, then the reply is logged and decoded. *)
Lemma drop_and_decode (stdout : bytes) (st st1 : state) (r : result json)
      (ev : list event) :
  ((fun st => (Ok tt, set_broker None st, [])) ;;
   log DEBUG (py "rcvd raw: ") (StrOfBytes stdout) ;;
   resp <- lift (utf8_decode (skipn 4 (bytes_strip stdout))) ;;
   lift (json_loads resp))%py st = (r, st1, ev) ->
  st1 = set_broker None st /\ input_handles ev = [] /\ broker_inputs ev = [].
Proof.
  unfold bind, log, emit, lift.
  destruct (utf8_decode _) as [t|e]; [destruct (json_loads t)|];
    intros H; injection H as <- <- <-; repeat split; reflexivity.
Qed.

(** [_communicate] feeds the process held and lets go of it. *)
Lemma orderly_communicate w (msg : json) : orderly w (_communicate w msg).
Proof.
  unfold _communicate.
  apply orderly_bind; [apply orderly_lift|]. intros payload.
  apply orderly_bind; [apply orderly_lift|]. intros size.
  intros st r st1 ev Hlive H. unfold bind at 1 in H.
  unfold broker_communicate at 1 in H. unfold holds_live, fresh in *.
  destruct (broker st) as [n|] eqn:Eb.
  - destruct Hlive as [Hn Hp].
    destruct (broker_process w n) as [run|]; [|now elim Hp].
    match type of H with
    | context [bind ?m ?f st] =>
      destruct (bind m f st) as [[r2 st2] ev2] eqn:Et
    end.
    injection H as <- <- <-.
    destruct (drop_and_decode _ _ _ _ _ Et) as (-> & Hev & _).
    cbn [app input_handles broker spawned set_broker climbs]. rewrite Hev.
    cbn [climbs]. split; [exact I | lia].
  - injection H as <- <- <-. rewrite Eb. cbn [input_handles climbs].
    split; [exact I | lia].
Qed.

Lemma orderly_acquire_prt_sso_cookie w account sso_url :
  orderly w (acquire_prt_sso_cookie w account sso_url).
Proof.
  unfold acquire_prt_sso_cookie.
  repeat (first
    [ apply orderly_ret
    | apply orderly_log
    | apply orderly_log_debug_add
    | apply orderly_introspect
    | apply orderly_communicate
    | apply orderly_lift
    | apply orderly_bind; [|intros ?]
    | match goal with |- orderly _ (if ?b then _ else _) => destruct b end ]).
Qed.

Lemma orderly_send_message w (enc : encoded_message) : orderly w (send_message enc).
Proof.
  unfold send_message, stdout_write, stdout_flush.
  repeat (apply orderly_bind; [|intros ?]); now apply orderly_emit.
Qed.

Lemma orderly_respond w command message : orderly w (respond w command message).
Proof.
  unfold respond.
  apply orderly_bind; [apply orderly_log_debug_add|]. intros _.
  apply orderly_bind; [apply orderly_lift|]. intros enc.
  apply orderly_send_message.
Qed.

Lemma orderly_handle_command w cmd msg : orderly w (handle_command w cmd msg).
Proof.
  unfold handle_command.
  repeat (first
    [ apply orderly_ret
    | apply orderly_respond
    | apply orderly_log_debug_add
    | apply orderly_acquire_prt_sso_cookie
    | apply orderly_lift
    | apply orderly_bind; [|intros ?]
    | match goal with |- orderly _ (if ?b then _ else _) => destruct b end ]).
Qed.

Lemma orderly_get_message w : orderly w (get_message w).
Proof.
  apply orderly_still. intros st r st1 ev H.
  destruct (get_message_silent _ _ _ _ _ H) as (-> & _ & Hb & Hs). auto.
Qed.

Lemma orderly_session_step w : orderly w (session_step w).
Proof.
  unfold session_step.
  apply orderly_bind; [apply orderly_get_message|]. intros msg.
  apply orderly_with_iomutex.
  apply orderly_bind; [apply orderly_lift|]. intros cmd.
  apply orderly_bind; [apply orderly_log_debug_add|]. intros _.
  apply orderly_try_except; [apply orderly_handle_command|]. intros e.
  apply orderly_bind; [apply orderly_log | intros _; apply orderly_respond].
Qed.

Lemma orderly_session_loop w (fuel : nat) :
  forall st why st' evs,
    holds_live w st ->
    session_loop w fuel st = Some (why, st', evs) ->
    climbs (fresh st) (input_handles evs) (fresh st').
Proof.
  induction fuel as [|fuel IH]; intros st why st' evs Hlive H; [discriminate|].
  cbn [session_loop] in H.
  destruct (session_step w st) as [[[[]|e] st1] ev1] eqn:Es;
    destruct (orderly_session_step w _ _ _ _ Hlive Es) as (L1 & C1).
  - destruct (session_loop w fuel st1) as [[[why2 st2] ev2]|] eqn:El;
      [|discriminate].
    injection H as <- <- <-. rewrite input_handles_app.
    apply (climbs_app _ _ (fresh st1)); [exact C1|]. exact (IH _ _ _ _ L1 El).
  - injection H as <- <- <-. exact C1.
Qed.

Lemma orderly_startup w : orderly w (startup w).
Proof.
  unfold startup, SsoMib_init, notify_state_change.
  repeat (first
    [ apply orderly_log
    | apply orderly_introspect
    | apply orderly_respond
    | apply orderly_with_iomutex
    | apply orderly_emit; reflexivity
    | apply orderly_still; intros st r st1 ev H; now injection H as <- <- <-
    | apply orderly_bind; [|intros ?] ]).
Qed.

(** X11 -- Each broker process is used once.  In every run of the
    native-messaging process, the processes that are given input come
    in strictly increasing order of their start: no process that
    [communicate] has been called on is called again, because
    [_communicate] sets [self.broker] to [None] and the next request
    starts a new one. *)
Theorem broker_used_once w (input : bytes) (fuel : nat) :
  StronglySorted lt
    (input_handles (trace_of (run_as_native_messaging w fuel (initial input))))
  /\ NoDup
       (input_handles (trace_of (run_as_native_messaging w fuel (initial input)))).
Proof.
  assert (C : exists b,
             climbs 0 (input_handles
                         (trace_of (run_as_native_messaging w fuel
                                      (initial input)))) b).
  { unfold run_as_native_messaging.
    destruct (startup w (initial input)) as [[[[]|e] st1] ev1] eqn:Es;
      destruct (orderly_startup w (initial input) _ _ _ I Es) as (L1 & C1).
    - destruct (session_loop w fuel st1) as [[[why st2] ev2]|] eqn:El.
      + exists (fresh st2). cbn [trace_of]. rewrite input_handles_app.
        apply (climbs_app _ _ (fresh st1)); [exact C1|].
        exact (orderly_session_loop w fuel _ _ _ _ L1 El).
      + exists 0%nat. cbn. lia.
    - exists (fresh st1). exact C1. }
  destruct C as [b C]. pose proof (climbs_sorted _ _ _ C) as S.
  split; [exact S|].
  clear C. induction S as [|h l S IH Hh]; constructor; [|exact IH].
  intros Hin. rewrite Forall_forall in Hh. specialize (Hh _ Hin). lia.
Qed.

(** Two cookie requests: the first goes to the process started with
    the bridge, the second to a new one. *)
Lemma two_requests_two_brokers :
  input_handles (trace_of (run_as_native_messaging sample_world 3
                             (initial two_cookie_requests)))
  = [0%nat; 1%nat].
Proof. vm_compute. reflexivity. Qed.

(** ** The interactive mode *)

Lemma escape_plain (c : codepoint) :
  32 <= c <= 126 -> c <> QUOTE -> c <> BACKSLASH -> escape_char c = [c].
Proof.
  unfold QUOTE, BACKSLASH. intros Hr Hq Hb. unfold escape_char.
  repeat match goal with
         | |- context [if ?a =? ?b then _ else _] =>
           destruct (N.eqb_spec a b); [unfold QUOTE, BACKSLASH in *; lia|]
         end.
  destruct (N.leb_spec 32 c); [|lia].
  destruct (N.leb_spec c 126); [reflexivity | lia].
Qed.

Lemma escape_digits (u : Decimal.uint) :
  flat_map escape_char (str_of_uint u) = str_of_uint u.
Proof.
  induction u; cbn [str_of_uint flat_map]; rewrite ?IHu; reflexivity.
Qed.

Lemma escape_int_repr (z : Z) : flat_map escape_char (int_repr z) = int_repr z.
Proof.
  destruct z; cbn [int_repr flat_map]; rewrite ?escape_digits; reflexivity.
Qed.

(** [json.dump({"error": f"invalid account index {idx}"}, indent=2)]. *)
Lemma invalid_account_dump (idx : Z) :
  dumps_indent 0 (invalid_account_index idx) = invalid_account_text idx.
Proof.
  unfold invalid_account_index, invalid_account_text.
  cbn [dumps_indent map join fst snd]. unfold encode_basestring_ascii.
  rewrite flat_map_app, escape_int_repr.
  cbn. rewrite <- !app_assoc. reflexivity.
Qed.

Lemma invalid_account_text_ascii (idx : Z) :
  Forall is_ascii (invalid_account_text idx).
Proof.
  unfold invalid_account_text.
  repeat (apply Forall_app; split);
    try apply int_repr_ascii; repeat constructor.
Qed.

Lemma list_index_in_range (l : list json) (idx : Z) :
  index_in_range l idx = true ->
  exists a,
    list_index l idx = Ok a
    /\ nth_error l (Z.to_nat (idx mod Z.of_nat (length l))) = Some a.
Proof.
  unfold index_in_range, list_index. intros H.
  apply andb_true_iff in H as [Hlo Hhi]. apply Z.leb_le in Hlo.
  apply Z.ltb_lt in Hhi. cbv zeta.
  set (n := Z.of_nat (length l)) in *.
  assert (Hi : (if (idx <? 0)%Z then (idx + n)%Z else idx) = (idx mod n)%Z).
  { destruct (Z.ltb_spec idx 0).
    - apply (Z.mod_unique _ _ (-1)); lia.
    - symmetry. apply Z.mod_small. lia. }
  rewrite Hi.
  assert (Hr : (0 <= idx mod n < n)%Z) by (apply Z.mod_pos_bound; lia).
  destruct (Z.leb_spec 0 (idx mod n)); [|lia].
  destruct (Z.ltb_spec (idx mod n) n); [|lia]. cbn [andb].
  destruct (nth_error l (Z.to_nat (idx mod n))) as [a|] eqn:E; [eauto|].
  apply nth_error_None in E. subst n. lia.
Qed.

Lemma list_index_out_of_range (l : list json) (idx : Z) :
  index_in_range l idx = false -> list_index l idx = raise IndexError.
Proof.
  unfold index_in_range, list_index. intros H. cbv zeta.
  apply andb_false_iff in H. rewrite Z.leb_gt, Z.ltb_ge in H.
  set (n := Z.of_nat (length l)) in *.
  destruct (Z.ltb_spec idx 0).
  - destruct (Z.leb_spec 0 (idx + n)); [|reflexivity].
    destruct (Z.ltb_spec (idx + n) n); [lia | reflexivity].
  - destruct (Z.leb_spec 0 idx); [|lia].
    destruct (Z.ltb_spec idx n); [lia | reflexivity].
Qed.

(** X12 -- Choosing the account in interactive mode.  For accounts
    [{"accounts": l}] and every integer index: an index in
    [-len(l) <= idx < len(l)] selects the element Python's indexing
    selects, printing nothing; any other index prints
    [{"error": "invalid account index <idx>"}] over three lines, then a
    line end, and exits with status 1.  The state is the same either
    way: no broker is started. *)
Theorem get_account_index (l : list json) (idx : Z) (st : state) :
  _get_account (JDict [(py "accounts", JList l)]) idx st
  = if index_in_range l idx
    then (Ok (nth (Z.to_nat (idx mod Z.of_nat (length l))) l JNull), st, [])
    else invalid_account_exit idx st.
Proof.
  unfold _get_account. unfold bind at 1. unfold lift at 1.
  change (getitem (JDict [(py "accounts", JList l)]) (py "accounts"))
    with (@Ok json (JList l)).
  unfold lift at 1. cbn [getitem_int app].
  destruct (index_in_range l idx) eqn:Hr.
  - destruct (list_index_in_range l idx Hr) as (a & -> & Hn).
    now rewrite (nth_error_nth _ _ JNull Hn).
  - rewrite (list_index_out_of_range l idx Hr). unfold raise.
    unfold json_dump_stdout, print_newline, stdout_text, sys_exit,
      stdout_write, bind, lift, emit.
    rewrite invalid_account_dump.
    rewrite (utf8_encode_ascii _ (invalid_account_text_ascii idx)).
    reflexivity.
Qed.

Lemma builtin_account (idx : Z) (st : state) :
  _get_account get_accounts idx st
  = if selects_builtin idx then (Ok windows_user, st, [])
    else invalid_account_exit idx st.
Proof.
  unfold _get_account. unfold bind at 1. unfold lift at 1.
  change (getitem get_accounts (py "accounts"))
    with (@Ok json (JList [windows_user])).
  unfold lift at 1. cbn [getitem_int app].
  unfold selects_builtin.
  destruct (Z.eqb_spec idx 0) as [->|H0]; [reflexivity|].
  destruct (Z.eqb_spec idx (-1)) as [->|H1]; [reflexivity|].
  rewrite list_index_out_of_range.
  - unfold raise.
    unfold json_dump_stdout, print_newline, stdout_text, sys_exit,
      stdout_write, bind, lift, emit.
    rewrite invalid_account_dump.
    rewrite (utf8_encode_ascii _ (invalid_account_text_ascii idx)).
    reflexivity.
  - unfold index_in_range. cbn [length]. apply andb_false_iff.
    rewrite Z.leb_gt, Z.ltb_ge. lia.
Qed.

Lemma broker_inputs_quiet (ev : list event) :
  forallb no_broker_event ev = true -> broker_inputs ev = [].
Proof.
  induction ev as [|x ev IH]; [reflexivity|]. cbn [forallb].
  intros H. apply andb_true_iff in H as [Hx Hr].
  destruct x; try discriminate; cbn [broker_inputs]; auto.
Qed.

(** X13 -- Interactive commands that need no broker.  In interactive
    mode every command other than [acquirePrtSsoCookie] leaves the
    state as it was and involves no broker process: nothing is started
    and nothing is given input.  [getAccounts] prints the built-in
    account list and [getVersion] the version record, whatever the
    account index; [acquireTokenSilently] prints
    [{"error": "not implemented"}] when the index is 0 or -1 and
    otherwise the invalid-index error, ending with status 1; any other
    command, [monitor] included, prints one empty line. *)
Theorem interactive_without_broker w (args : arguments) (st : state) :
  arg_command args <> py "acquirePrtSsoCookie" ->
  run_interactive w args st
  = if str_eqb (arg_command args) (py "getAccounts") then
      (Ok tt, st, printed get_accounts)
    else if str_eqb (arg_command args) (py "getVersion") then
      (Ok tt, st, printed get_broker_version)
    else if str_eqb (arg_command args) (py "acquireTokenSilently") then
      if selects_builtin (arg_account args)
      then (Ok tt, st, printed not_implemented)
      else (Abort (SystemExit 1), st,
            [EvWrite (map byte_of_N (invalid_account_text (arg_account args)));
             EvWrite [x0a]])
    else (Ok tt, st, [EvWrite [x0a]]).
Proof.
  intros Hc. apply str_eqb_neq in Hc. unfold run_interactive.
  rewrite Hc.
  destruct (str_eqb (arg_command args) (py "getAccounts"));
    [vm_compute; reflexivity|].
  destruct (str_eqb (arg_command args) (py "getVersion"));
    [vm_compute; reflexivity|].
  destruct (str_eqb (arg_command args) (py "acquireTokenSilently"));
    [|vm_compute; reflexivity].
  unfold bind at 1. cbn [SsoMib_init ret].
  unfold bind at 1. unfold lift at 1.
  change (getitem get_accounts (py "accounts"))
    with (@Ok json (JList [windows_user])).
  unfold bind at 1. unfold lift at 1. cbn [len length].
  change (N.of_nat 1 =? 0) with false. cbv iota.
  unfold bind at 1. cbn [ret].
  unfold bind at 1. unfold bind at 1.
  rewrite builtin_account.
  destruct (selects_builtin (arg_account args)); vm_compute; reflexivity.
Qed.

Lemma interactive_without_broker_sample :
  run_interactive sample_world (mkArguments (py "monitor") 7 []) (initial [])
  = (Ok tt, initial [], [EvWrite [x0a]]).
Proof.
  apply (interactive_without_broker sample_world
           (mkArguments (py "monitor") 7 []) (initial [])).
  vm_compute. discriminate.
Defined.

Lemma untouched_ret {A} (a : A) : untouched (ret a).
Proof. intros st r st1 ev H. now injection H as <- <- <-. Qed.

Lemma untouched_lift {A} (r : result A) : untouched (lift r).
Proof. intros st r' st1 ev H. now injection H as <- <- <-. Qed.

Lemma untouched_emit (e : event) : no_broker_event e = true -> untouched (emit e).
Proof.
  intros He st r st1 ev H. injection H as <- <- <-. cbn [forallb].
  now rewrite He.
Qed.

Lemma untouched_log lvl text arg : untouched (log lvl text arg).
Proof. now apply untouched_emit. Qed.

Lemma untouched_bind {A B} (m : M A) (f : A -> M B) :
  untouched m -> (forall a, untouched (f a)) -> untouched (bind m f).
Proof.
  intros Hm Hf st r st2 ev H. unfold bind in H.
  destruct (m st) as [[[a|e] st1] ev1] eqn:Em.
  - destruct (f a st1) as [[r2 st2'] ev2] eqn:Ef. injection H as <- <- <-.
    destruct (Hm _ _ _ _ Em) as (-> & Q1).
    destruct (Hf a _ _ _ _ Ef) as (-> & Q2).
    split; [reflexivity|]. now rewrite forallb_app, Q1, Q2.
  - injection H as <- <- <-. exact (Hm _ _ _ _ Em).
Qed.

Lemma untouched_stdout_text (s : str) : untouched (stdout_text s).
Proof.
  unfold stdout_text, stdout_write.
  apply untouched_bind; [apply untouched_lift|]. intros b.
  now apply untouched_emit.
Qed.

Lemma untouched_pick_cookie (resp : json) : untouched (pick_cookie resp).
Proof.
  unfold pick_cookie.
  repeat (first
    [ apply untouched_ret
    | apply untouched_log
    | apply untouched_lift
    | apply untouched_bind; [|intros ?]
    | match goal with |- untouched (if ?b then _ else _) => destruct b end ]).
Qed.

Lemma untouched_inputs {A} (m : M A) (st : state) :
  untouched m -> broker_inputs (snd (m st)) = [].
Proof.
  intros Hm. destruct (m st) as [[r st1] ev] eqn:Em.
  destruct (Hm _ _ _ _ Em) as (_ & Q). now apply broker_inputs_quiet.
Qed.

(** The broker inputs of [m ;; f] are those of [m], then those of [f]. *)
Lemma broker_inputs_bind {A B} (m : M A) (f : A -> M B) (st : state) :
  broker_inputs (snd (bind m f st))
  = broker_inputs (snd (m st))
    ++ match m st with
       | (Ok a, st1, _) => broker_inputs (snd (f a st1))
       | (Abort _, _, _) => []
       end.
Proof.
  unfold bind. destruct (m st) as [[[a|e] st1] ev1]; cbn [snd].
  - destruct (f a st1) as [[r2 st2] ev2]. cbn [snd]. apply broker_inputs_app.
  - now rewrite app_nil_r.
Qed.

Lemma broker_inputs_then_untouched {A B} (m : M A) (f : A -> M B) (st : state) :
  (forall a, untouched (f a)) ->
  broker_inputs (snd (bind m f st)) = broker_inputs (snd (m st)).
Proof.
  intros Hf. rewrite broker_inputs_bind.
  destruct (m st) as [[[a|e] st1] ev1]; cbn [snd];
    rewrite ?untouched_inputs by apply Hf; apply app_nil_r.
Qed.

(** The broker inputs of [acquire_prt_sso_cookie] when no broker is
    held and the next one starts. *)
Lemma acquire_inputs w (account : json) (u : str) (st : state)
      (run : bytes -> bytes) (payload size : bytes) :
  broker st = None ->
  broker_process w (spawned st) = Some run ->
  utf8_encode (json_dumps (cookie_request (JStr u))) = Ok payload ->
  pack_L (host w) (N.of_nat (length payload)) = Ok size ->
  broker_inputs (snd (acquire_prt_sso_cookie w account (JStr u) st))
  = [size ++ payload].
Proof.
  intros Hb Hrun Hpay Hsize. rewrite acquire_unfold.
  rewrite broker_inputs_bind.
  change (log_debug_add (py "acquire for ") (JStr u) st)
    with (Ok tt, st, [log_acquire u]).
  cbn [snd broker_inputs log_acquire app].
  rewrite broker_inputs_bind.
  assert (Hi : _introspect_broker w st
               = (Ok tt, set_broker (Some (spawned st))
                           (set_spawned (S (spawned st)) st),
                  [EvPopen (spawned st) true])).
  { unfold _introspect_broker. now rewrite Hb, Hrun. }
  rewrite Hi. cbn [snd broker_inputs app].
  rewrite broker_inputs_then_untouched by apply untouched_pick_cookie.
  now apply (communicate_input w _ _ (spawned st) run payload size).
Qed.

(** X14 -- The URL of the interactive mode.  In interactive mode, an
    [acquirePrtSsoCookie] command for the built-in account (index 0 or
    -1) starts one broker and sends it one request: the frame of
    [{"method": "GetCookies", "sender": ..., "uri": ssoUrl}] with the
    [ssoUrl] argument exactly as given.  There is no [or] here: an
    empty [--ssoUrl] reaches the broker as [""], where the
    native-messaging mode would put the default URL. *)
Theorem interactive_sso_url_verbatim w (idx : Z) (u : str) (st : state)
        (run : bytes -> bytes) (payload size : bytes) :
  selects_builtin idx = true ->
  broker st = None ->
  broker_process w (spawned st) = Some run ->
  utf8_encode (json_dumps (cookie_request (JStr u))) = Ok payload ->
  pack_L (host w) (N.of_nat (length payload)) = Ok size ->
  broker_inputs
    (snd (run_interactive w (mkArguments (py "acquirePrtSsoCookie") idx u) st))
  = [size ++ payload].
Proof.
  intros Hidx Hb Hrun Hpay Hsize. unfold run_interactive.
  cbn [arg_command arg_account arg_ssoUrl].
  change (str_eqb (py "acquirePrtSsoCookie") (py "getAccounts")) with false.
  change (str_eqb (py "acquirePrtSsoCookie") (py "getVersion")) with false.
  change (str_eqb (py "acquirePrtSsoCookie") (py "acquirePrtSsoCookie"))
    with true.
  cbv iota.
  rewrite broker_inputs_bind. cbn [SsoMib_init ret snd broker_inputs app].
  rewrite broker_inputs_bind.
  change (getitem get_accounts (py "accounts"))
    with (@Ok json (JList [windows_user])).
  cbn [lift snd broker_inputs app].
  rewrite broker_inputs_bind. cbn [len length lift snd broker_inputs app].
  change (N.of_nat 1 =? 0) with false. cbv iota.
  rewrite broker_inputs_bind. cbn [ret snd broker_inputs app].
  rewrite broker_inputs_then_untouched
    by (intros _; apply untouched_stdout_text).
  rewrite broker_inputs_bind, builtin_account, Hidx.
  cbn [snd broker_inputs app].
  rewrite broker_inputs_then_untouched
    by (intros cookie; apply untouched_stdout_text).
  now apply (acquire_inputs w windows_user u st run payload size).
Qed.

Lemma interactive_sso_url_sample :
  broker_inputs
    (snd (run_interactive sample_world
            (mkArguments (py "acquirePrtSsoCookie") (-1) []) (initial [])))
  = [[x53; x00; x00; x00; x00; x00; x00; x00]
     ++ map byte_of_N (json_dumps (cookie_request (JStr [])))].
Proof.
  apply (interactive_sso_url_verbatim sample_world (-1) [] (initial [])
           (fun _ => framed_reply x_anon_cookies));
    vm_compute; reflexivity.
Defined.

(** The same empty URL in a native-messaging request: the broker is
    asked for the default URL. *)
Lemma native_empty_sso_url_uses_default :
  broker_inputs
    (snd (handle_command sample_world (JStr (py "acquirePrtSsoCookie"))
            (cookie_request_for windows_user (JStr [])) (initial [])))
  = [[x75; x00; x00; x00; x00; x00; x00; x00]
     ++ map byte_of_N (json_dumps (cookie_request (JStr SSO_URL_DEFAULT)))].
Proof. vm_compute. reflexivity. Qed.

(** ** The frames written *)



(** ** A command that is not text *)

(** X16 -- A command that is not a string is fatal.  When the decoded
    message has a [command] that is not a [str] (a number, a list,
    [null]), ["received cmd " + cmd] raises [TypeError] inside
    [with iomutex:] and before the [try]: the lock is taken and
    released, nothing is written, and the loop ends with that
    exception; the frames that follow are never read. *)
Theorem non_string_command_is_fatal w (st st0 : state) (msg cmd : json) :
  get_message w st = (Ok msg, st0, []) ->
  iomutex st = false ->
  getitem msg (py "command") = Ok cmd ->
  is_str cmd = false ->
  forall fuel,
    session_loop w (S fuel) st
    = Some (Exc TypeError, st0, [EvAcquire; EvRelease]).
Proof.
  intros Hget Hfree Hcmd Hns fuel.
  apply session_loop_step_Abort.
  apply (non_string_command_ends_loop w st st0 msg cmd Hget Hfree Hcmd).
  intros c ->. discriminate.
Qed.

Lemma non_string_command_sample :
  session_loop sample_world 5
    (initial (inbound numeric_command ++ inbound version_request))
  = Some (Exc TypeError, initial (inbound version_request),
          [EvAcquire; EvRelease]).
Proof.
  refine (non_string_command_is_fatal sample_world
           (initial (inbound numeric_command ++ inbound version_request))
           (initial (inbound version_request)) numeric_command (JInt 1)
           _ _ _ _ 4%nat);
    vm_compute; reflexivity.
Defined.

(** ** The request for a cookie *)

Lemma untouched_respond w command message : untouched (respond w command message).
Proof.
  unfold respond, log_debug_add, send_message, stdout_write, stdout_flush.
  repeat (first
    [ apply untouched_log
    | apply untouched_lift
    | apply untouched_emit; reflexivity
    | apply untouched_bind; [|intros ?] ]).
Qed.

(** The broker inputs of [acquire_prt_sso_cookie], whether a broker is
    held or the next one has to start. *)
Lemma acquire_inputs_fresh w (account : json) (u : str) (st : state)
      (run : bytes -> bytes) (payload size : bytes) :
  broker_process w (fresh st) = Some run ->
  utf8_encode (json_dumps (cookie_request (JStr u))) = Ok payload ->
  pack_L (host w) (N.of_nat (length payload)) = Ok size ->
  broker_inputs (snd (acquire_prt_sso_cookie w account (JStr u) st))
  = [size ++ payload].
Proof.
  intros Hrun Hpay Hsize. unfold fresh in Hrun.
  destruct (broker st) as [n|] eqn:Hb;
    [|now apply (acquire_inputs w account u st run payload size)].
  rewrite acquire_unfold, broker_inputs_bind.
  change (log_debug_add (py "acquire for ") (JStr u) st)
    with (Ok tt, st, [log_acquire u]).
  cbn [snd broker_inputs log_acquire app].
  rewrite broker_inputs_bind.
  assert (Hi : _introspect_broker w st = (Ok tt, st, []))
    by (unfold _introspect_broker; now rewrite Hb).
  rewrite Hi. cbn [snd broker_inputs app].
  rewrite broker_inputs_then_untouched by apply untouched_pick_cookie.
  now apply (communicate_input w _ _ n run payload size).
Qed.

Lemma py_or_chosen_url (given : json) :
  is_str given || negb (truthy given) = true ->
  py_or given (JStr SSO_URL_DEFAULT) = JStr (chosen_url given).
Proof.
  unfold py_or, chosen_url.
  destruct given as [ | b | z | lit | [|c s] | l | d]; cbn [is_str truthy orb];
    try reflexivity; intros H; apply negb_true_iff in H; now rewrite H.
Qed.

(** X17 -- The request a native-messaging cookie command sends.  When
    an [acquirePrtSsoCookie] request has an account and an [ssoUrl]
    that is a string or falsy, and the broker held (or the next one to
    start) runs, the handler gives the broker exactly one input: the
    native [unsigned long] length and the JSON text of
    [{"method": "GetCookies", "sender": ..., "uri": url}], where [url]
    is the [ssoUrl] of the request, or the default when that is empty,
    [null], [0], [false] or an empty container. *)
Theorem native_cookie_request w (msg account given : json) (st : state)
        (run : bytes -> bytes) (payload size : bytes) :
  getitem msg (py "account") = Ok account ->
  getitem msg (py "ssoUrl") = Ok given ->
  is_str given || negb (truthy given) = true ->
  broker_process w (fresh st) = Some run ->
  utf8_encode (json_dumps (cookie_request (JStr (chosen_url given)))) = Ok payload ->
  pack_L (host w) (N.of_nat (length payload)) = Ok size ->
  broker_inputs
    (snd (handle_command w (JStr (py "acquirePrtSsoCookie")) msg st))
  = [size ++ payload].
Proof.
  intros Ha Hg Hs Hrun Hpay Hsize. unfold handle_command.
  change (eq_str (JStr (py "acquirePrtSsoCookie")) (py "acquirePrtSsoCookie"))
    with true.
  cbv iota. rewrite broker_inputs_bind.
  change (log_debug_add (py "handle ") (JStr (py "acquirePrtSsoCookie")) st)
    with (Ok tt, st, [log_handle (py "acquirePrtSsoCookie")]).
  cbn [snd broker_inputs log_handle app].
  rewrite (bind_lift_Ok _ _ _ _ Ha), (bind_lift_Ok _ _ _ _ Hg).
  rewrite (py_or_chosen_url given Hs).
  rewrite broker_inputs_then_untouched by (intros t; apply untouched_respond).
  now apply (acquire_inputs_fresh w account _ st run payload size).
Qed.

Lemma native_cookie_request_sample :
  broker_inputs
    (snd (handle_command sample_world (JStr (py "acquirePrtSsoCookie"))
            (cookie_request_for windows_user JNull) with_broker))
  = [[x75; x00; x00; x00; x00; x00; x00; x00]
     ++ map byte_of_N (json_dumps (cookie_request (JStr SSO_URL_DEFAULT)))].
Proof.
  apply (native_cookie_request sample_world
           (cookie_request_for windows_user JNull) windows_user JNull
           with_broker (fun _ => framed_reply x_anon_cookies));
    vm_compute; reflexivity.
Defined.

(** ** The shape of a cookie result *)

Lemma untouched_log_debug_add prefix v : untouched (log_debug_add prefix v).
Proof.
  unfold log_debug_add. apply untouched_bind; [apply untouched_lift|].
  intros text. apply untouched_log.
Qed.

Lemma untouched_inputs_of {A} (m : M A) (st st1 : state) (r : result A)
      (ev : list event) :
  m st = (r, st1, ev) -> untouched m -> broker_inputs ev = [].
Proof.
  intros H Hm. destruct (Hm _ _ _ _ H) as (_ & Q).
  now apply broker_inputs_quiet.
Qed.

Lemma introspect_no_input w (st st1 : state) (r : result unit)
      (ev : list event) :
  _introspect_broker w st = (r, st1, ev) -> broker_inputs ev = [].
Proof.
  unfold _introspect_broker.
  destruct (broker st); [|destruct (broker_process w (spawned st))];
    intros H; injection H as <- <- <-; reflexivity.
Qed.

Lemma bind_Ok_inv {A B} (m : M A) (f : A -> M B) (st st2 : state) (b : B)
      (ev : list event) :
  bind m f st = (Ok b, st2, ev) ->
  exists a st1 ev1 ev2,
    m st = (Ok a, st1, ev1) /\ f a st1 = (Ok b, st2, ev2) /\ ev = ev1 ++ ev2.
Proof.
  unfold bind. destruct (m st) as [[[a|e] st1] ev1]; [|discriminate].
  destruct (f a st1) as [[r2 st2'] ev2] eqn:Ef. intros H.
  injection H as -> <- <-. now exists a, st1, ev1, ev2.
Qed.

Lemma lift_Ok_inv {A} (r : result A) (st st1 : state) (a : A) (ev : list event) :
  lift r st = (Ok a, st1, ev) -> r = Ok a /\ st1 = st /\ ev = [].
Proof. unfold lift. intros H. injection H as -> <- <-. auto. Qed.

(** A successful [_communicate] fed the broker held, once, and dropped
    it. *)
Lemma communicate_success w (msg v : json) (st st1 : state) (ev : list event) :
  _communicate w msg st = (Ok v, st1, ev) ->
  st1 = set_broker None st /\ exists input, broker_inputs ev = [input].
Proof.
  unfold _communicate. intros H.
  apply bind_Ok_inv in H as (payload & s1 & e1 & e1' & H1 & H & ->).
  apply lift_Ok_inv in H1 as (_ & -> & ->).
  apply bind_Ok_inv in H as (size & s2 & e2 & e2' & H2 & H & ->).
  apply lift_Ok_inv in H2 as (_ & -> & ->).
  apply bind_Ok_inv in H as (out & s3 & e3 & e3' & H3 & H & ->).
  destruct (drop_and_decode _ _ _ _ _ H) as (-> & _ & Hin).
  unfold broker_communicate in H3.
  destruct (broker st) as [n|]; [|discriminate].
  destruct (broker_process w n) as [run|]; [|discriminate].
  injection H3 as <- <- <-. split; [reflexivity|].
  exists (size ++ payload). cbn [app broker_inputs]. now rewrite Hin.
Qed.

(** A successful [pick_cookie] found a first cookie with a [name] and a
    text as [data]. *)
Lemma pick_cookie_shape (resp v : json) (st st1 : state) (ev : list event) :
  pick_cookie resp st = (Ok v, st1, ev) ->
  exists first others name data,
    getitem resp (py "response") = Ok (JList (first :: others))
    /\ getitem first (py "name") = Ok name
    /\ getitem first (py "data") = Ok (JStr data).
Proof.
  intros H.
  unfold pick_cookie in H.
  apply bind_Ok_inv in H as (? & ? & ? & ? & _ & H & _).
  apply bind_Ok_inv in H as (cookies & ? & ? & ? & Hc & H & _).
  apply lift_Ok_inv in Hc as (Hc & _).
  apply bind_Ok_inv in H as (count & ? & ? & ? & _ & H & _).
  apply bind_Ok_inv in H as (? & ? & ? & ? & _ & H & _).
  apply bind_Ok_inv in H as (cookies' & ? & ? & ? & Hc' & H & _).
  apply lift_Ok_inv in Hc' as (Hc' & _).
  rewrite Hc in Hc'. injection Hc' as <-.
  apply bind_Ok_inv in H as (first & ? & ? & ? & H0 & H & _).
  apply lift_Ok_inv in H0 as (H0 & _).
  apply bind_Ok_inv in H as (name & ? & ? & ? & Hn & H & _).
  apply lift_Ok_inv in Hn as (Hn & _).
  apply bind_Ok_inv in H as (data & ? & ? & ? & Hd & H & _).
  apply lift_Ok_inv in Hd as (Hd & _).
  apply bind_Ok_inv in H as (parts & ? & ? & ? & Hs & H & _).
  apply lift_Ok_inv in Hs as (Hs & _).
  destruct data as [ | | | | d | | ]; try discriminate.
  destruct cookies as [ | | | | [|c t] | [|y l] | ]; try discriminate;
    injection H0 as <-; [discriminate|].
  now exists y, l, name, d.
Qed.

Lemma pick_cookie_success (resp v : json) (st st1 : state) (ev : list event) :
  pick_cookie resp st = (Ok v, st1, ev) ->
  exists name data,
    v = cookie_result name (before_first 59 data)
    /\ st1 = st /\ broker_inputs ev = [].
Proof.
  intros H.
  pose proof (untouched_pick_cookie resp _ _ _ _ H) as (-> & Hq).
  destruct (pick_cookie_shape _ _ _ _ _ H)
    as (first & others & name & data & Hr & Hn & Hd).
  rewrite (pick_cookie_first resp first name others data st Hr Hn Hd) in H.
  injection H as <- _. exists name, data.
  repeat split. now apply broker_inputs_quiet.
Qed.

(** X18 -- What a cookie result looks like.  Whenever
    [acquire_prt_sso_cookie] returns, the value is a dict of exactly
    [cookieName] and [cookieContent], the content is a text without a
    semicolon, [self.broker] is [None] again, and one broker process was
    given one input on the way. *)
Theorem cookie_result_shape w (account sso_url v : json) (st st1 : state)
        (ev : list event) :
  acquire_prt_sso_cookie w account sso_url st = (Ok v, st1, ev) ->
  (exists name content,
      v = cookie_result name content /\ ~ In 59 content)
  /\ broker st1 = None
  /\ exists input, broker_inputs ev = [input].
Proof.
  rewrite acquire_unfold. intros H.
  apply bind_Ok_inv in H as ([] & s1 & e1 & e1' & H1 & H & ->).
  apply bind_Ok_inv in H as ([] & s2 & e2 & e2' & H2 & H & ->).
  apply bind_Ok_inv in H as (resp & s3 & e3 & e3' & H3 & H & ->).
  destruct (communicate_success w _ _ _ _ _ H3) as (-> & input & Hin).
  destruct (pick_cookie_success _ _ _ _ _ H) as (name & data & -> & -> & Hp).
  split; [|split].
  - exists name, (before_first 59 data). split; [reflexivity|].
    exact (proj1 (before_first_spec 59 data)).
  - reflexivity.
  - exists input. rewrite !broker_inputs_app, Hin, Hp.
    rewrite (untouched_inputs_of (log_debug_add (py "acquire for ") sso_url)
               _ _ _ _ H1) by apply untouched_log_debug_add.
    rewrite (introspect_no_input w _ _ _ _ H2). reflexivity.
Qed.

Lemma cookie_result_shape_sample :
  (exists name content,
      cookie_result (JStr (py "X-Anon")) (py "abc123") = cookie_result name content
      /\ ~ In 59 content)
  /\ broker after_call = None
  /\ exists input,
       broker_inputs
         (snd (acquire_prt_sso_cookie sample_world windows_user
                 (JStr SSO_URL_DEFAULT) with_broker))
       = [input].
Proof.
  apply (cookie_result_shape sample_world windows_user (JStr SSO_URL_DEFAULT)
           (cookie_result (JStr (py "X-Anon")) (py "abc123"))
           with_broker after_call).
  vm_compute. reflexivity.
Defined.

(** ** A cookie request from end to end *)

(** [acquire_prt_sso_cookie] with a broker that answers with a first
    cookie. *)
Lemma acquire_run w (account : json) (u : str) (st : state)
      (run : bytes -> bytes) (payload size prefix : bytes)
      (resp first name : json) (others : list json) (data : str) :
  broker_process w (fresh st) = Some run ->
  utf8_encode (json_dumps (cookie_request (JStr u))) = Ok payload ->
  pack_L (host w) (N.of_nat (length payload)) = Ok size ->
  run (size ++ payload) = prefix ++ map byte_of_N (json_dumps_compact resp) ->
  length prefix = 4%nat -> starts_with_data prefix = true ->
  json_ok resp = true ->
  getitem resp (py "response") = Ok (JList (first :: others)) ->
  getitem first (py "name") = Ok name ->
  getitem first (py "data") = Ok (JStr data) ->
  exists st1 ev,
    acquire_prt_sso_cookie w account (JStr u) st
    = (Ok (cookie_result name (before_first 59 data)), st1, ev)
    /\ broker st1 = None.
Proof.
  intros Hrun Hpay Hsize Hreply Hlen Hdata Hok Hr Hn Hd.
  assert (Hi : exists st0 ev0,
             _introspect_broker w st = (Ok tt, st0, ev0)
             /\ broker st0 = Some (fresh st)).
  { unfold _introspect_broker, fresh in *.
    destruct (broker st) as [n|] eqn:Hb;
      [exists st, []; split; [reflexivity | exact Hb]|].
    rewrite Hrun. eexists _, _. split; reflexivity. }
  destruct Hi as (st0 & ev0 & Hi & Hb0).
  pose proof (communicate_run w _ st0 _ run payload size Hb0 Hrun Hpay Hsize)
    as Hc.
  assert (Hdec : decode_payload
                   (reply_payload
                      (prefix ++ map byte_of_N (json_dumps_compact resp)))
                 = Ok resp).
  { pose proof (reply_payload_framed [] prefix [] resp eq_refl eq_refl
                  Hlen Hdata Hok) as Hf.
    cbn [app] in Hf. rewrite app_nil_r in Hf. exact Hf. }
  rewrite Hreply, Hdec in Hc.
  rewrite (acquire_after_reply w account u st st0 ev0 resp _ _ Hi Hc).
  rewrite (pick_cookie_first resp first name others data _ Hr Hn Hd).
  eexists _, _. split; reflexivity.
Qed.



(** ** What reaches the log *)

Lemma drop_and_decode_log (stdout : bytes) (st st1 : state) (v : json)
      (ev : list event) :
  ((fun st => (Ok tt, set_broker None st, [])) ;;
   log DEBUG (py "rcvd raw: ") (StrOfBytes stdout) ;;
   resp <- lift (utf8_decode (skipn 4 (bytes_strip stdout))) ;;
   lift (json_loads resp))%py st = (Ok v, st1, ev) ->
  ev = [EvLog DEBUG (py "rcvd raw: ") (StrOfBytes stdout)]
  /\ decode_payload (reply_payload stdout) = Ok v.
Proof.
  unfold bind, log, emit, lift, decode_payload, reply_payload, rbind.
  destruct (utf8_decode _) as [t|e]; [destruct (json_loads t)|];
    intros H; try discriminate; injection H as <- <- <-; split; reflexivity.
Qed.

Lemma communicate_logs_reply w (msg v : json) (st st1 : state)
      (ev : list event) :
  _communicate w msg st = (Ok v, st1, ev) ->
  exists raw,
    decode_payload (reply_payload raw) = Ok v
    /\ In (EvLog DEBUG (py "rcvd raw: ") (StrOfBytes raw)) ev.
Proof.
  unfold _communicate. intros H.
  apply bind_Ok_inv in H as (payload & s1 & e1 & e1' & _ & H & ->).
  apply bind_Ok_inv in H as (size & s2 & e2 & e2' & _ & H & ->).
  apply bind_Ok_inv in H as (out & s3 & e3 & e3' & _ & H & ->).
  destruct (drop_and_decode_log _ _ _ _ _ H) as (-> & Hdec).
  exists out. split; [exact Hdec|].
  rewrite !in_app_iff. right. right. right. now left.
Qed.


